(** * asn2ip: the whois protocol client and its read-through cache

    A shallow embedding of [pkg/asn2ip/asn2ip.go] (the plain and the cached
    fetcher) and of [pkg/storage] (the backend registry and the in-memory
    backend), followed by the properties of the specification that were
    checked against it.

    Conventions of the embedding.
    - A Go function returning [(T, error)] returns a pair whose second
      component is an [option error]; [None] is Go's [nil] error.
    - A Go map that may be [nil] is an [option (gmap ..)]; slices are lists
      and the [nil] slice is the empty list (the code only ranges over,
      appends to and stores slices, which does not tell the two apart).
    - A [panic] is an outcome of its own, next to a normal return.
    - The network is scripted: a connection carries the bytes its peer is
      going to send and the fate of each write; what the program wrote is
      logged on the connection, and finished connections are logged in the
      world.
    - Logging calls ([logrus]) have no effect on the results and are left
      out. *)

From Stdlib Require Import ZArith String Ascii List Lia.
From stdpp Require Import base option list gmap strings pretty.

Local Open Scope string_scope.
Local Open Scope list_scope.
Local Open Scope Z_scope.

#[local] Set Warnings "-clear-no-such-hyp".

(** ** Errors *)

(** Error values.  [ErrASNotCached] and [ErrStorageNotFound] are the two
    sentinels of package [storage]; [ErrNet] is an error value handed back
    by the [net] package; [Errorf] and [Wrap] are [errors.Errorf] and
    [errors.Wrap]/[errors.Wrapf] of [github.com/pkg/errors]. *)
Inductive error : Type :=
| ErrASNotCached
| ErrStorageNotFound
| ErrNet (msg : string)
| Errorf (msg : string)
| Wrap (cause : error) (msg : string).

#[global] Instance error_eq_dec : EqDecision error.
Proof. solve_decision. Defined.

(** The text of [err.Error()]. *)
Fixpoint Error (e : error) : string :=
  match e with
  | ErrASNotCached => "as not in cache"
  | ErrStorageNotFound => "storage type not found"
  | ErrNet msg => msg
  | Errorf msg => msg
  | Wrap cause msg => msg +:+ ": " +:+ Error cause
  end.

(** How a call ends: it returns, it panics, or the model ran out of fuel
    (shown below never to happen). *)
Inductive outcome (A : Type) : Type :=
| Return (a : A)
| Panicked (e : error)
| OutOfFuel.
Arguments Return {A} a.
Arguments Panicked {A} e.
Arguments OutOfFuel {A}.

(** ** Bytes and strings *)

Definition LF : ascii := ascii_of_nat 10.
Definition CR : ascii := ascii_of_nat 13.
Definition nl : string := String LF "".

Definition byte_of (c : ascii) : Z := Z.of_nat (nat_of_ascii c).

(** [s[n:]] *)
Fixpoint sdrop (n : nat) (s : string) : string :=
  match n, s with
  | O, _ => s
  | S n', String _ s' => sdrop n' s'
  | S _, EmptyString => EmptyString
  end.

(** [strings.TrimRight(s, "\r")]: every trailing carriage return goes. *)
Fixpoint TrimRight_CR (s : string) : string :=
  match s with
  | EmptyString => EmptyString
  | String c s' =>
      let t := TrimRight_CR s' in
      if Ascii.eqb c CR && String.eqb t "" then EmptyString else String c t
  end.

(** [strings.Split(s, " ")]: the pieces between single spaces; a string
    without a space, the empty string included, is one piece. *)
Fixpoint Split_sp (s : string) : list string :=
  match s with
  | EmptyString => [EmptyString]
  | String c s' =>
      if Ascii.eqb c " "%char then EmptyString :: Split_sp s'
      else match Split_sp s' with
           | piece :: pieces => String c piece :: pieces
           | [] => [String c EmptyString]
           end
  end.

(** ** The part of Go's [net] package the fetcher calls *)

Module net.

(** [*net.IPNet]: the masked address and the mask, as bytes (4 for IPv4,
    16 for IPv6). *)
Record IPNet : Type := mkIPNet { IP : list Z; Mask : list Z }.

#[global] Instance IPNet_eq_dec : EqDecision IPNet.
Proof. solve_decision. Defined.

Definition big : Z := 16777215.

Definition is_dec (c : ascii) : bool :=
  (byte_of "0"%char <=? byte_of c) && (byte_of c <=? byte_of "9"%char).

Definition hex_val (c : ascii) : option Z :=
  let b := byte_of c in
  if (byte_of "0"%char <=? b) && (b <=? byte_of "9"%char) then Some (b - byte_of "0"%char)
  else if (byte_of "a"%char <=? b) && (b <=? byte_of "f"%char) then Some (b - byte_of "a"%char + 10)
  else if (byte_of "A"%char <=? b) && (b <=? byte_of "F"%char) then Some (b - byte_of "A"%char + 10)
  else None.

(** [dtoi]: the decimal number at the front of [s], how many bytes it
    takes, and whether there is one. *)
Fixpoint dtoi_loop (s : string) (n : Z) (i : nat) : Z * nat * bool :=
  match s with
  | String c s' =>
      if is_dec c then
        let n' := n * 10 + (byte_of c - byte_of "0"%char) in
        if big <=? n' then (big, i, false) else dtoi_loop s' n' (S i)
      else match i with O => (0, O, false) | _ => (n, i, true) end
  | EmptyString => match i with O => (0, O, false) | _ => (n, i, true) end
  end.
Definition dtoi (s : string) : Z * nat * bool := dtoi_loop s 0 O.

(** [xtoi]: the same for hexadecimal. *)
Fixpoint xtoi_loop (s : string) (n : Z) (i : nat) : Z * nat * bool :=
  match s with
  | String c s' =>
      match hex_val c with
      | Some d =>
          let n' := n * 16 + d in
          if big <=? n' then (0, i, false) else xtoi_loop s' n' (S i)
      | None => match i with O => (0, i, false) | _ => (n, i, true) end
      end
  | EmptyString => match i with O => (0, i, false) | _ => (n, i, true) end
  end.
Definition xtoi (s : string) : Z * nat * bool := xtoi_loop s 0 O.

(** [parseIPv4]: four decimal fields of at most 255 without a leading zero,
    separated by dots, and nothing after them.  [k] fields remain;
    [first] is [i == 0]. *)
Fixpoint parseIPv4_loop (k : nat) (first : bool) (s : string) : option (list Z) :=
  match k with
  | O => if String.eqb s "" then Some [] else None
  | S k' =>
      match s with
      | EmptyString => None
      | String c0 rest0 =>
          let field :=
            if first then Some s
            else if Ascii.eqb c0 "."%char then Some rest0 else None in
          match field with
          | None => None
          | Some s1 =>
              let '(n, c, ok) := dtoi s1 in
              if negb ok || (255 <? n) then None
              else if (1 <? c)%nat && String.eqb (String.substring 0 1 s1) "0" then None
              else option_map (cons n) (parseIPv4_loop k' false (sdrop c s1))
          end
      end
  end.
Definition parseIPv4 (s : string) : option (list Z) := parseIPv4_loop 4 true s.

(** One round of the loop of [parseIPv6]: [ip] holds the [i] bytes parsed
    so far, [ellipsis] the position of ["::"] when one was seen.  The loop
    runs while [i < 16]; it stops with the rest of the string, which must
    then be empty. *)
Fixpoint parseIPv6_loop (fuel : nat) (ip : list Z) (ellipsis : option nat) (s : string)
  : option (list Z * option nat * string) :=
  match fuel with
  | O => Some (ip, ellipsis, s)
  | S fuel' =>
      if negb (length ip <? 16)%nat then Some (ip, ellipsis, s) else
      let '(n, c, ok) := xtoi s in
      if negb ok || (65535 <? n) then None
      else if (c <? String.length s)%nat && String.eqb (String.substring c 1 s) "." then
        (* a trailing dotted quad *)
        if bool_decide (ellipsis = None) && negb (length ip =? 12)%nat then None
        else if (16 <? length ip + 4)%nat then None
        else match parseIPv4 s with
             | None => None
             | Some ip4 => Some (ip ++ ip4, ellipsis, "")
             end
      else
        let ip := ip ++ [Z.shiftr n 8; Z.land n 255] in
        let s := sdrop c s in
        match s with
        | EmptyString => Some (ip, ellipsis, s)
        | String c0 s1 =>
            if negb (Ascii.eqb c0 ":"%char) || (String.length s =? 1)%nat then None
            else match s1 with
                 | String ":"%char s2 =>
                     if bool_decide (ellipsis = None) then
                       match s2 with
                       | EmptyString => Some (ip, Some (length ip), s2)
                       | _ => parseIPv6_loop fuel' ip (Some (length ip)) s2
                       end
                     else None
                 | _ => parseIPv6_loop fuel' ip ellipsis s1
                 end
        end
  end.

Definition parseIPv6 (s : string) : option (list Z) :=
  let '(ellipsis, s, only) :=
    match s with
    | String ":"%char (String ":"%char s') => (Some O, s', String.eqb s' "")
    | _ => (None, s, false)
    end in
  if only then Some (replicate 16 0) else
  match parseIPv6_loop 9 [] ellipsis s with
  | None => None
  | Some (ip, ellipsis, s) =>
      if negb (String.eqb s "") then None
      else if (length ip <? 16)%nat then
        match ellipsis with
        | None => None
        | Some e => Some (take e ip ++ replicate (16 - length ip) 0 ++ drop e ip)
        end
      else match ellipsis with
           | Some _ => None
           | None => Some ip
           end
  end.

(** [CIDRMask(ones, 8*l)] *)
Fixpoint CIDRMask (l : nat) (ones : Z) : list Z :=
  match l with
  | O => []
  | S l' =>
      if 8 <=? ones then 255 :: CIDRMask l' (ones - 8)
      else (255 - Z.shiftr 255 ones) :: CIDRMask l' 0
  end.

(** [ip.Mask(m)] for an address and a mask of the same length. *)
Definition mask_ip (ip m : list Z) : list Z := zip_with Z.land ip m.

(** [strings.IndexByte(s, '/')] *)
Fixpoint index_slash (s : string) : option nat :=
  match s with
  | EmptyString => None
  | String c s' => if Ascii.eqb c "/"%char then Some O else option_map S (index_slash s')
  end.

(** [net.ParseCIDR], as far as the fetcher uses it: the network of the
    prefix, or [None] for the parse error.  An address is tried as IPv4
    first and as IPv6 second; the caller has no say in the family. *)
Definition ParseCIDR (s : string) : option IPNet :=
  match index_slash s with
  | None => None
  | Some i =>
      let addr := String.substring 0 i s in
      let mask := sdrop (S i) s in
      let '(iplen, ip) :=
        match parseIPv4 addr with
        | Some ip4 => (4%nat, Some ip4)
        | None => (16%nat, parseIPv6 addr)
        end in
      let '(n, c, ok) := dtoi mask in
      match ip with
      | None => None
      | Some ip =>
          if negb ok || negb (c =? String.length mask)%nat || (n <? 0) || (8 * Z.of_nat iplen <? n)
          then None
          else let m := CIDRMask iplen n in Some (mkIPNet (mask_ip ip m) m)
      end
  end.

(** The family of a parsed network, by the length of its address. *)
Definition is_ipv4 (n : IPNet) : bool := (length (IP n) =? 4)%nat.
Definition is_ipv6 (n : IPNet) : bool := (length (IP n) =? 16)%nat.

End net.

(** ** Connections and the scripted network *)

(** A [net.Conn].  [incoming] are the bytes the peer still sends before it
    closes the connection; [wscript] tells which writes fail (the [k]-th
    write fails when [wscript !! k = Some false], every other write
    succeeds); [written] logs each write with its fate; [duration] is the
    time the session takes, charged to the clock when it is closed. *)
Record Conn : Type := mkConn {
  incoming : string;
  wscript : list bool;
  written : list (string * bool);
  duration : Z;
  closed : bool
}.

#[global] Instance Conn_eq_dec : EqDecision Conn.
Proof. solve_decision. Defined.

Definition io_EOF : error := ErrNet "EOF".
Definition io_write_failed : error := ErrNet "write: broken pipe".
Definition io_refused : error := ErrNet "connect: connection refused".

(** [conn.Read(buf[:1])]: the next byte, or the error of a closed stream. *)
Definition conn_Read (c : Conn) : Conn * (ascii + error) :=
  match incoming c with
  | EmptyString => (c, inr io_EOF)
  | String b rest =>
      (mkConn rest (wscript c) (written c) (duration c) (closed c), inl b)
  end.

(** [conn.Write([]byte(s))] *)
Definition conn_Write (c : Conn) (s : string) : Conn * option error :=
  let ok := default true (wscript c !! length (written c)) in
  (mkConn (incoming c) (wscript c) (written c ++ [(s, ok)]) (duration c) (closed c),
   if ok then None else Some io_write_failed).

(** [conn.Close()] *)
Definition conn_Close (c : Conn) : Conn :=
  mkConn (incoming c) (wscript c) (written c) (duration c) true.

(** What a dial meets: a refusal, or a peer with its script. *)
Inductive Peer : Type :=
| Refuse (e : error)
| Accept (incoming : string) (wscript : list bool) (duration : Z).

(** One entry of the world's log per dial. *)
Inductive DialRecord : Type :=
| DialFailed (addr : string)
| Session (addr : string) (c : Conn).

#[global] Instance DialRecord_eq_dec : EqDecision DialRecord.
Proof. solve_decision. Defined.

(** The world outside the process: the reading of the monotonic clock
    (nanoseconds), the peers the next dials will meet, and the log. *)
Record World : Type := mkWorld {
  now : Z;
  network : list Peer;
  history : list DialRecord
}.

(** [net.Dial("tcp", addr)] *)
Definition Dial (addr : string) (w : World) : World * (Conn + error) :=
  match network w with
  | [] => (mkWorld (now w) [] (history w ++ [DialFailed addr]), inr io_refused)
  | Refuse e :: peers => (mkWorld (now w) peers (history w ++ [DialFailed addr]), inr e)
  | Accept inp ws d :: peers => (mkWorld (now w) peers (history w), inl (mkConn inp ws [] d false))
  end.

(** The end of a session: the closed connection goes to the log and the
    clock has moved on. *)
Definition hang_up (addr : string) (c : Conn) (w : World) : World :=
  mkWorld (now w + duration c) (network w) (history w ++ [Session addr (conn_Close c)]).

(** Time passing between two calls. *)
Definition sleep (d : Z) (w : World) : World :=
  mkWorld (now w + d) (network w) (history w).

(** ** [asn2ip.go]: the plain fetcher *)

Record fetcher : Type := mkFetcher { host : string; port : Z }.

Definition NewFetcher (host : string) (port : Z) : fetcher := mkFetcher host port.

(** The loop of [readLine] over the bytes to come; [resp] is the buffer. *)
Fixpoint readLine_loop (c : Conn) (inp : string) (resp : string) : Conn * (string * option error) :=
  match inp with
  | EmptyString =>
      (mkConn "" (wscript c) (written c) (duration c) (closed c),
       ("", Some (Wrap io_EOF "failed to read next byte from connection")))
  | String b rest =>
      if Ascii.eqb b LF
      then (mkConn rest (wscript c) (written c) (duration c) (closed c), (TrimRight_CR resp, None))
      else readLine_loop c rest (resp +:+ String b "")
  end.

Definition readLine (conn : Conn) : Conn * (string * option error) :=
  readLine_loop conn (incoming conn) "".

(** The two states of the response loop of [fetch]. *)
Inductive fetch_state : Type := st_start | st_response.

(** [for _, n := range nets { .. net.ParseCIDR(n) .. append .. }] *)
Fixpoint parse_nets (as_ : string) (nets : list string) (response : list net.IPNet)
  : list net.IPNet * option error :=
  match nets with
  | [] => (response, None)
  | n :: nets' =>
      match net.ParseCIDR n with
      | None => ([], Some (Errorf ("failed to parse network " +:+ n +:+ " for as " +:+ as_)))
      | Some ipnet => parse_nets as_ nets' (response ++ [ipnet])
      end
  end.

(** The response loop of [fetch]. *)
Fixpoint fetch_loop (fuel : nat) (as_ : string) (conn : Conn) (state : fetch_state)
    (response : list net.IPNet) : Conn * outcome (list net.IPNet * option error) :=
  match fuel with
  | O => (conn, OutOfFuel)
  | S fuel' =>
      let '(conn, (line, err)) := readLine conn in
      match err with
      | Some e => (conn, Panicked e)
      | None =>
          if String.eqb line "D" then
            (conn, Return ([], Some (Errorf ("as " +:+ as_ +:+ " not found"))))
          else if String.eqb line "C" then
            (conn, Return (response, None))
          else
            match state with
            | st_start =>
                match line with
                | EmptyString =>
                    (conn, Return ([], Some (Errorf ("empty response for as " +:+ as_))))
                | String c0 _ =>
                    if negb (Ascii.eqb c0 "A"%char) then
                      (conn, Return ([], Some (Errorf ("received invalid response for as " +:+ as_))))
                    else fetch_loop fuel' as_ conn st_response response
                end
            | st_response =>
                match parse_nets as_ (Split_sp line) response with
                | (_, Some e) => (conn, Return ([], Some e))
                | (response', None) => fetch_loop fuel' as_ conn st_response response'
                end
            end
      end
  end.

(** The command of a query, when the version is one the protocol has. *)
Definition fetch_cmd (as_ : string) (version : Z) : option string :=
  if version =? 4 then Some ("!gAS" +:+ as_ +:+ nl)
  else if version =? 6 then Some ("!6AS" +:+ as_ +:+ nl)
  else None.

(** [fetch(conn, as, version)].  Every line read takes at least its
    newline off [incoming], so one round more than there are bytes is
    enough fuel. *)
Definition fetch (conn : Conn) (as_ : string) (version : Z)
  : Conn * outcome (list net.IPNet * option error) :=
  match fetch_cmd as_ version with
  | None => (conn, Return ([], Some (Errorf ("unknown ip protocol version " +:+ pretty version))))
  | Some cmd =>
      let '(conn, werr) := conn_Write conn cmd in
      match werr with
      | Some e => (conn, Return ([], Some (Wrap e ("failed to fetch ip addresses for " +:+ as_))))
      | None => fetch_loop (S (String.length (incoming conn))) as_ conn st_start []
      end
  end.

(** The result of a [Fetch]: AS number to ["ipv4"]/["ipv6"] to networks. *)
Abbreviation mapping := (gmap string (gmap string (list net.IPNet))).

Definition fresh_entry : gmap string (list net.IPNet) :=
  <["ipv4" := []]> (<["ipv6" := []]> ∅).

(** [if want { net, err := fetch(conn, v, version); if err != nil { return
    nil, err }; result[v][key] = net }] *)
Definition fetch_into (want : bool) (version : Z) (key : string) (v : string)
    (conn : Conn) (result : mapping) : Conn * outcome (mapping * option error) :=
  if want then
    let '(conn, r) := fetch conn v version in
    match r with
    | Return (_, Some err) => (conn, Return (result, Some err))
    | Return (ipnets, None) => (conn, Return (alter (insert key ipnets) v result, None))
    | Panicked e => (conn, Panicked e)
    | OutOfFuel => (conn, OutOfFuel)
    end
  else (conn, Return (result, None)).

(** [for _, v := range asn { .. }] of [fetcher.Fetch]. *)
Fixpoint fetch_range (ipv4 ipv6 : bool) (asn : list string) (conn : Conn) (result : mapping)
  : Conn * outcome (option mapping * option error) :=
  match asn with
  | [] => (conn, Return (Some result, None))
  | v :: asn' =>
      let result := <[v := fresh_entry]> result in
      match fetch_into ipv4 4 "ipv4" v conn result with
      | (conn, Return (result, None)) =>
          match fetch_into ipv6 6 "ipv6" v conn result with
          | (conn, Return (result, None)) => fetch_range ipv4 ipv6 asn' conn result
          | (conn, Return (_, Some err)) => (conn, Return (None, Some err))
          | (conn, Panicked e) => (conn, Panicked e)
          | (conn, OutOfFuel) => (conn, OutOfFuel)
          end
      | (conn, Return (_, Some err)) => (conn, Return (None, Some err))
      | (conn, Panicked e) => (conn, Panicked e)
      | (conn, OutOfFuel) => (conn, OutOfFuel)
      end
  end.

(** What [fetcher.Fetch] does on the connection between the [defer] and
    the deferred call. *)
Definition session (ipv4 ipv6 : bool) (asn : list string) (conn : Conn) (result : mapping)
  : Conn * outcome (option mapping * option error) :=
  let '(conn, werr) := conn_Write conn ("!!" +:+ nl) in
  match werr with
  | Some e => (conn, Return (None, Some (Wrap e "failed to enable multicommand mode")))
  | None => fetch_range ipv4 ipv6 asn conn result
  end.

(** The deferred function: [conn.Write([]byte("exit\n")); conn.Close()],
    run on every way out of the session, a panic included. *)
Definition deferred (addr : string) (conn : Conn) (w : World) : World :=
  let '(conn, _) := conn_Write conn ("exit" +:+ nl) in
  hang_up addr conn w.

Definition address (f : fetcher) : string := host f +:+ ":" +:+ pretty (port f).

(** [fetcher.Fetch] *)
Definition fetcher_Fetch (f : fetcher) (ipv4 ipv6 : bool) (asn : list string) (w : World)
  : World * outcome (option mapping * option error) :=
  let result : mapping := ∅ in
  if (length asn =? 0)%nat then (w, Return (Some result, None)) else
  match Dial (address f) w with
  | (w, inr err) =>
      (w, Return (None, Some (Wrap err ("failed to connect to " +:+ address f))))
  | (w, inl conn) =>
      let '(conn, r) := session ipv4 ipv6 asn conn result in
      (deferred (address f) conn w, r)
  end.


(** ** Package [storage] *)

Module storage.

Record ASStorage : Type := mkASStorage {
  AS : string;
  IPv4 : list net.IPNet;
  IPv6 : list net.IPNet;
  FetchedIPv4 : bool;
  FetchedIPv6 : bool
}.

#[global] Instance ASStorage_eq_dec : EqDecision ASStorage.
Proof. solve_decision. Defined.

(** [ASStorage{}] *)
Definition zero : ASStorage := mkASStorage "" [] [] false false.

(** The interface [Storage].  The state of the backend is passed in and
    handed back; [now] is the clock reading a method gets when it asks for
    the time. *)
Class Storage (S : Type) : Type := {
  Get : S -> Z -> string -> S * (ASStorage * option error);
  SetAS : S -> Z -> ASStorage -> S * option error
}.

Record StorageOptions : Type := mkStorageOptions { Name : string; TTL : Z }.

(** *** [time.Since] on readings of the monotonic clock *)

Definition maxDuration : Z := 2 ^ 63 - 1.
Definition minDuration : Z := - 2 ^ 63.

(** Two's complement wrap-around of [int64]. *)
Definition int64 (z : Z) : Z := (z + 2 ^ 63) mod 2 ^ 64 - 2 ^ 63.

(** [subMono(t, u)]: the difference, saturated where it overflows. *)
Definition subMono (t u : Z) : Z :=
  let d := int64 (t - u) in
  if (d <? 0) && (u <? t) then maxDuration
  else if (0 <? d) && (t <? u) then minDuration
  else d.

Definition Since (now t : Z) : Z := subMono now t.

(** *** The in-memory backend *)

Record memory : Type := mkMemory {
  stor : gmap string ASStorage;
  ttl : gmap string Z;
  maxTTL : Z
}.

(** [(m *memory) Get(as)] *)
Definition memory_Get (m : memory) (now : Z) (as_ : string) : memory * (ASStorage * option error) :=
  match stor m !! as_ with
  | None => (m, (zero, Some ErrASNotCached))
  | Some v =>
      match ttl m !! as_ with
      | None => (mkMemory (delete as_ (stor m)) (ttl m) (maxTTL m), (zero, Some ErrASNotCached))
      | Some t =>
          if maxTTL m <? Since now t then
            (mkMemory (delete as_ (stor m)) (delete as_ (ttl m)) (maxTTL m),
             (zero, Some ErrASNotCached))
          else (m, (v, None))
      end
  end.

(** [(m *memory) Set(as)] *)
Definition memory_Set (m : memory) (now : Z) (as_ : ASStorage) : memory * option error :=
  (mkMemory (<[AS as_ := as_]> (stor m)) (<[AS as_ := now]> (ttl m)) (maxTTL m), None).

#[global] Instance memory_Storage : Storage memory :=
  {| Get := memory_Get; SetAS := memory_Set |}.

(** *** The registry *)

(** A value of the interface type: a backend with its state. *)
Record Backend : Type := mkBackend {
  carrier : Type;
  methods : Storage carrier;
  state : carrier
}.

Abbreviation storageFunc := (StorageOptions -> option Backend * option error).

Definition newMemory : storageFunc :=
  fun opts => (Some (mkBackend memory memory_Storage (mkMemory ∅ ∅ (TTL opts))), None).

Definition storages : gmap string storageFunc :=
  <["" := newMemory]> (<["default" := newMemory]> (<["memory" := newMemory]> ∅)).

Definition NewStorage (opts : StorageOptions) : option Backend * option error :=
  match storages !! Name opts with
  | None => (None, Some ErrStorageNotFound)
  | Some v => v opts
  end.

End storage.

(** ** [asn2ip.go]: the cached fetcher *)

Section cached.

Context {S : Type} `{storage.Storage S}.

Record cachedFetcher : Type := mkCachedFetcher { cache : S; embedded : fetcher }.

Definition NewCachedFetcher (host : string) (port : Z) (cache : S) : cachedFetcher :=
  mkCachedFetcher cache (mkFetcher host port).

(** The test of line 165 on what [Get] returned. *)
Definition uncached_test (ipv4 ipv6 : bool) (r : storage.ASStorage) (err : option error) : bool :=
  bool_decide (err = Some ErrASNotCached)
  || (ipv4 && negb (storage.FetchedIPv4 r))
  || (ipv6 && negb (storage.FetchedIPv6 r)).

(** [result[as] = ..] for a record taken from the cache. *)
Definition cached_entry (ipv4 ipv6 : bool) (r : storage.ASStorage) : gmap string (list net.IPNet) :=
  let e := fresh_entry in
  let e := if ipv4 then <["ipv4" := storage.IPv4 r]> e else e in
  if ipv6 then <["ipv6" := storage.IPv6 r]> e else e.

(** The first loop of [cachedFetcher.Fetch]: what is in the cache goes to
    [result], the rest is listed in [uncached]. *)
Fixpoint lookup_range (ipv4 ipv6 : bool) (now : Z) (asn : list string) (cache : S)
    (uncached : list string) (result : mapping) : S * (list string * mapping + error) :=
  match asn with
  | [] => (cache, inl (uncached, result))
  | as_ :: asn' =>
      let '(cache, (r, err)) := storage.Get cache now as_ in
      if uncached_test ipv4 ipv6 r err then
        lookup_range ipv4 ipv6 now asn' cache (uncached ++ [as_]) result
      else
        match err with
        | Some e => (cache, inr (Wrap e ("failed to fetch asn " +:+ as_ +:+ " from cache")))
        | None =>
            lookup_range ipv4 ipv6 now asn' cache uncached
              (<[as_ := cached_entry ipv4 ipv6 r]> result)
        end
  end.

(** [v[key]] on a map of slices: the [nil] slice when the key is absent. *)
Definition at_key (v : gmap string (list net.IPNet)) (key : string) : list net.IPNet :=
  default [] (v !! key).

(** The last loop of [cachedFetcher.Fetch], over the entries of the map
    the plain fetcher returned.  Go ranges over a map in an order of its
    choice; the model takes the entries in the order of [map_to_list]. *)
Fixpoint store_range (ipv4 ipv6 : bool) (now : Z)
    (entries : list (string * gmap string (list net.IPNet))) (cache : S) (result : mapping)
  : S * (option mapping * option error) :=
  match entries with
  | [] => (cache, (Some result, None))
  | (as_, v) :: entries' =>
      let '(cache, err) :=
        storage.SetAS cache now
          (storage.mkASStorage as_ (at_key v "ipv4") (at_key v "ipv6") ipv4 ipv6) in
      match err with
      | Some e => (cache, (None, Some (Wrap e ("failed to put " +:+ as_ +:+ " on cache"))))
      | None =>
          store_range ipv4 ipv6 now entries' cache
            (<[as_ := <["ipv4" := at_key v "ipv4"]> (<["ipv6" := at_key v "ipv6"]> ∅)]> result)
      end
  end.

(** [cachedFetcher.Fetch].  The receiver comes back with the state its
    cache is left in. *)
Definition cachedFetcher_Fetch (f : cachedFetcher) (ipv4 ipv6 : bool) (asn : list string)
    (w : World) : cachedFetcher * World * outcome (option mapping * option error) :=
  let result : mapping := ∅ in
  if (length asn =? 0)%nat then (f, w, Return (Some result, None)) else
  match lookup_range ipv4 ipv6 (now w) asn (cache f) [] result with
  | (c, inr err) => (mkCachedFetcher c (embedded f), w, Return (None, Some err))
  | (c, inl (uncached, result)) =>
      let f := mkCachedFetcher c (embedded f) in
      if (length uncached =? 0)%nat then (f, w, Return (Some result, None)) else
      match fetcher_Fetch (embedded f) ipv4 ipv6 uncached w with
      | (w, Return (_, Some err)) => (f, w, Return (None, Some err))
      | (w, Return (r, None)) =>
          let '(c, res) :=
            store_range ipv4 ipv6 (now w) (map_to_list (default ∅ r)) (cache f) result in
          (mkCachedFetcher c (embedded f), w, Return res)
      | (w, Panicked e) => (f, w, Panicked e)
      | (w, OutOfFuel) => (f, w, OutOfFuel)
      end
  end.

End cached.

Arguments cachedFetcher S : clear implicits.

Import storage.

(** ** [cmd/asn2ip/httpserver.go]: the handler of [GET /:asn] *)

(** [strings.Split(s, sep)] for a separator of one byte. *)
Fixpoint Split_on (sep : ascii) (s : string) : list string :=
  match s with
  | EmptyString => [EmptyString]
  | String c s' =>
      if Ascii.eqb c sep then EmptyString :: Split_on sep s'
      else match Split_on sep s' with
           | piece :: pieces => String c piece :: pieces
           | [] => [String c EmptyString]
           end
  end.

(** [strings.Join(elems, sep)] *)
Fixpoint Join (elems : list string) (sep : string) : string :=
  match elems with
  | [] => EmptyString
  | [x] => x
  | x :: rest => x +:+ sep +:+ Join rest sep
  end.

(** [strconv.ParseBool] *)
Definition ParseBool (str : string) : option bool :=
  if bool_decide (str ∈ ["1"; "t"; "T"; "true"; "TRUE"; "True"]) then Some true
  else if bool_decide (str ∈ ["0"; "f"; "F"; "false"; "FALSE"; "False"]) then Some false
  else None.

(** What the handler reads of a request: the [asn] segment of the path,
    the query parameters (the first value of each key that is present) and
    the [Accept] header. *)
Record Request : Type := mkRequest {
  param_asn : string;
  query : gmap string string;
  accept : string
}.

(** What the handler writes: [c.String] writes text, [c.JSON] an object. *)
Inductive Body : Type :=
| Text (s : string)
| JSON (v : gmap string (gmap string (list string))).

Record Response : Type := mkResponse { status : Z; body : Body }.

Definition StatusOK : Z := 200.
Definition StatusBadRequest : Z := 400.
Definition StatusInternalServerError : Z := 500.

(** [c.DefaultQuery(key, def)] *)
Definition DefaultQuery (req : Request) (key def : string) : string :=
  default def (query req !! key).

Section router.

(** Two functions of the Go library that the handler calls and that are
    left open: the [String] method of [net.IPNet] and [strings.EqualFold]. *)
Variable IPNet_String : net.IPNet → string.
Variable EqualFold : string → string → bool.

(** Go leaves open the order in which a [range] statement visits the
    entries of a map, and the order may change from one [range] statement
    to the next, also over the same map.  [range_map n m] is the order in
    which the [n]-th [range] statement over a map that the handler runs for
    a request visits the entries of [m]. *)
Variable range_map : ∀ A : Type, nat → gmap string A → list (string * A).

Context {S : Type} `{Storage S}.

(** [wantJson] *)
Definition wantJson (req : Request) : bool := EqualFold (accept req) "application/json".

(** The loops that build [normalized]. *)
Definition normalize (ips : mapping) : gmap string (gmap string (list string)) :=
  (λ ipversions : gmap string (list net.IPNet),
     (λ nets : list net.IPNet, IPNet_String <$> nets) <$> ipversions) <$> ips.

(** [for ver, nets := range ipversions { .. }] of the text branch, as the
    [n]-th [range] statement of the request. *)
Definition collect_versions (n : nat) (acc : list string * list string)
    (ipversions : gmap string (list net.IPNet)) : list string * list string :=
  foldl (λ '(allIP4, allIP6) '(ver, nets),
           if String.eqb ver "ipv4" then (allIP4 ++ (IPNet_String <$> nets), allIP6)
           else if String.eqb ver "ipv6" then (allIP4, allIP6 ++ (IPNet_String <$> nets))
           else (allIP4, allIP6))
        acc (range_map _ n ipversions).

(** [for _, ipversions := range ips { .. }] of the text branch: the first
    [range] statement of the request; each turn of it runs one more. *)
Definition collect (ips : mapping) : list string * list string :=
  (foldl (λ '(acc, n) '(_, ipversions), (collect_versions n acc ipversions, (n + 1)%nat))
         (([], []), 1%nat) (range_map _ 0%nat ips)).1.

(** The handler of [GET /:asn], from the request to what it writes; the
    fetcher of the router comes back with the state of its cache. *)
Definition asn_handler (f : cachedFetcher S) (req : Request) (w : World)
  : cachedFetcher S * World * outcome Response :=
  let asn := Split_on ":" (param_asn req) in
  match ParseBool (DefaultQuery req "ipv4" "true") with
  | None =>
      (f, w, Return (mkResponse StatusBadRequest (Text "ipv4 query parameter must be a boolean")))
  | Some ipv4 =>
      match ParseBool (DefaultQuery req "ipv6" "true") with
      | None =>
          (f, w,
           Return (mkResponse StatusBadRequest (Text "ipv6 query parameter must be a boolean")))
      | Some ipv6 =>
          let separator := DefaultQuery req "separator" " " in
          let json := wantJson req in
          match cachedFetcher_Fetch f ipv4 ipv6 asn w with
          | (f, w, Return (_, Some err)) =>
              (f, w,
               Return (mkResponse StatusInternalServerError
                         (Text ("failed to fetch ip addresses for AS " +:+ Join asn ":"))))
          | (f, w, Return (ips, None)) =>
              if json then
                (f, w, Return (mkResponse StatusOK (JSON (normalize (default ∅ ips)))))
              else
                let '(allIP4, allIP6) := collect (default ∅ ips) in
                (f, w, Return (mkResponse StatusOK (Text (Join (allIP4 ++ allIP6) separator))))
          | (f, w, Panicked e) => (f, w, Panicked e)
          | (f, w, OutOfFuel) => (f, w, OutOfFuel)
          end
      end
  end.

End router.

(** ** Vocabulary of the statements *)

(** The queries of a whole batch, in the order [fetcher.Fetch] issues
    them. *)
Definition commands (ipv4 ipv6 : bool) (asn : list string) : list string :=
  v ← asn;
  (if ipv4 then ["!gAS" +:+ v +:+ nl] else []) ++ (if ipv6 then ["!6AS" +:+ v +:+ nl] else []).

(** The error of the first query for [v] that fails on [conn], the IPv4
    query going first and the IPv6 query following on the connection as
    the IPv4 query left it. *)
Definition failing_query (ipv4 ipv6 : bool) (v : string) (conn : Conn) : option error :=
  match (if ipv4 then fetch conn v 4 else (conn, Return ([], None))) with
  | (_, Return (_, Some e)) => Some e
  | (conn, Return (_, None)) =>
      if ipv6 then
        match fetch conn v 6 with
        | (_, Return (_, Some e)) => Some e
        | _ => None
        end
      else None
  | _ => None
  end.

(** The first token of a data line that is no CIDR prefix. *)
Definition first_bad (tokens : list string) : option string :=
  List.find (fun t => bool_decide (net.ParseCIDR t = None)) tokens.

(** A token counts as a prefix of the family of a query when it parses and
    its address has the length of that family. *)
Definition prefix_of_family (version : Z) (token : string) : bool :=
  match net.ParseCIDR token with
  | Some n =>
      if version =? 4 then net.is_ipv4 n
      else if version =? 6 then net.is_ipv6 n
      else false
  | None => false
  end.

(** The record the cached fetcher writes for [X] from the entry [e] of a
    fetched mapping. *)
Definition record_of (ipv4 ipv6 : bool) (X : string) (e : gmap string (list net.IPNet))
  : ASStorage :=
  mkASStorage X (at_key e "ipv4") (at_key e "ipv6") ipv4 ipv6.

(** No byte of [s] is a line feed. *)
Fixpoint no_LF (s : string) : bool :=
  match s with
  | EmptyString => true
  | String c s' => negb (Ascii.eqb c LF) && no_LF s'
  end.

(** [k] carriage returns. *)
Fixpoint CRs (k : nat) : string :=
  match k with
  | O => EmptyString
  | S k' => String CR (CRs k')
  end.

(** The last byte of a string. *)
Fixpoint last_byte (s : string) : option ascii :=
  match s with
  | EmptyString => None
  | String c EmptyString => Some c
  | String _ s' => last_byte s'
  end.

(** Lines as they travel: each followed by a line feed. *)
Fixpoint on_wire (lines : list string) : string :=
  match lines with
  | [] => EmptyString
  | l :: lines' => l +:+ nl +:+ on_wire lines'
  end.

(** The networks of a data line, when each of its tokens is a prefix. *)
Definition line_nets (line : string) : option (list net.IPNet) :=
  mapM net.ParseCIDR (Split_sp (TrimRight_CR line)).

(** A connection with other bytes to come. *)
Definition with_incoming (inp : string) (c : Conn) : Conn :=
  mkConn inp (wscript c) (written c) (duration c) (closed c).

(** The shape of an entry of a result: the two version keys and no other,
    with no networks under a version that was not asked for. *)
Definition entry_shape (ipv4 ipv6 : bool) (e : gmap string (list net.IPNet)) : Prop :=
  dom e = {[ "ipv4"; "ipv6" ]}
  ∧ (ipv4 = false → e !! "ipv4" = Some [])
  ∧ (ipv6 = false → e !! "ipv6" = Some []).

(** The states an in-memory backend built with TTL [t] can come to: the
    one [newMemory] builds, and what [Get] and [Set] make of a state. *)
Inductive reachable (t : Z) : memory → Prop :=
| reach_new : reachable t (mkMemory ∅ ∅ t)
| reach_Get (m : memory) (now : Z) (as_ : string) :
    reachable t m → reachable t (memory_Get m now as_).1
| reach_Set (m : memory) (now : Z) (rec : ASStorage) :
    reachable t m → reachable t (memory_Set m now rec).1.

(** The in-memory cache holds, at time [now], a live record for [as_]
    that has every version that is asked for. *)
Definition cached_for (ipv4 ipv6 : bool) (c : memory) (now : Z) (as_ : string) : Prop :=
  ∃ (rec : ASStorage) (t : Z),
    stor c !! as_ = Some rec ∧ ttl c !! as_ = Some t ∧ Since now t ≤ maxTTL c
    ∧ (ipv4 = true → FetchedIPv4 rec = true)
    ∧ (ipv6 = true → FetchedIPv6 rec = true).

(** The in-memory cache holds a record for [as_] that has every version
    that is asked for. *)
Definition recorded (ipv4 ipv6 : bool) (c : memory) (as_ : string) : Prop :=
  ∃ rec : ASStorage,
    stor c !! as_ = Some rec
    ∧ (ipv4 = true → FetchedIPv4 rec = true)
    ∧ (ipv6 = true → FetchedIPv6 rec = true).

(** The first loop of the cached fetcher does not take [a] for uncached:
    its test on the answer of the in-memory backend, negated. *)
Definition is_cached (ipv4 ipv6 : bool) (c : memory) (now : Z) (a : string) : bool :=
  negb (uncached_test ipv4 ipv6 (memory_Get c now a).2.1 (memory_Get c now a).2.2).

(** The entry the cached fetcher returns for a fetched entry [v]. *)
Definition returned_entry (v : gmap string (list net.IPNet)) : gmap string (list net.IPNet) :=
  <["ipv4" := at_key v "ipv4"]> (<["ipv6" := at_key v "ipv6"]> ∅).

(** ** Sample inputs *)

Definition whois : fetcher := NewFetcher "whois.radb.net" 43.

(** A world at time 0 whose next dials meet [peers]. *)
Definition quiet (peers : list Peer) : World := mkWorld 0 peers [].

(** A peer that answers an IPv4 query with one network. *)
Definition answer_v4 : string := "A1" +:+ nl +:+ "1.2.3.0/24" +:+ nl +:+ "C" +:+ nl.

(** A peer that answers an IPv6 query with one network. *)
Definition answer_v6 : string := "A1" +:+ nl +:+ "2001:db8::/32" +:+ nl +:+ "C" +:+ nl.

(** The network of [answer_v4]. *)
Definition net_v4 : net.IPNet := net.mkIPNet [1; 2; 3; 0] [255; 255; 255; 0].

(** The network of [answer_v6]. *)
Definition net_v6 : net.IPNet :=
  net.mkIPNet [32; 1; 13; 184; 0; 0; 0; 0; 0; 0; 0; 0; 0; 0; 0; 0]
              [255; 255; 255; 255; 0; 0; 0; 0; 0; 0; 0; 0; 0; 0; 0; 0].

(** A peer that knows the first AS number of a batch and not the second. *)
Definition second_unknown : Peer := Accept (answer_v4 +:+ "D" +:+ nl +:+ answer_v4) [] 5.

(** A backend whose medium is out of reach: [Get] fails with an error of
    its own and hands back the zero record next to it. *)
Definition backend_down : error := Errorf "backend down".

#[global] Instance unreachable_Storage : Storage unit :=
  {| Get := fun s _ _ => (s, (zero, Some backend_down));
     SetAS := fun s _ _ => (s, None) |}.

(** Two peers in a row, the first for an IPv4 query and the second for an
    IPv6 query. *)
Definition two_peers : World := quiet [Accept answer_v4 [] 5; Accept answer_v6 [] 5].

(** The cached fetcher over an empty in-memory cache with a TTL of 60. *)
Definition cold : cachedFetcher memory := mkCachedFetcher (mkMemory ∅ ∅ 60) whois.

(** The first call of the round trip: IPv4 only. *)
Definition first_call : cachedFetcher memory * World * outcome (option mapping * option error) :=
  cachedFetcher_Fetch cold true false ["1234"] two_peers.

(** Stand-ins for the two library functions the handler leaves open. *)
Definition sample_String (n : net.IPNet) : string := if net.is_ipv4 n then "v4" else "v6".
Definition sample_EqualFold (a b : string) : bool := String.eqb a b.

(** A request for two AS numbers with an [ipv6] parameter that is no
    boolean. *)
Definition bad_request : Request :=
  mkRequest "1234:5678" {[ "ipv6" := "yes" ]} "text/plain".

(** A request for one AS number, IPv4 only. *)
Definition v4_request : Request :=
  mkRequest "1234" {[ "ipv6" := "false" ]} "text/plain".

(** Two orders a [range] statement may take: an order of the keys, and
    that order read backwards. *)
Definition range_forward (A : Type) (n : nat) (m : gmap string A) : list (string * A) :=
  map_to_list m.
Definition range_backward (A : Type) (n : nat) (m : gmap string A) : list (string * A) :=
  reverse (map_to_list m).

(** A stand-in for [String] that tells networks by their first byte. *)
Definition first_byte_String (n : net.IPNet) : string := pretty (default 0 (head (net.IP n))).

(** A request for two AS numbers, IPv4 only, a peer that answers both
    queries, and the call of the cached fetcher the request leads to. *)
Definition two_as_request : Request :=
  mkRequest "1234:5678" {[ "ipv6" := "false" ]} "text/plain".
Definition other_v4 : net.IPNet := net.mkIPNet [5; 6; 7; 0] [255; 255; 255; 0].
Definition two_answers : World :=
  quiet [Accept (answer_v4 +:+ "A1" +:+ nl +:+ "5.6.7.0/24" +:+ nl +:+ "C" +:+ nl) [] 5].
Definition two_as_call
  : cachedFetcher memory * World * outcome (option mapping * option error) :=
  cachedFetcher_Fetch cold true false ["1234"; "5678"] two_answers.

(** A cached fetcher whose cache was filled, at time 0, by a call for both
    versions of AS 1234. *)
Definition warm : cachedFetcher memory :=
  mkCachedFetcher
    (memory_Set (mkMemory ∅ ∅ 60) 0 (mkASStorage "1234" [net_v4] [net_v6] true true)).1 whois.

(** The round trip on the warm cache: IPv4 only, then IPv6 only. *)
Definition warm_first_call
  : cachedFetcher memory * World * outcome (option mapping * option error) :=
  cachedFetcher_Fetch warm true false ["1234"] two_peers.
Definition warm_second_call
  : cachedFetcher memory * World * outcome (option mapping * option error) :=
  cachedFetcher_Fetch warm_first_call.1.1 false true ["1234"] (sleep 30 warm_first_call.1.2).

(** The round trip on the cold cache with a peer that knows no IPv6
    networks of the AS number. *)
Definition no_v6_first_call
  : cachedFetcher memory * World * outcome (option mapping * option error) :=
  cachedFetcher_Fetch cold true false ["1234"]
    (quiet [Accept answer_v4 [] 5; Accept ("D" +:+ nl) [] 5]).
Definition no_v6_second_call
  : cachedFetcher memory * World * outcome (option mapping * option error) :=
  cachedFetcher_Fetch no_v6_first_call.1.1 false true ["1234"]
    (sleep 30 no_v6_first_call.1.2).

(** A connection on which nothing has happened yet. *)
Definition idle (inp : string) : Conn := mkConn inp [] [] 0 false.

Definition sample_record : ASStorage := mkASStorage "64496" [] [] true false.
Definition sample_store : memory := (memory_Set (mkMemory ∅ ∅ 60) 100 sample_record).1.

(** * Properties *)

(** ** The models at work *)

Example ParseCIDR_v4 :
  net.ParseCIDR "1.2.3.77/24" = Some (net.mkIPNet [1; 2; 3; 0] [255; 255; 255; 0]).
Proof. reflexivity. Qed.

Example ParseCIDR_v6 :
  net.ParseCIDR "2001:db8::/32"
  = Some (net.mkIPNet [32; 1; 13; 184; 0; 0; 0; 0; 0; 0; 0; 0; 0; 0; 0; 0]
                      [255; 255; 255; 255; 0; 0; 0; 0; 0; 0; 0; 0; 0; 0; 0; 0]).
Proof. reflexivity. Qed.

Example ParseCIDR_junk : net.ParseCIDR "not-a-cidr" = None.
Proof. reflexivity. Qed.

Example ParseCIDR_empty : net.ParseCIDR "" = None.
Proof. reflexivity. Qed.

Example ParseCIDR_v4_too_long : net.ParseCIDR "10.0.0.0/33" = None.
Proof. reflexivity. Qed.

Example ParseCIDR_mapped :
  net.ParseCIDR "::ffff:1.2.3.4/120"
  = Some (net.mkIPNet [0; 0; 0; 0; 0; 0; 0; 0; 0; 0; 255; 255; 1; 2; 3; 0]
                      [255; 255; 255; 255; 255; 255; 255; 255; 255; 255; 255; 255; 255; 255; 255; 0]).
Proof. reflexivity. Qed.

Example ParseCIDR_leading_zero : net.ParseCIDR "01.2.3.4/8" = None.
Proof. reflexivity. Qed.

Example ParseCIDR_two_ellipses : net.ParseCIDR "1::2::3/64" = None.
Proof. reflexivity. Qed.

Example ParseCIDR_full_v6 :
  net.IP <$> net.ParseCIDR "1:2:3:4:5:6:7:8/128" = Some [0; 1; 0; 2; 0; 3; 0; 4; 0; 5; 0; 6; 0; 7; 0; 8].
Proof. reflexivity. Qed.

Example ParseCIDR_nine_groups : net.ParseCIDR "1:2:3:4:5:6:7:8:9/128" = None.
Proof. reflexivity. Qed.

Example ParseCIDR_any : net.IP <$> net.ParseCIDR "::/0" = Some (replicate 16 0).
Proof. reflexivity. Qed.

Example Fetch_scenario_1234 :
  snd (fetcher_Fetch whois true false ["1234"]
         (quiet [Accept ("A1" +:+ nl +:+ "1.2.3.0/24" +:+ nl +:+ "C" +:+ nl) [] 5]))
  = Return (Some {[ "1234" := <["ipv4" := [net.mkIPNet [1; 2; 3; 0] [255; 255; 255; 0]]]> fresh_entry ]},
            None).
Proof. vm_compute. reflexivity. Qed.

Example Fetch_scenario_9999 :
  snd (fetcher_Fetch whois true false ["9999"] (quiet [Accept ("D" +:+ nl) [] 5]))
  = Return (None, Some (Errorf "as 9999 not found")).
Proof. reflexivity. Qed.


(** ** Reading lines and the response loop *)

(** What [readLine] leaves untouched, and how much it reads. *)
Lemma readLine_loop_frame (c : Conn) (inp resp : string) :
  let c' := (readLine_loop c inp resp).1 in
  wscript c' = wscript c ∧ written c' = written c
  ∧ duration c' = duration c ∧ closed c' = closed c.
Proof.
  revert resp. induction inp as [|b rest IH]; intros resp; simpl.
  - done.
  - destruct (Ascii.eqb b LF); simpl; [done | apply IH].
Qed.

Lemma readLine_loop_consumes (c : Conn) (inp resp : string) :
  (readLine_loop c inp resp).2.2 = None →
  (String.length (incoming (readLine_loop c inp resp).1) < String.length inp)%nat.
Proof.
  revert resp. induction inp as [|b rest IH]; intros resp; simpl.
  - discriminate.
  - destruct (Ascii.eqb b LF); simpl.
    + lia.
    + intros Hok. specialize (IH _ Hok). lia.
Qed.

Lemma readLine_loop_eof (c : Conn) (inp resp : string) (e : error) :
  (readLine_loop c inp resp).2.2 = Some e →
  e = Wrap io_EOF "failed to read next byte from connection"
  ∧ incoming (readLine_loop c inp resp).1 = "".
Proof.
  revert resp. induction inp as [|b rest IH]; intros resp; simpl.
  - intros [= <-]. done.
  - destruct (Ascii.eqb b LF); simpl; [discriminate | apply IH].
Qed.

(** The response loop writes nothing. *)
Lemma fetch_loop_frame (fuel : nat) (as_ : string) (conn : Conn) (state : fetch_state)
    (response : list net.IPNet) :
  let c' := (fetch_loop fuel as_ conn state response).1 in
  wscript c' = wscript conn ∧ written c' = written conn
  ∧ duration c' = duration conn ∧ closed c' = closed conn.
Proof.
  revert conn state response.
  induction fuel as [|fuel IH]; intros conn state response; simpl; [done|].
  unfold readLine.
  pose proof (readLine_loop_frame conn (incoming conn) "") as Hf. simpl in Hf.
  destruct (readLine_loop conn (incoming conn) "") as [c1 [line err]]. simpl in Hf.
  destruct err as [e|]; simpl; [done|].
  destruct (String.eqb line "D"); simpl; [done|].
  destruct (String.eqb line "C"); simpl; [done|].
  destruct state.
  - destruct line as [|c0 line']; simpl; [done|].
    destruct (Ascii.eqb c0 "A"%char); simpl; [|done].
    specialize (IH c1 st_response response). simpl in IH.
    destruct IH as (-> & -> & -> & ->). done.
  - destruct (parse_nets as_ (Split_sp (line)) response) as [response' [e|]]; simpl; [done|].
    specialize (IH c1 st_response response'). simpl in IH.
    destruct IH as (-> & -> & -> & ->). done.
Qed.

(** The loop ends before its fuel does. *)
Lemma fetch_loop_fuel (fuel : nat) (as_ : string) (conn : Conn) (state : fetch_state)
    (response : list net.IPNet) :
  (String.length (incoming conn) < fuel)%nat →
  (fetch_loop fuel as_ conn state response).2 ≠ OutOfFuel.
Proof.
  revert conn state response.
  induction fuel as [|fuel IH]; intros conn state response Hlen; [lia|]. simpl.
  unfold readLine.
  pose proof (readLine_loop_consumes conn (incoming conn) "") as Hc.
  destruct (readLine_loop conn (incoming conn) "") as [c1 [line err]]. simpl in Hc.
  destruct err as [e|]; simpl; [done|].
  specialize (Hc eq_refl).
  destruct (String.eqb line "D"); simpl; [done|].
  destruct (String.eqb line "C"); simpl; [done|].
  destruct state.
  - destruct line as [|c0 line']; simpl; [done|].
    destruct (Ascii.eqb c0 "A"%char); simpl; [|done].
    apply IH. lia.
  - destruct (parse_nets as_ (Split_sp line) response) as [response' [e|]]; simpl; [done|].
    apply IH. lia.
Qed.

(** A query always ends: it returns or it panics. *)
Lemma fetch_total (conn : Conn) (as_ : string) (version : Z) :
  (fetch conn as_ version).2 ≠ OutOfFuel.
Proof.
  unfold fetch. destruct (fetch_cmd as_ version) as [cmd|]; [|done].
  destruct (conn_Write conn cmd) as [c1 [e|]] eqn:Hw; [done|].
  apply fetch_loop_fuel. lia.
Qed.

(** What a query writes: its command, once, and nothing else. *)
Lemma fetch_written (conn : Conn) (as_ : string) (version : Z) (cmd : string) :
  fetch_cmd as_ version = Some cmd →
  let c' := (fetch conn as_ version).1 in
  written c' = written conn ++ [(cmd, default true (wscript conn !! length (written conn)))]
  ∧ wscript c' = wscript conn ∧ duration c' = duration conn ∧ closed c' = closed conn.
Proof.
  intros Hcmd. unfold fetch. rewrite Hcmd. unfold conn_Write.
  destruct (default true (wscript conn !! length (written conn))) eqn:Hok; [|done].
  match goal with |- context [fetch_loop ?n ?a ?c ?s ?r] =>
    pose proof (fetch_loop_frame n a c s r) as Hf;
    destruct (fetch_loop n a c s r) as [c' r'] end.
  simpl in *. destruct Hf as (Hf1 & Hf2 & Hf3 & Hf4). by rewrite Hf1, Hf2, Hf3, Hf4.
Qed.

(** ** The empty batch *)

(** C7.  Whatever the two flags, [Fetch] on an empty sequence of AS numbers
    returns an empty mapping and a nil error, on the plain fetcher and on
    the cached one.  The world comes back as it went in: no peer was
    dialled and nothing was logged.  The cached fetcher comes back as it
    went in for every backend, so no method of the cache was called (a
    backend is free to count the calls in its state). *)
Theorem Fetch_empty_batch (ipv4 ipv6 : bool) (w : World) :
  (∀ f : fetcher, fetcher_Fetch f ipv4 ipv6 [] w = (w, Return (Some ∅, None)))
  ∧ (∀ (S : Type) (backend : storage.Storage S) (f : cachedFetcher S),
       cachedFetcher_Fetch f ipv4 ipv6 [] w = (f, w, Return (Some ∅, None))).
Proof. split; reflexivity. Qed.

(** ** The registry of backends *)


(** What the registry answers for a name. *)
Lemma storages_lookup (name : string) :
  storages !! name
  = if bool_decide (name = "" ∨ name = "default" ∨ name = "memory")
    then Some newMemory else None.
Proof.
  unfold storages. case_bool_decide as Hname.
  - destruct Hname as [-> | [-> | ->]]; by simplify_map_eq.
  - rewrite !lookup_insert_ne, lookup_empty; [done | naive_solver ..].
Qed.

(** C10.  The registry holds exactly the names [""], ["default"] and
    ["memory"], each bound to the constructor of the in-memory backend;
    with the empty name [NewStorage] succeeds and yields an empty in-memory
    backend with the TTL of the options. *)
Theorem storages_exactly :
  dom storages = {[ ""; "default"; "memory" ]}
  ∧ (∀ name : string,
       storages !! name
       = if bool_decide (name = "" ∨ name = "default" ∨ name = "memory")
         then Some newMemory else None)
  ∧ (∀ t : Z,
       NewStorage (mkStorageOptions "" t)
       = (Some (mkBackend memory memory_Storage (mkMemory ∅ ∅ t)), None)).
Proof.
  split; [|split].
  - unfold storages. rewrite !dom_insert_L, dom_empty_L. set_solver.
  - apply storages_lookup.
  - intros t. unfold NewStorage. by rewrite storages_lookup.
Qed.

(** C8.  A backend name outside the registry makes [NewStorage] fail with
    [ErrStorageNotFound] and build nothing; a name inside it makes
    [NewStorage] succeed with a backend. *)
Theorem NewStorage_by_name (opts : StorageOptions) :
  (Name opts ∉ dom storages → NewStorage opts = (None, Some ErrStorageNotFound))
  ∧ (Name opts ∈ dom storages → ∃ b : Backend, NewStorage opts = (Some b, None)).
Proof.
  unfold NewStorage. split.
  - intros Hout. apply not_elem_of_dom in Hout. by rewrite Hout.
  - intros Hin. apply elem_of_dom in Hin as [v Hv]. rewrite Hv.
    rewrite storages_lookup in Hv. case_bool_decide; [|done].
    injection Hv as <-. by eexists.
Qed.

Lemma NewStorage_by_name_witness :
  NewStorage (mkStorageOptions "redis" 60) = (None, Some ErrStorageNotFound)
  ∧ ∃ b : Backend, NewStorage (mkStorageOptions "memory" 60) = (Some b, None).
Proof.
  split.
  - apply (proj1 (NewStorage_by_name (mkStorageOptions "redis" 60))).
    apply not_elem_of_dom. vm_compute. reflexivity.
  - apply (proj2 (NewStorage_by_name (mkStorageOptions "memory" 60))).
    apply elem_of_dom. simpl. rewrite storages_lookup. by eexists.
Defined.

(** ** Expiry in the in-memory backend *)

(** Between two readings of the monotonic clock the difference is exact. *)
Lemma Since_exact (now t : Z) :
  0 ≤ t < 2 ^ 63 → 0 ≤ now < 2 ^ 63 → Since now t = now - t.
Proof.
  intros Ht Hnow. unfold Since, subMono, int64.
  assert (Hd : (now - t + 2 ^ 63) mod 2 ^ 64 - 2 ^ 63 = now - t).
  { rewrite Z.mod_small; lia. }
  rewrite Hd.
  destruct (now - t <? 0) eqn:Hneg, (t <? now) eqn:Hlt, (0 <? now - t) eqn:Hpos,
    (now <? t) eqn:Hgt; simpl; try reflexivity; lia.
Qed.

(** [Get] on a key the store does not hold. *)
Lemma memory_Get_absent (m : memory) (now : Z) (as_ : string) :
  stor m !! as_ = None → memory_Get m now as_ = (m, (zero, Some ErrASNotCached)).
Proof. intros Habs. unfold memory_Get. by rewrite Habs. Qed.

(** [Get] on a record whose age is beyond the TTL. *)
Lemma memory_Get_stale (m : memory) (now t : Z) (as_ : string) (v : ASStorage) :
  stor m !! as_ = Some v → ttl m !! as_ = Some t → maxTTL m < Since now t →
  memory_Get m now as_
  = (mkMemory (delete as_ (stor m)) (delete as_ (ttl m)) (maxTTL m),
     (zero, Some ErrASNotCached)).
Proof.
  intros Hv Ht Hold. unfold memory_Get. rewrite Hv, Ht.
  destruct (maxTTL m <? Since now t) eqn:Hcmp; [done | lia].
Qed.

(** [Get] on a record whose age is within the TTL. *)
Lemma memory_Get_fresh (m : memory) (now t : Z) (as_ : string) (v : ASStorage) :
  stor m !! as_ = Some v → ttl m !! as_ = Some t → Since now t ≤ maxTTL m →
  memory_Get m now as_ = (m, (v, None)).
Proof.
  intros Hv Ht Hyoung. unfold memory_Get. rewrite Hv, Ht.
  destruct (maxTTL m <? Since now t) eqn:Hcmp; [lia | done].
Qed.

(** C6.  Whatever the TTL and the key: a record put into the in-memory
    store at time [T] and looked up at a time later than [T] plus the TTL
    is reported as [ErrASNotCached], with the same answer as for a key that
    was never stored; the lookup takes the record and its timestamp out of
    the store; and a second lookup at the same instant gives
    [ErrASNotCached] again and leaves the store as it is.  Times are
    readings of the monotonic clock. *)
Theorem memory_Get_expired (m : memory) (rec : ASStorage) (T now : Z) :
  0 ≤ T < 2 ^ 63 → 0 ≤ now < 2 ^ 63 →
  T + maxTTL m < now →
  let m1 := (memory_Set m T rec).1 in
  let m2 := (memory_Get m1 now (AS rec)).1 in
  (memory_Get m1 now (AS rec)).2 = (zero, Some ErrASNotCached)
  ∧ stor m2 !! AS rec = None ∧ ttl m2 !! AS rec = None
  ∧ memory_Get m2 now (AS rec) = (m2, (zero, Some ErrASNotCached)).
Proof.
  intros HT Hnow Hlate m1 m2.
  assert (Hget : memory_Get m1 now (AS rec)
                 = (mkMemory (delete (AS rec) (stor m1)) (delete (AS rec) (ttl m1)) (maxTTL m1),
                    (zero, Some ErrASNotCached))).
  { apply memory_Get_stale with (t := T) (v := rec).
    - subst m1. simpl. apply lookup_insert_eq.
    - subst m1. simpl. apply lookup_insert_eq.
    - rewrite Since_exact by done. subst m1. simpl. lia. }
  subst m2. rewrite Hget. simpl.
  split; [done|]. split; [apply lookup_delete_eq|]. split; [apply lookup_delete_eq|].
  apply memory_Get_absent. simpl. apply lookup_delete_eq.
Qed.

Lemma memory_Get_expired_witness :
  (memory_Get sample_store 161 "64496").2 = (zero, Some ErrASNotCached)
  ∧ stor (memory_Get sample_store 161 "64496").1 !! "64496" = None
  ∧ ttl (memory_Get sample_store 161 "64496").1 !! "64496" = None
  ∧ memory_Get (memory_Get sample_store 161 "64496").1 161 "64496"
    = ((memory_Get sample_store 161 "64496").1, (zero, Some ErrASNotCached)).
Proof.
  apply (memory_Get_expired (mkMemory ∅ ∅ 60) sample_record 100 161); simpl; lia.
Defined.

(** A record is still served at the very end of its TTL. *)
Example memory_Get_at_ttl :
  (memory_Get sample_store 160 "64496").2 = (sample_record, None).
Proof. vm_compute. reflexivity. Qed.

(** ** What goes over the wire *)

Lemma fetch_into_written (want : bool) (version : Z) (key v cmd : string) (conn : Conn)
    (result : mapping) :
  fetch_cmd v version = Some cmd →
  (written (fetch_into want version key v conn result).1).*1
  = (written conn).*1 ++ (if want then [cmd] else []).
Proof.
  intros Hcmd. unfold fetch_into. destruct want; simpl.
  - pose proof (fetch_written conn v version cmd Hcmd) as Hw. simpl in Hw.
    destruct (fetch conn v version) as [c' r]. simpl in Hw.
    destruct Hw as (Hw & _).
    assert ((written c').*1 = (written conn).*1 ++ [cmd]) as <-.
    { rewrite Hw, fmap_app. done. }
    by destruct r as [[nets [e|]]|e|].
  - by rewrite app_nil_r.
Qed.

(** The queries a batch has put on the wire at any point are an initial
    part of its [commands], and all of them when the loop ends well. *)
Lemma fetch_range_written (ipv4 ipv6 : bool) (asn : list string) (conn : Conn)
    (result : mapping) :
  ∃ q : list string,
    (written (fetch_range ipv4 ipv6 asn conn result).1).*1 = (written conn).*1 ++ q
    ∧ q `prefix_of` commands ipv4 ipv6 asn
    ∧ (∀ m, (fetch_range ipv4 ipv6 asn conn result).2 = Return (Some m, None) →
            q = commands ipv4 ipv6 asn).
Proof.
  revert conn result. induction asn as [|v asn IH]; intros conn result.
  - exists []. simpl. rewrite app_nil_r. done.
  - simpl.
    set (r0 := <[v := fresh_entry]> result).
    pose proof (fetch_into_written ipv4 4 "ipv4" v _ conn r0 eq_refl) as H4.
    destruct (fetch_into ipv4 4 "ipv4" v conn r0) as [c1 o1]. simpl in H4.
    set (q4 := if ipv4 then ["!gAS" +:+ v +:+ nl] else []) in *.
    set (q6 := if ipv6 then ["!6AS" +:+ v +:+ nl] else []).
    assert (Hq4 : q4 `prefix_of` (q4 ++ q6) ++ commands ipv4 ipv6 asn).
    { rewrite <- app_assoc. by apply prefix_app_r. }
    destruct o1 as [[r1 [e|]]|e|]; simpl;
      try (exists q4; split; [done | split; [done | intros ?; discriminate]]).
    pose proof (fetch_into_written ipv6 6 "ipv6" v _ c1 r1 eq_refl) as H6.
    destruct (fetch_into ipv6 6 "ipv6" v c1 r1) as [c2 o2]. simpl in H6.
    fold q6 in H6.
    assert (Hq46 : (q4 ++ q6) `prefix_of` (q4 ++ q6) ++ commands ipv4 ipv6 asn).
    { by apply prefix_app_r. }
    assert (Hw2 : (written c2).*1 = (written conn).*1 ++ (q4 ++ q6)).
    { rewrite H6, H4. by rewrite app_assoc. }
    destruct o2 as [[r2 [e|]]|e|]; simpl;
      try (exists (q4 ++ q6); split; [done | split; [done | intros ?; discriminate]]).
    destruct (IH c2 r2) as (q & Hw & Hpre & Hall).
    exists ((q4 ++ q6) ++ q). split; [|split].
    + rewrite Hw, Hw2. by rewrite <- !app_assoc.
    + change (commands ipv4 ipv6 (v :: asn)) with ((q4 ++ q6) ++ commands ipv4 ipv6 asn).
      by apply prefix_app.
    + intros m Hm. by rewrite (Hall m Hm).
Qed.

(** No query is the enable sequence. *)
Lemma commands_not_enable (ipv4 ipv6 : bool) (asn : list string) :
  ("!!" +:+ nl) ∉ commands ipv4 ipv6 asn.
Proof.
  unfold commands. intros Hin. apply list_elem_of_bind in Hin as (v & Hin & _).
  destruct ipv4, ipv6; simpl in Hin;
    repeat (apply elem_of_cons in Hin as [Hin|Hin]; [discriminate|]);
    by apply elem_of_nil in Hin.
Qed.

(** The deferred call logs the session, with the exit command as its last
    write, and charges its duration to the clock. *)
Lemma deferred_spec (addr : string) (conn : Conn) (w : World) :
  ∃ c : Conn,
    deferred addr conn w = mkWorld (now w + duration conn) (network w)
                             (history w ++ [Session addr c])
    ∧ (written c).*1 = (written conn).*1 ++ ["exit" +:+ nl]
    ∧ closed c = true.
Proof.
  unfold deferred, conn_Write, hang_up, conn_Close. simpl.
  eexists. split; [reflexivity|]. simpl. by rewrite fmap_app.
Qed.

(** C9.  The command of an IPv4 query for [as_] is ["!gAS"], [as_] and a
    newline, that of an IPv6 query ["!6AS"], [as_] and a newline, and a
    query writes nothing else.  A session of [Fetch] writes ["!!"] and a
    newline first, then queries of the batch in their order, which never
    are the enable sequence again, then the exit command.  For a version
    other than 4 and 6 the query returns an error and leaves the connection
    as it was. *)
Theorem wire_commands (f : fetcher) (ipv4 ipv6 : bool) (asn : list string) (w : World)
    (inp : string) (ws : list bool) (d : Z) (peers : list Peer)
    (conn : Conn) (as_ : string) (version : Z) :
  asn ≠ [] → network w = Accept inp ws d :: peers → version ≠ 4 → version ≠ 6 →
  (written (fetch conn as_ 4).1).*1 = (written conn).*1 ++ ["!gAS" +:+ as_ +:+ nl]
  ∧ (written (fetch conn as_ 6).1).*1 = (written conn).*1 ++ ["!6AS" +:+ as_ +:+ nl]
  ∧ (∃ (c : Conn) (q : list string),
       history (fetcher_Fetch f ipv4 ipv6 asn w).1 = history w ++ [Session (address f) c]
       ∧ (written c).*1 = ("!!" +:+ nl) :: q ++ ["exit" +:+ nl]
       ∧ q `prefix_of` commands ipv4 ipv6 asn
       ∧ ("!!" +:+ nl) ∉ q)
  ∧ fetch conn as_ version
    = (conn, Return ([], Some (Errorf ("unknown ip protocol version " +:+ pretty version)))).
Proof.
  intros Hne Hnet Hv4 Hv6. split; [|split; [|split]].
  - pose proof (fetch_written conn as_ 4 _ eq_refl) as (Hw & _).
    rewrite Hw, fmap_app. done.
  - pose proof (fetch_written conn as_ 6 _ eq_refl) as (Hw & _).
    rewrite Hw, fmap_app. done.
  - unfold fetcher_Fetch. destruct asn as [|v asn]; [done|].
    change (length (v :: asn) =? 0)%nat with false. cbv iota.
    unfold Dial. rewrite Hnet. unfold session.
    set (c0 := mkConn inp ws [] d false).
    destruct (conn_Write c0 ("!!" +:+ nl)) as [c1 werr] eqn:Hw1.
    assert (Hc1 : (written c1).*1 = ["!!" +:+ nl]).
    { unfold conn_Write in Hw1. injection Hw1 as <- _. done. }
    destruct werr as [e|].
    + destruct (deferred_spec (address f) c1 (mkWorld (now w) peers (history w)))
        as (c & -> & Hc & _).
      exists c, []. simpl. rewrite Hc, Hc1.
      split; [done|]. split; [done|]. split; [apply prefix_nil | apply not_elem_of_nil].
    + destruct (fetch_range_written ipv4 ipv6 (v :: asn) c1 ∅) as (q & Hq & Hpre & _).
      destruct (fetch_range ipv4 ipv6 (v :: asn) c1 ∅) as [c2 r]. simpl fst in Hq.
      destruct (deferred_spec (address f) c2 (mkWorld (now w) peers (history w)))
        as (c & -> & Hc & _).
      exists c, q. simpl. rewrite Hc, Hq, Hc1.
      split; [done|]. split; [done|]. split; [done|].
      intros Hin. destruct Hpre as [k Hk].
      apply (commands_not_enable ipv4 ipv6 (v :: asn)). rewrite Hk.
      apply elem_of_app. by left.
  - unfold fetch, fetch_cmd.
    destruct (version =? 4) eqn:H4; [lia|]. destruct (version =? 6) eqn:H6; [lia|]. done.
Qed.

Lemma wire_commands_witness :
  (written (fetch (idle answer_v4) "1234" 4).1).*1 = [] ++ ["!gAS" +:+ "1234" +:+ nl]
  ∧ (written (fetch (idle answer_v4) "1234" 6).1).*1 = [] ++ ["!6AS" +:+ "1234" +:+ nl]
  ∧ (∃ (c : Conn) (q : list string),
       history (fetcher_Fetch whois true true ["1234"]
                  (quiet [Accept (answer_v4 +:+ answer_v6) [] 5])).1
       = [] ++ [Session (address whois) c]
       ∧ (written c).*1 = ("!!" +:+ nl) :: q ++ ["exit" +:+ nl]
       ∧ q `prefix_of` commands true true ["1234"]
       ∧ ("!!" +:+ nl) ∉ q)
  ∧ fetch (idle answer_v4) "1234" 5
    = (idle answer_v4, Return ([], Some (Errorf ("unknown ip protocol version " +:+ pretty 5)))).
Proof.
  apply (wire_commands whois true true ["1234"]
           (quiet [Accept (answer_v4 +:+ answer_v6) [] 5])
           (answer_v4 +:+ answer_v6) [] 5 [] (idle answer_v4) "1234" 5).
  - discriminate.
  - reflexivity.
  - lia.
  - lia.
Defined.

Example wire_log_1234 :
  history (fetcher_Fetch whois true true ["1234"]
             (quiet [Accept (answer_v4 +:+ answer_v6) [] 5])).1
  = [Session "whois.radb.net:43"
       (mkConn "" [] [("!!" +:+ nl, true); ("!gAS1234" +:+ nl, true);
                      ("!6AS1234" +:+ nl, true); ("exit" +:+ nl, true)] 5 true)].
Proof. vm_compute. reflexivity. Qed.

(** ** A failing query ends the batch *)

(** The loop over a batch, split at any point. *)
Lemma fetch_range_app (ipv4 ipv6 : bool) (pre rest : list string) (conn : Conn)
    (result : mapping) :
  fetch_range ipv4 ipv6 (pre ++ rest) conn result
  = match fetch_range ipv4 ipv6 pre conn result with
    | (c1, Return (Some r1, None)) => fetch_range ipv4 ipv6 rest c1 r1
    | other => other
    end.
Proof.
  revert conn result. induction pre as [|v pre IH]; intros conn result; [done|].
  simpl.
  destruct (fetch_into ipv4 4 "ipv4" v conn _) as [c1 [[r1 [e|]]|e|]]; try done.
  destruct (fetch_into ipv6 6 "ipv6" v c1 r1) as [c2 [[r2 [e|]]|e|]]; try done.
Qed.

(** The loop never hands back a mapping next to an error. *)
Lemma fetch_range_error_nil (ipv4 ipv6 : bool) (asn : list string) (conn : Conn)
    (result : mapping) (m : option mapping) (e : error) :
  (fetch_range ipv4 ipv6 asn conn result).2 = Return (m, Some e) → m = None.
Proof.
  revert conn result. induction asn as [|v asn IH]; intros conn result; simpl; [done|].
  destruct (fetch_into ipv4 4 "ipv4" v conn _) as [c1 [[r1 [e1|]]|e1|]]; simpl;
    try congruence.
  destruct (fetch_into ipv6 6 "ipv6" v c1 r1) as [c2 [[r2 [e2|]]|e2|]]; simpl;
    try congruence.
  apply IH.
Qed.

(** One round of the loop on an AS number with a failing query. *)
Lemma fetch_range_failing (ipv4 ipv6 : bool) (v : string) (post : list string) (conn : Conn)
    (result : mapping) (err : error) :
  failing_query ipv4 ipv6 v conn = Some err →
  (fetch_range ipv4 ipv6 (v :: post) conn result).2 = Return (None, Some err).
Proof.
  unfold failing_query. intros Hfail. simpl. unfold fetch_into.
  destruct ipv4.
  - destruct (fetch conn v 4) as [c1 [[nets [e|]]|e|]]; simpl in *; try congruence.
    destruct ipv6; [|done].
    destruct (fetch c1 v 6) as [c2 [[nets' [e|]]|e|]]; simpl in *; congruence.
  - destruct ipv6; [|done].
    destruct (fetch conn v 6) as [c2 [[nets' [e|]]|e|]]; simpl in *; congruence.
Qed.

(** C2.  Let a batch be [pre], then [v], then [post].  If the session runs
    through [pre] without a failure, having gathered the results [r1], and
    a query for [v] then fails with [err] (the not-found marker or a
    protocol error), [Fetch] on the whole batch returns [err] and a nil
    mapping: nothing of [r1] reaches the caller.  More generally, no
    error of [Fetch] ever comes with a mapping. *)
Theorem Fetch_batch_atomic (f : fetcher) (ipv4 ipv6 : bool) (pre post : list string)
    (v : string) (w : World) (inp : string) (ws : list bool) (d : Z) (peers : list Peer)
    (r1 : mapping) (err : error) :
  network w = Accept inp ws d :: peers →
  (session ipv4 ipv6 pre (mkConn inp ws [] d false) ∅).2 = Return (Some r1, None) →
  failing_query ipv4 ipv6 v (session ipv4 ipv6 pre (mkConn inp ws [] d false) ∅).1 = Some err →
  (fetcher_Fetch f ipv4 ipv6 (pre ++ v :: post) w).2 = Return (None, Some err)
  ∧ (∀ (asn : list string) (w' : World) (m : option mapping) (e : error),
       (fetcher_Fetch f ipv4 ipv6 asn w').2 = Return (m, Some e) → m = None).
Proof.
  intros Hnet Hpre Hfail. split.
  - unfold fetcher_Fetch.
    destruct (pre ++ v :: post) as [|x xs] eqn:Hbatch; [by destruct pre|].
    change (length (x :: xs) =? 0)%nat with false. cbv iota. rewrite <- Hbatch.
    unfold Dial. rewrite Hnet.
    unfold session in *.
    destruct (conn_Write (mkConn inp ws [] d false) ("!!" +:+ nl)) as [c0 [e|]];
      [simpl in Hpre; congruence|].
    rewrite fetch_range_app.
    destruct (fetch_range ipv4 ipv6 pre c0 ∅) as [c1 o1]. simpl in Hpre, Hfail. subst o1.
    pose proof (fetch_range_failing ipv4 ipv6 v post c1 r1 err Hfail) as Hv.
    destruct (fetch_range ipv4 ipv6 (v :: post) c1 r1) as [c2 o2]. simpl in Hv. by subst o2.
  - intros asn w' m e. unfold fetcher_Fetch.
    destruct (length asn =? 0)%nat; [simpl; congruence|].
    destruct (Dial (address f) w') as [w1 [conn|e1]]; [|simpl; congruence].
    unfold session.
    destruct (conn_Write conn ("!!" +:+ nl)) as [c0 [e0|]]; [simpl; congruence|].
    pose proof (fetch_range_error_nil ipv4 ipv6 asn c0 ∅ m e) as Hnil.
    destruct (fetch_range ipv4 ipv6 asn c0 ∅) as [c1 o1]. simpl in *. done.
Qed.

Lemma Fetch_batch_atomic_witness :
  (fetcher_Fetch whois true false (["1234"] ++ "9999" :: ["5678"]) (quiet [second_unknown])).2
  = Return (None, Some (Errorf "as 9999 not found"))
  ∧ (∀ (asn : list string) (w' : World) (m : option mapping) (e : error),
       (fetcher_Fetch whois true false asn w').2 = Return (m, Some e) → m = None).
Proof.
  apply (Fetch_batch_atomic whois true false ["1234"] ["5678"] "9999" (quiet [second_unknown])
           (answer_v4 +:+ "D" +:+ nl +:+ answer_v4) [] 5 []
           {[ "1234" := <["ipv4" := [net_v4]]> fresh_entry ]}
           (Errorf "as 9999 not found")).
  - reflexivity.
  - vm_compute. reflexivity.
  - vm_compute. reflexivity.
Defined.

(** ** Data lines *)

(** The loop over the tokens of a line stops at the first token that is no
    CIDR prefix and otherwise appends every network in order. *)
Lemma parse_nets_spec (as_ : string) (tokens : list string) (response : list net.IPNet) :
  parse_nets as_ tokens response
  = match first_bad tokens with
    | Some tok => ([], Some (Errorf ("failed to parse network " +:+ tok +:+ " for as " +:+ as_)))
    | None => (response ++ omap net.ParseCIDR tokens, None)
    end.
Proof.
  revert response. unfold first_bad.
  induction tokens as [|t tokens IH]; intros response; simpl.
  - by rewrite app_nil_r.
  - destruct (net.ParseCIDR t) as [n|] eqn:Ht; simpl.
    + rewrite IH. destruct (find _ tokens); [done|]. by rewrite <- app_assoc.
    + done.
Qed.

(** One round of the response loop on a line that is no marker, in the
    state that collects networks. *)
Lemma data_line_tokens_step (fuel : nat) (as_ : string) (conn c' : Conn) (line : string)
    (response : list net.IPNet) :
  readLine conn = (c', (line, None)) → line ≠ "D" → line ≠ "C" →
  fetch_loop (S fuel) as_ conn st_response response
  = match first_bad (Split_sp line) with
    | Some tok =>
        (c', Return ([], Some (Errorf ("failed to parse network " +:+ tok +:+ " for as " +:+ as_))))
    | None =>
        fetch_loop fuel as_ c' st_response (response ++ omap net.ParseCIDR (Split_sp line))
    end.
Proof.
  intros Hread HD HC. simpl. rewrite Hread.
  apply String.eqb_neq in HD, HC. rewrite HD, HC.
  rewrite parse_nets_spec. by destruct (first_bad (Split_sp line)).
Qed.

(** C3, as the code has it.  In the state that collects networks a line
    that is no marker is split on single spaces; the first token that
    [net.ParseCIDR] rejects ends the query with an error made of that token
    and the AS number; when every token parses, the networks join the
    response in their order and the loop reads on.  The family the query
    asked for plays no part: the loop is not even told about it, and
    [net.ParseCIDR] takes IPv4 and IPv6 prefixes alike. *)
Theorem data_line_tokens (fuel : nat) (as_ : string) (conn c' : Conn) (line : string)
    (response : list net.IPNet) :
  readLine conn = (c', (line, None)) → line ≠ "D" → line ≠ "C" →
  fetch_loop (S fuel) as_ conn st_response response
  = match first_bad (Split_sp line) with
    | Some tok =>
        (c', Return ([], Some (Errorf ("failed to parse network " +:+ tok +:+ " for as " +:+ as_))))
    | None =>
        fetch_loop fuel as_ c' st_response (response ++ omap net.ParseCIDR (Split_sp line))
    end.
Proof.
  intros Hread HD HC. simpl. rewrite Hread.
  apply String.eqb_neq in HD, HC. rewrite HD, HC.
  rewrite parse_nets_spec. by destruct (first_bad (Split_sp line)).
Qed.

Lemma data_line_tokens_witness :
  fetch_loop 1 "1234" (idle ("1.2.3.0/24 not-a-cidr" +:+ nl)) st_response []
  = match first_bad (Split_sp "1.2.3.0/24 not-a-cidr") with
    | Some tok =>
        (idle "", Return ([], Some (Errorf ("failed to parse network " +:+ tok +:+ " for as " +:+ "1234"))))
    | None =>
        fetch_loop 0 "1234" (idle "") st_response
          ([] ++ omap net.ParseCIDR (Split_sp "1.2.3.0/24 not-a-cidr"))
    end.
Proof.
  apply (data_line_tokens 0 "1234" (idle ("1.2.3.0/24 not-a-cidr" +:+ nl)) (idle "")
           "1.2.3.0/24 not-a-cidr" []).
  - reflexivity.
  - discriminate.
  - discriminate.
Defined.

(** The scenario of the specification: the error names the token and the
    AS number. *)
Example Fetch_scenario_not_a_cidr :
  (fetcher_Fetch whois true false ["1234"]
     (quiet [Accept ("A1" +:+ nl +:+ "1.2.3.0/24 not-a-cidr" +:+ nl +:+ "C" +:+ nl) [] 5])).2
  = Return (None, Some (Errorf "failed to parse network not-a-cidr for as 1234")).
Proof. vm_compute. reflexivity. Qed.

(** Two spaces in a row make an empty token, which is no prefix. *)
Example Fetch_double_space :
  (fetch (idle ("A1" +:+ nl +:+ "1.2.3.0/24  1.2.4.0/24" +:+ nl +:+ "C" +:+ nl)) "1234" 4).2
  = Return ([], Some (Errorf "failed to parse network  for as 1234")).
Proof. vm_compute. reflexivity. Qed.

(** C3, as the specification has it, fails: an IPv4 query whose data line
    holds an IPv6 prefix, which is no prefix of the family asked for, does
    not fail; it returns that IPv6 network. *)
Lemma family_not_enforced :
  prefix_of_family 4 "2001:db8::/32" = false
  ∧ (fetch (idle answer_v6) "1234" 4).2 = Return ([net_v6], None).
Proof. split; vm_compute; reflexivity. Qed.

(** ** A stream that ends early *)

(** When a line cannot be read the response loop panics with the error of
    [readLine]. *)
Lemma fetch_loop_read_failure (fuel : nat) (as_ : string) (conn : Conn) (state : fetch_state)
    (response : list net.IPNet) (e : error) :
  (readLine conn).2.2 = Some e →
  fetch_loop (S fuel) as_ conn state response = ((readLine conn).1, Panicked e).
Proof.
  intros Hread. simpl. destruct (readLine conn) as [c' [line err]]. simpl in *. by subst err.
Qed.

Lemma fetch_loop_read_failure_witness :
  fetch_loop 1 "1234" (idle "1.2.3.0/24") st_response []
  = ((readLine (idle "1.2.3.0/24")).1,
     Panicked (Wrap io_EOF "failed to read next byte from connection")).
Proof.
  apply (fetch_loop_read_failure 0 "1234" (idle "1.2.3.0/24") st_response []).
  reflexivity.
Defined.

(** C5, on the code: the peer accepts the query, sends the header and a
    data line and closes the connection.  [Fetch] does not return an
    error; it panics with the read error (the deferred call still runs:
    the exit command is written and the connection closed). *)
Theorem Fetch_read_failure_panics :
  fetcher_Fetch whois true false ["1234"]
    (quiet [Accept ("A1" +:+ nl +:+ "1.2.3.0/24" +:+ nl) [] 5])
  = (mkWorld 5 []
       [Session "whois.radb.net:43"
          (mkConn "" [] [("!!" +:+ nl, true); ("!gAS1234" +:+ nl, true); ("exit" +:+ nl, true)]
             5 true)],
     Panicked (Wrap io_EOF "failed to read next byte from connection")).
Proof. vm_compute. reflexivity. Qed.

(** ** What the cached fetcher takes for uncached *)

(** The in-memory backend fails with [ErrASNotCached] and with nothing
    else, and a failure comes with the zero record. *)
Lemma memory_Get_error (m : memory) (now : Z) (as_ : string) (e : error) :
  (memory_Get m now as_).2.2 = Some e →
  e = ErrASNotCached ∧ (memory_Get m now as_).2.1 = zero.
Proof.
  unfold memory_Get. destruct (stor m !! as_) as [v|]; simpl; [|by intros [= <-]].
  destruct (ttl m !! as_) as [t|]; simpl; [|by intros [= <-]].
  destruct (maxTTL m <? Since now t); simpl; [by intros [= <-] | discriminate].
Qed.

Lemma memory_Get_maxTTL (m : memory) (now : Z) (as_ : string) :
  maxTTL (memory_Get m now as_).1 = maxTTL m.
Proof.
  unfold memory_Get. destruct (stor m !! as_) as [v|]; simpl; [|done].
  destruct (ttl m !! as_) as [t|]; simpl; [|done].
  by destruct (maxTTL m <? Since now t).
Qed.

(** X14.  With the in-memory backend the test of the first loop is the
    one of the specification: not cached, or cached without a version that
    is asked for. *)
Lemma memory_uncached_exact (m : memory) (now : Z) (as_ : string) (ipv4 ipv6 : bool) :
  let r := (memory_Get m now as_).2.1 in
  let err := (memory_Get m now as_).2.2 in
  uncached_test ipv4 ipv6 r err = true
  ↔ err = Some ErrASNotCached
    ∨ (err = None ∧ (ipv4 = true ∧ FetchedIPv4 r = false ∨ ipv6 = true ∧ FetchedIPv6 r = false)).
Proof.
  intros r err. subst r err. unfold uncached_test.
  destruct (memory_Get m now as_) as [m' [r [e|]]] eqn:Hget; cbn [fst snd].
  - pose proof (memory_Get_error m now as_ e) as He. rewrite Hget in He.
    destruct (He eq_refl) as [-> _].
    rewrite bool_decide_eq_true_2 by done. split; [by left | done].
  - rewrite bool_decide_eq_false_2 by done.
    destruct ipv4, ipv6, (FetchedIPv4 r), (FetchedIPv6 r); simpl; intuition congruence.
Qed.

(** C4, on the code.  The cache fails with an error that is not
    [ErrASNotCached] and hands back the zero record; IPv4 is asked for.
    The call does not stop with that error: the AS number is taken for
    uncached, a peer is dialled and queried, and the call returns the
    networks with a nil error. *)
Theorem Get_failure_taken_for_miss :
  cachedFetcher_Fetch (mkCachedFetcher tt whois) true false ["1234"]
    (quiet [Accept answer_v4 [] 5])
  = (mkCachedFetcher tt whois,
     mkWorld 5 []
       [Session "whois.radb.net:43"
          (mkConn "" [] [("!!" +:+ nl, true); ("!gAS1234" +:+ nl, true); ("exit" +:+ nl, true)]
             5 true)],
     Return (Some {[ "1234" := <["ipv4" := [net_v4]]> (<["ipv6" := []]> ∅) ]}, None)).
Proof. vm_compute. reflexivity. Qed.

(** The guard that follows the test does stop the call, with the error
    wrapped, once no flag makes the test succeed. *)
Example Get_failure_stops_without_flags :
  cachedFetcher_Fetch (mkCachedFetcher tt whois) false false ["1234"]
    (quiet [Accept answer_v4 [] 5])
  = (mkCachedFetcher tt whois, quiet [Accept answer_v4 [] 5],
     Return (None, Some (Wrap backend_down "failed to fetch asn 1234 from cache"))).
Proof. vm_compute. reflexivity. Qed.

(** ** One AS number, asked for IPv4 and then for IPv6 *)

(** A non-empty batch costs exactly one dial. *)
Lemma fetcher_Fetch_dials (f : fetcher) (ipv4 ipv6 : bool) (asn : list string) (w : World) :
  asn ≠ [] →
  ∃ rec : DialRecord, history (fetcher_Fetch f ipv4 ipv6 asn w).1 = history w ++ [rec].
Proof.
  intros Hne. unfold fetcher_Fetch. destruct asn as [|v asn]; [done|].
  change (length (v :: asn) =? 0)%nat with false. cbv iota.
  unfold Dial. destruct (network w) as [|[e|inp ws d] peers]; simpl; [by eexists ..|].
  destruct (session ipv4 ipv6 (v :: asn) (mkConn inp ws [] d false) ∅) as [c r].
  destruct (deferred_spec (address f) c (mkWorld (now w) peers (history w))) as (c' & -> & _).
  by eexists.
Qed.

(** The mapping of a batch of one has one key. *)
Lemma fetch_range_single (ipv4 ipv6 : bool) (X : string) (conn : Conn)
    (r : option mapping) :
  (fetch_range ipv4 ipv6 [X] conn ∅).2 = Return (r, None) →
  ∃ e : gmap string (list net.IPNet), r = Some {[ X := e ]}.
Proof.
  simpl. rewrite insert_empty. unfold fetch_into.
  destruct ipv4.
  - destruct (fetch conn X 4) as [c1 [[n4 [e4|]]|e4|]]; simpl; try discriminate.
    rewrite alter_singleton_eq.
    destruct ipv6.
    + destruct (fetch c1 X 6) as [c2 [[n6 [e6|]]|e6|]]; simpl; try discriminate.
      rewrite alter_singleton_eq. intros [= <-]. by eexists.
    + simpl. intros [= <-]. by eexists.
  - destruct ipv6.
    + destruct (fetch conn X 6) as [c2 [[n6 [e6|]]|e6|]]; simpl; try discriminate.
      rewrite alter_singleton_eq. intros [= <-]. by eexists.
    + simpl. intros [= <-]. by eexists.
Qed.

Lemma fetcher_Fetch_single (f : fetcher) (ipv4 ipv6 : bool) (X : string) (w : World)
    (r : option mapping) :
  (fetcher_Fetch f ipv4 ipv6 [X] w).2 = Return (r, None) →
  ∃ e : gmap string (list net.IPNet), r = Some {[ X := e ]}.
Proof.
  unfold fetcher_Fetch. change (length [X] =? 0)%nat with false. cbv iota.
  destruct (Dial (address f) w) as [w1 [conn|e1]]; [|simpl; discriminate].
  unfold session. destruct (conn_Write conn ("!!" +:+ nl)) as [c0 [e0|]]; [simpl; discriminate|].
  pose proof (fetch_range_single ipv4 ipv6 X c0 r) as Hs.
  destruct (fetch_range ipv4 ipv6 [X] c0 ∅) as [c1 o]. simpl in *. done.
Qed.

(** The cached fetcher over the in-memory backend, asked for one AS number
    that the first loop takes for uncached: the world is the one the plain
    fetcher leaves, and when the plain fetcher returns a mapping, its
    entry is written to the cache at the time the fetch ended. *)
Lemma cached_miss_single (c : memory) (f : fetcher) (ipv4 ipv6 : bool) (X : string)
    (w : World) :
  uncached_test ipv4 ipv6 (memory_Get c (now w) X).2.1 (memory_Get c (now w) X).2.2 = true →
  (cachedFetcher_Fetch (mkCachedFetcher c f) ipv4 ipv6 [X] w).1.2
  = (fetcher_Fetch f ipv4 ipv6 [X] w).1
  ∧ embedded (cachedFetcher_Fetch (mkCachedFetcher c f) ipv4 ipv6 [X] w).1.1 = f
  ∧ (∀ m : mapping,
       (fetcher_Fetch f ipv4 ipv6 [X] w).2 = Return (Some m, None) →
       ∃ e : gmap string (list net.IPNet),
         m = {[ X := e ]}
         ∧ cache (cachedFetcher_Fetch (mkCachedFetcher c f) ipv4 ipv6 [X] w).1.1
           = (memory_Set (memory_Get c (now w) X).1 (now (fetcher_Fetch f ipv4 ipv6 [X] w).1)
                (record_of ipv4 ipv6 X e)).1)
  ∧ (∀ m : mapping,
       (cachedFetcher_Fetch (mkCachedFetcher c f) ipv4 ipv6 [X] w).2 = Return (Some m, None) →
       ∃ m' : mapping, (fetcher_Fetch f ipv4 ipv6 [X] w).2 = Return (Some m', None)).
Proof.
  intros Htest. unfold cachedFetcher_Fetch.
  change (length [X] =? 0)%nat with false. cbv iota.
  cbn [lookup_range cache embedded Get memory_Storage].
  destruct (memory_Get c (now w) X) as [c' [r err]]. cbn [fst snd] in *.
  rewrite Htest. cbn [lookup_range app length Nat.eqb cache embedded].
  pose proof (fetcher_Fetch_single f ipv4 ipv6 X w) as Hsingle.
  destruct (fetcher_Fetch f ipv4 ipv6 [X] w) as [w' [[r' [e'|]]|e'|]]; cbn [fst snd] in *.
  - repeat split; [intros m [=] | intros m [=]].
  - destruct (Hsingle r' eq_refl) as [e ->]. cbn [default from_option id].
    rewrite map_to_list_singleton.
    cbn [store_range SetAS memory_Storage memory_Set fst snd cache embedded].
    repeat split.
    + intros m [= <-]. exists e. done.
    + intros m _. by eexists.
  - repeat split; [intros m [=] | intros m [=]].
  - repeat split; [intros m [=] | intros m [=]].
Qed.

(** A lookup that succeeds leaves the store alone and returns what the
    store holds. *)
Lemma memory_Get_live (m : memory) (now : Z) (as_ : string) :
  (memory_Get m now as_).2.2 = None →
  ∃ v : ASStorage, stor m !! as_ = Some v ∧ memory_Get m now as_ = (m, (v, None)).
Proof.
  unfold memory_Get. destruct (stor m !! as_) as [v|]; simpl; [|discriminate].
  destruct (ttl m !! as_) as [t|]; simpl; [|discriminate].
  destruct (maxTTL m <? Since now t); simpl; [discriminate|]. by exists v.
Qed.

(** The cached fetcher over the in-memory backend, asked for one AS number
    that the first loop does not take for uncached: no network, and the
    cache is left as the lookup left it. *)
Lemma cached_hit_single (c : memory) (f : fetcher) (ipv4 ipv6 : bool) (X : string)
    (w : World) :
  uncached_test ipv4 ipv6 (memory_Get c (now w) X).2.1 (memory_Get c (now w) X).2.2 = false →
  (cachedFetcher_Fetch (mkCachedFetcher c f) ipv4 ipv6 [X] w).1
  = (mkCachedFetcher (memory_Get c (now w) X).1 f, w)
  ∧ (∀ m : mapping,
       (cachedFetcher_Fetch (mkCachedFetcher c f) ipv4 ipv6 [X] w).2 = Return (Some m, None) →
       (memory_Get c (now w) X).2.2 = None).
Proof.
  intros Htest. unfold cachedFetcher_Fetch.
  change (length [X] =? 0)%nat with false. cbv iota.
  cbn [lookup_range cache embedded Get memory_Storage].
  destruct (memory_Get c (now w) X) as [c' [r err]]. cbn [fst snd] in *.
  rewrite Htest. destruct err as [e|]; cbn; [|done].
  split; [done | discriminate].
Qed.

(** When the plain fetcher returns no mapping for the one AS number, the
    cached fetcher leaves the cache as the lookup left it. *)
Lemma cached_miss_single_failure (c : memory) (f : fetcher) (ipv4 ipv6 : bool) (X : string)
    (w : World) :
  uncached_test ipv4 ipv6 (memory_Get c (now w) X).2.1 (memory_Get c (now w) X).2.2 = true →
  (∀ m : mapping, (fetcher_Fetch f ipv4 ipv6 [X] w).2 ≠ Return (Some m, None)) →
  cache (cachedFetcher_Fetch (mkCachedFetcher c f) ipv4 ipv6 [X] w).1.1
  = (memory_Get c (now w) X).1.
Proof.
  intros Htest Hfail. unfold cachedFetcher_Fetch.
  change (length [X] =? 0)%nat with false. cbv iota.
  cbn [lookup_range cache embedded Get memory_Storage].
  destruct (memory_Get c (now w) X) as [c' [r err]]. cbn [fst snd] in *.
  rewrite Htest. cbn [lookup_range app length Nat.eqb cache embedded].
  pose proof (fetcher_Fetch_single f ipv4 ipv6 X w) as Hsingle.
  destruct (fetcher_Fetch f ipv4 ipv6 [X] w) as [w' [[r' [e'|]]|e'|]]; cbn [fst snd] in *;
    try done.
  destruct (Hsingle r' eq_refl) as [e ->]. by destruct (Hfail {[X := e]}).
Qed.

(** C1, as the code has it.  The cached fetcher works over the in-memory
    backend.  When the first call comes, the cache does not hold a live
    record of [X] with both versions fetched.  The call, for IPv4 only,
    succeeds.  Then the cache holds a record for [X] with [FetchedIPv4] set
    and [FetchedIPv6] not set.  A call for IPv6 only that comes while that
    record is live goes to the plain fetcher with [X]: the world it leaves
    is the one the plain fetcher leaves for the batch made of [X], and one
    more dial is on the log.  When that fetch returns a mapping, the record
    the cache then holds for [X] has [FetchedIPv4] not set and
    [FetchedIPv6] set; when it returns none, the record is left as it
    was. *)
Theorem second_version_overwrites (f : fetcher) (c0 : memory) (X : string) (w0 w1 : World)
    (f1 : cachedFetcher memory) (m1 : mapping) (d : Z) :
  ¬ cached_for true true c0 (now w0) X →
  cachedFetcher_Fetch (mkCachedFetcher c0 f) true false [X] w0
  = (f1, w1, Return (Some m1, None)) →
  (memory_Get (cache f1) (now (sleep d w1)) X).2.2 = None →
  (∃ rec1 : ASStorage,
     stor (cache f1) !! X = Some rec1 ∧ FetchedIPv4 rec1 = true ∧ FetchedIPv6 rec1 = false)
  ∧ (cachedFetcher_Fetch f1 false true [X] (sleep d w1)).1.2
    = (fetcher_Fetch f false true [X] (sleep d w1)).1
  ∧ (∃ rec : DialRecord,
       history (cachedFetcher_Fetch f1 false true [X] (sleep d w1)).1.2 = history w1 ++ [rec])
  ∧ (∀ m2 : mapping,
       (fetcher_Fetch f false true [X] (sleep d w1)).2 = Return (Some m2, None) →
       ∃ rec2 : ASStorage,
         stor (cache (cachedFetcher_Fetch f1 false true [X] (sleep d w1)).1.1) !! X = Some rec2
         ∧ FetchedIPv4 rec2 = false ∧ FetchedIPv6 rec2 = true)
  ∧ ((∀ m2 : mapping,
        (fetcher_Fetch f false true [X] (sleep d w1)).2 ≠ Return (Some m2, None)) →
     stor (cache (cachedFetcher_Fetch f1 false true [X] (sleep d w1)).1.1) !! X
     = stor (cache f1) !! X).
Proof.
  intros Hnotboth Hfirst Hlive.
  (* the record after the first call *)
  assert (Hrec1 : embedded f1 = f
                  ∧ ∃ rec1 : ASStorage, stor (cache f1) !! X = Some rec1
                      ∧ FetchedIPv4 rec1 = true ∧ FetchedIPv6 rec1 = false).
  { destruct (uncached_test true false (memory_Get c0 (now w0) X).2.1
                (memory_Get c0 (now w0) X).2.2) eqn:Htest1.
    - (* fetched and stored *)
      destruct (cached_miss_single c0 f true false X w0 Htest1) as (_ & Hemb1 & Hput1 & Hback1).
      rewrite Hfirst in Hemb1, Hput1, Hback1. cbn [fst snd] in *.
      destruct (Hback1 m1 eq_refl) as [m1' Hplain1].
      destruct (Hput1 m1' Hplain1) as (e1 & _ & Hc1).
      split; [done|]. exists (record_of true false X e1).
      rewrite Hc1. cbn. by rewrite lookup_insert_eq.
    - (* served from the cache *)
      destruct (cached_hit_single c0 f true false X w0 Htest1) as (Hf1 & Hok1).
      rewrite Hfirst in Hf1, Hok1. cbn [fst snd] in *.
      specialize (Hok1 m1 eq_refl).
      destruct (memory_Get_live c0 (now w0) X Hok1) as (v & Hv & Hget).
      rewrite Hget in Hf1, Htest1. cbn [fst snd] in *.
      injection Hf1 as -> _. cbn [cache embedded].
      split; [done|]. exists v. split; [done|].
      unfold uncached_test in Htest1. cbn in Htest1.
      assert (H4 : FetchedIPv4 v = true) by (by destruct (FetchedIPv4 v)).
      split; [done|].
      (* a live record with both versions is what the first hypothesis rules out *)
      destruct (FetchedIPv6 v) eqn:H6; [|done].
      exfalso. apply Hnotboth.
      unfold memory_Get in Hget. rewrite Hv in Hget.
      destruct (ttl c0 !! X) as [t|] eqn:Ht; [|discriminate].
      destruct (maxTTL c0 <? Since (now w0) t) eqn:Hcmp; [discriminate|].
      exists v, t. repeat split; try done. lia. }
  destruct Hrec1 as (Hemb & rec1 & Hstor1 & H4set & H6unset).
  destruct f1 as [c1 f']. cbn [cache embedded] in *. subst f'.
  (* the second call finds that record, without its IPv6 part *)
  destruct (memory_Get_live c1 (now (sleep d w1)) X Hlive) as (v & Hv & Hget2).
  assert (v = rec1) as -> by congruence.
  assert (Htest2 : uncached_test false true (memory_Get c1 (now (sleep d w1)) X).2.1
                     (memory_Get c1 (now (sleep d w1)) X).2.2 = true).
  { rewrite Hget2. unfold uncached_test. cbn. by rewrite H6unset. }
  destruct (cached_miss_single c1 f false true X (sleep d w1) Htest2)
    as (Hw2 & _ & Hput2 & _).
  split; [|split; [|split; [|split]]].
  - by exists rec1.
  - exact Hw2.
  - rewrite Hw2. apply (fetcher_Fetch_dials f false true [X] (sleep d w1)). discriminate.
  - intros m2 Hplain2. destruct (Hput2 m2 Hplain2) as (e2 & _ & Hc2).
    exists (record_of false true X e2). rewrite Hc2. cbn. by rewrite lookup_insert_eq.
  - intros Hfail.
    rewrite (cached_miss_single_failure c1 f false true X (sleep d w1) Htest2 Hfail).
    by rewrite Hget2.
Qed.

Lemma second_version_overwrites_witness :
  (∃ rec1 : ASStorage,
     stor (cache first_call.1.1) !! "1234" = Some rec1
     ∧ FetchedIPv4 rec1 = true ∧ FetchedIPv6 rec1 = false)
  ∧ (cachedFetcher_Fetch first_call.1.1 false true ["1234"] (sleep 30 first_call.1.2)).1.2
    = (fetcher_Fetch whois false true ["1234"] (sleep 30 first_call.1.2)).1
  ∧ (∃ rec : DialRecord,
       history (cachedFetcher_Fetch first_call.1.1 false true ["1234"]
                  (sleep 30 first_call.1.2)).1.2
       = history first_call.1.2 ++ [rec])
  ∧ (∃ rec2 : ASStorage,
       stor (cache (cachedFetcher_Fetch first_call.1.1 false true ["1234"]
                      (sleep 30 first_call.1.2)).1.1) !! "1234" = Some rec2
       ∧ FetchedIPv4 rec2 = false ∧ FetchedIPv6 rec2 = true).
Proof.
  destruct (second_version_overwrites whois (mkMemory ∅ ∅ 60) "1234" two_peers
              first_call.1.2 first_call.1.1
              {[ "1234" := <["ipv4" := [net_v4]]> (<["ipv6" := []]> ∅) ]} 30)
    as (H1 & H2 & H3 & H4 & _).
  - intros (rec & t & Hrec & _). vm_compute in Hrec. discriminate.
  - vm_compute. reflexivity.
  - vm_compute. reflexivity.
  - split; [exact H1 | split; [exact H2 | split; [exact H3 |]]].
    apply (H4 {[ "1234" := <["ipv6" := [net_v6]]> fresh_entry ]}).
    vm_compute. reflexivity.
Defined.

(** C1, as the specification has it, fails, on two counts.  With a cache
    that holds both versions of the AS number, the IPv4 call succeeds and
    the IPv6 call that follows within the TTL goes nowhere: the world is
    untouched, nothing was dialled, and the record keeps [FetchedIPv4].
    With a cold cache and a peer that answers the IPv6 query of the second
    call with the not-found marker, the second call does dial, returns the
    error, and the record keeps [FetchedIPv4] set and [FetchedIPv6] not
    set. *)
Lemma round_trip_not_unconditional :
  (warm_first_call.2
   = Return (Some {[ "1234" := <["ipv4" := [net_v4]]> (<["ipv6" := []]> ∅) ]}, None)
   ∧ warm_second_call.1.2 = sleep 30 warm_first_call.1.2
   ∧ history warm_second_call.1.2 = []
   ∧ stor (cache warm_second_call.1.1) !! "1234"
     = Some (mkASStorage "1234" [net_v4] [net_v6] true true))
  ∧ (no_v6_first_call.2
     = Return (Some {[ "1234" := <["ipv4" := [net_v4]]> (<["ipv6" := []]> ∅) ]}, None)
     ∧ length (history no_v6_second_call.1.2) = 2%nat
     ∧ no_v6_second_call.2 = Return (None, Some (Errorf "as 1234 not found"))
     ∧ stor (cache no_v6_second_call.1.1) !! "1234"
       = Some (mkASStorage "1234" [net_v4] [] true false)).
Proof. repeat split; vm_compute; reflexivity. Qed.

(** The round trip on the sample peers: the record after each call. *)
Example round_trip_records :
  stor (cache first_call.1.1) !! "1234" = Some (mkASStorage "1234" [net_v4] [] true false)
  ∧ stor (cache (cachedFetcher_Fetch first_call.1.1 false true ["1234"]
                   (sleep 30 first_call.1.2)).1.1) !! "1234"
    = Some (mkASStorage "1234" [] [net_v6] false true).
Proof. split; vm_compute; reflexivity. Qed.

(** Had the cache held both versions, the second call would not have gone
    to the network. *)
Example both_versions_cached :
  (cachedFetcher_Fetch
     (mkCachedFetcher (memory_Set (mkMemory ∅ ∅ 60) 0
                         (mkASStorage "1234" [net_v4] [net_v6] true true)).1 whois)
     false true ["1234"] two_peers).1.2
  = two_peers.
Proof. vm_compute. reflexivity. Qed.

(** ** Every call ends *)

Lemma fetch_into_total (want : bool) (version : Z) (key v : string) (conn : Conn)
    (result : mapping) :
  (fetch_into want version key v conn result).2 ≠ OutOfFuel.
Proof.
  unfold fetch_into. destruct want; [|done].
  pose proof (fetch_total conn v version) as Ht.
  by destruct (fetch conn v version) as [c [[nets [e|]]|e|]].
Qed.

Lemma fetch_range_total (ipv4 ipv6 : bool) (asn : list string) (conn : Conn)
    (result : mapping) :
  (fetch_range ipv4 ipv6 asn conn result).2 ≠ OutOfFuel.
Proof.
  revert conn result. induction asn as [|v asn IH]; intros conn result; simpl; [done|].
  pose proof (fetch_into_total ipv4 4 "ipv4" v conn (<[v := fresh_entry]> result)) as H4.
  destruct (fetch_into ipv4 4 "ipv4" v conn _) as [c1 [[r1 [e1|]]|e1|]]; try done.
  pose proof (fetch_into_total ipv6 6 "ipv6" v c1 r1) as H6.
  destruct (fetch_into ipv6 6 "ipv6" v c1 r1) as [c2 [[r2 [e2|]]|e2|]]; try done.
Qed.

(** The plain fetcher returns or panics; the fuel of the model never runs
    out. *)
Lemma fetcher_Fetch_total (f : fetcher) (ipv4 ipv6 : bool) (asn : list string) (w : World) :
  (fetcher_Fetch f ipv4 ipv6 asn w).2 ≠ OutOfFuel.
Proof.
  unfold fetcher_Fetch. destruct (length asn =? 0)%nat; [done|].
  destruct (Dial (address f) w) as [w1 [conn|e1]]; [|done].
  unfold session. destruct (conn_Write conn ("!!" +:+ nl)) as [c0 [e0|]]; [done|].
  pose proof (fetch_range_total ipv4 ipv6 asn c0 ∅) as Ht.
  by destruct (fetch_range ipv4 ipv6 asn c0 ∅) as [c1 o].
Qed.

(** So does the cached fetcher, over any backend. *)
Lemma cachedFetcher_Fetch_total (S : Type) (backend : Storage S) (f : cachedFetcher S)
    (ipv4 ipv6 : bool) (asn : list string) (w : World) :
  (cachedFetcher_Fetch f ipv4 ipv6 asn w).2 ≠ OutOfFuel.
Proof.
  unfold cachedFetcher_Fetch. destruct (length asn =? 0)%nat; [done|].
  destruct (lookup_range ipv4 ipv6 (now w) asn (cache f) [] ∅) as [c [[uncached result]|e]];
    [|done].
  destruct (length uncached =? 0)%nat; [done|]. cbn [embedded cache].
  pose proof (fetcher_Fetch_total (embedded f) ipv4 ipv6 uncached w) as Ht.
  destruct (fetcher_Fetch (embedded f) ipv4 ipv6 uncached w) as [w1 [[r [e|]]|e|]]; try done.
  by destruct (store_range ipv4 ipv6 (now w1) (map_to_list (default ∅ r)) c result).
Qed.

(** * Further properties of the code *)

(** ** Lines *)

Lemma string_app_cons (x : ascii) (a b : string) : String x a +:+ b = String x (a +:+ b).
Proof. reflexivity. Qed.

Lemma string_app_nil_l (b : string) : "" +:+ b = b.
Proof. reflexivity. Qed.

Lemma string_app_assoc (a b c : string) : (a +:+ b) +:+ c = a +:+ (b +:+ c).
Proof.
  induction a as [|x a IH]; [done|]. rewrite !string_app_cons. f_equal. exact IH.
Qed.

Lemma string_app_nil_r (a : string) : a +:+ "" = a.
Proof. induction a as [|x a IH]; [done|]. rewrite string_app_cons. f_equal. exact IH. Qed.

(** What [strings.TrimRight] with a carriage return takes off are carriage
    returns at the end, all of them. *)
Lemma TrimRight_CR_spec (s : string) :
  (∃ k : nat, s = TrimRight_CR s +:+ CRs k) ∧ last_byte (TrimRight_CR s) ≠ Some CR.
Proof.
  induction s as [|c s [[k Hk] Hlast]]; simpl.
  - split; [by exists O | done].
  - destruct (Ascii.eqb c CR) eqn:Hc; simpl.
    + destruct (String.eqb (TrimRight_CR s) "") eqn:He; simpl.
      * apply String.eqb_eq in He. apply Ascii.eqb_eq in Hc. subst c.
        split; [|done]. exists (S k). rewrite He in Hk. rewrite string_app_nil_l in *.
        simpl. by f_equal.
      * split; [exists k; rewrite string_app_cons; by f_equal|].
        destruct (TrimRight_CR s); [done | exact Hlast].
    + split; [exists k; rewrite string_app_cons; by f_equal|].
      destruct (TrimRight_CR s) eqn:Ht.
      * simpl. intros [= ->]. by rewrite Ascii.eqb_refl in Hc.
      * exact Hlast.
Qed.

Lemma readLine_loop_line (c : Conn) (l rest resp : string) :
  no_LF l = true →
  readLine_loop c (l +:+ nl +:+ rest) resp
  = (with_incoming rest c, (TrimRight_CR (resp +:+ l), None)).
Proof.
  revert resp. induction l as [|x l IH]; intros resp Hl.
  - rewrite string_app_nil_l, string_app_nil_r. unfold nl. rewrite string_app_cons.
    reflexivity.
  - simpl in Hl. apply andb_true_iff in Hl as [Hx Hl]. apply negb_true_iff in Hx.
    rewrite string_app_cons. simpl. rewrite Hx.
    rewrite IH by done. rewrite string_app_assoc. by rewrite string_app_cons.
Qed.

(** X1.  A line that ends in a line feed comes back without the line feed
    and without the carriage returns before it, however many; the bytes
    after the line feed stay on the connection and nothing else about the
    connection changes. *)
Theorem readLine_line (c : Conn) (l rest : string) :
  no_LF l = true → incoming c = l +:+ nl +:+ rest →
  ∃ (r : string) (k : nat),
    readLine c = (with_incoming rest c, (r, None))
    ∧ l = r +:+ CRs k ∧ last_byte r ≠ Some CR.
Proof.
  intros Hl Hinc. unfold readLine. rewrite Hinc, readLine_loop_line by done.
  rewrite string_app_nil_l.
  destruct (TrimRight_CR_spec l) as [[k Hk] Hlast].
  by exists (TrimRight_CR l), k.
Qed.

Lemma readLine_line_witness :
  ∃ (r : string) (k : nat),
    readLine (idle (String "C" (String CR (String CR "")) +:+ nl +:+ "next"))
    = (with_incoming "next" (idle (String "C" (String CR (String CR "")) +:+ nl +:+ "next")),
       (r, None))
    ∧ String "C" (String CR (String CR "")) = r +:+ CRs k ∧ last_byte r ≠ Some CR.
Proof.
  apply (readLine_line (idle (String "C" (String CR (String CR "")) +:+ nl +:+ "next"))
           (String "C" (String CR (String CR ""))) "next"); reflexivity.
Defined.

Lemma readLine_loop_no_LF (c : Conn) (inp resp : string) :
  no_LF inp = true →
  readLine_loop c inp resp
  = (with_incoming "" c, ("", Some (Wrap io_EOF "failed to read next byte from connection"))).
Proof.
  revert resp. induction inp as [|x inp IH]; intros resp Hl; simpl in *; [done|].
  apply andb_true_iff in Hl as [Hx Hl]. apply negb_true_iff in Hx. rewrite Hx. by apply IH.
Qed.

(** X2.  When the peer closes before a line feed has come, [readLine]
    fails with the read error wrapped, returns the empty string and not
    the bytes it had read, and has used up what the peer sent. *)
Theorem readLine_unfinished (c : Conn) :
  no_LF (incoming c) = true →
  readLine c
  = (with_incoming "" c, ("", Some (Wrap io_EOF "failed to read next byte from connection"))).
Proof. intros Hl. unfold readLine. by apply readLine_loop_no_LF. Qed.

Lemma readLine_unfinished_witness :
  readLine (idle "1.2.3.0/24")
  = (with_incoming "" (idle "1.2.3.0/24"),
     ("", Some (Wrap io_EOF "failed to read next byte from connection"))).
Proof. apply (readLine_unfinished (idle "1.2.3.0/24")). reflexivity. Defined.

(** ** Whole responses *)

Lemma string_length_app (a b : string) :
  String.length (a +:+ b) = (String.length a + String.length b)%nat.
Proof.
  induction a as [|x a IH]; [done|]. rewrite string_app_cons. simpl. by rewrite IH.
Qed.

Lemma on_wire_length (lines : list string) :
  (length lines ≤ String.length (on_wire lines))%nat.
Proof.
  induction lines as [|l lines IH]; simpl; [done|].
  rewrite !string_length_app. simpl. lia.
Qed.

(** When every token is a prefix, none is bad and the networks are those
    of the tokens. *)
Lemma mapM_ParseCIDR (tokens : list string) (nets : list net.IPNet) :
  mapM net.ParseCIDR tokens = Some nets →
  first_bad tokens = None ∧ omap net.ParseCIDR tokens = nets.
Proof.
  intros Hm. apply mapM_Some in Hm. unfold first_bad.
  induction Hm as [|t n tokens nets Ht _ [IH1 IH2]]; [done|].
  split.
  - simpl. rewrite Ht. simpl. exact IH1.
  - simpl. rewrite Ht. simpl. by f_equal.
Qed.

(** A data line is no marker. *)
Lemma line_nets_no_marker (l : string) (nets : list net.IPNet) :
  line_nets l = Some nets → TrimRight_CR l ≠ "D" ∧ TrimRight_CR l ≠ "C".
Proof.
  unfold line_nets. intros Hn. split; intros Heq; rewrite Heq in Hn; vm_compute in Hn;
    discriminate.
Qed.

(** The response loop over data lines: it reads them all, keeps their
    networks in order and goes on with what follows. *)
Lemma fetch_loop_data (lines : list string) (netss : list (list net.IPNet)) (tail : string) :
  Forall (λ l, no_LF l = true) lines → mapM line_nets lines = Some netss →
  ∀ (fuel : nat) (as_ : string) (c : Conn) (response : list net.IPNet),
    incoming c = on_wire lines +:+ tail →
    fetch_loop (length lines + fuel) as_ c st_response response
    = fetch_loop fuel as_ (with_incoming tail c) st_response (response ++ concat netss).
Proof.
  intros Hlf Hm. apply mapM_Some in Hm. revert Hlf.
  induction Hm as [|l nets lines netss Hl _ IH]; intros Hlf fuel as_ c response Hinc.
  - simpl in *. rewrite app_nil_r. rewrite string_app_nil_l in Hinc.
    destruct c; simpl in *; by subst.
  - apply Forall_cons in Hlf as [Hl0 Hlf].
    change (length (l :: lines) + fuel)%nat with (S (length lines + fuel)).
    simpl in Hinc. rewrite !string_app_assoc in Hinc.
    destruct (line_nets_no_marker l nets Hl) as [HD HC].
    destruct (mapM_ParseCIDR _ _ Hl) as [Hbad Hnets].
    rewrite (data_line_tokens_step _ as_ c (with_incoming (on_wire lines +:+ tail) c)
               (TrimRight_CR l) response).
    + rewrite Hbad, Hnets. rewrite (IH Hlf) by done. simpl. by rewrite <- app_assoc.
    + unfold readLine. rewrite Hinc, readLine_loop_line by done. by rewrite string_app_nil_l.
    + done.
    + done.
Qed.

(** One round of the response loop on a marker. *)
Lemma fetch_loop_marker (fuel : nat) (as_ : string) (c : Conn) (state : fetch_state)
    (response : list net.IPNet) (term rest : string) :
  no_LF term = true → incoming c = term +:+ nl +:+ rest →
  (TrimRight_CR term = "C" →
   fetch_loop (S fuel) as_ c state response = (with_incoming rest c, Return (response, None)))
  ∧ (TrimRight_CR term = "D" →
     fetch_loop (S fuel) as_ c state response
     = (with_incoming rest c, Return ([], Some (Errorf ("as " +:+ as_ +:+ " not found"))))).
Proof.
  intros Hl Hinc. simpl. unfold readLine. rewrite Hinc, readLine_loop_line by done.
  rewrite string_app_nil_l. split; intros ->; reflexivity.
Qed.

(** The query over a header line and data lines, up to what follows. *)
Lemma fetch_header_and_data (c : Conn) (as_ : string) (version : Z) (cmd h tail : string)
    (lines : list string) (netss : list (list net.IPNet)) :
  fetch_cmd as_ version = Some cmd →
  default true (wscript c !! length (written c)) = true →
  no_LF h = true → Forall (λ l, no_LF l = true) lines →
  mapM line_nets lines = Some netss →
  incoming c = String "A" h +:+ nl +:+ on_wire lines +:+ tail →
  ∃ k : nat,
    fetch c as_ version
    = fetch_loop (S k) as_
        (mkConn tail (wscript c) (written c ++ [(cmd, true)]) (duration c) (closed c))
        st_response (concat netss).
Proof.
  intros Hcmd Hw Hh Hlines Hm Hinc.
  unfold fetch, conn_Write. rewrite Hcmd, Hw. cbn [incoming].
  set (c1 := mkConn (incoming c) (wscript c) (written c ++ [(cmd, true)]) (duration c)
               (closed c)).
  assert (Hlen : ∃ k : nat,
             String.length (incoming c) = (length lines + S k)%nat).
  { rewrite Hinc. rewrite !string_length_app. pose proof (on_wire_length lines).
    exists (String.length (String "A" h) + String.length nl
            + (String.length (on_wire lines) - length lines) + String.length tail - 1)%nat.
    simpl. lia. }
  destruct Hlen as [k Hk]. rewrite Hk.
  (* the header line *)
  assert (Hread : readLine c1
                  = (with_incoming (on_wire lines +:+ tail) c1,
                     (TrimRight_CR (String "A" h), None))).
  { unfold readLine. subst c1. cbn [incoming]. rewrite Hinc.
    rewrite (readLine_loop_line _ (String "A" h)) by done. by rewrite string_app_nil_l. }
  change (TrimRight_CR (String "A" h)) with (String "A" (TrimRight_CR h)) in Hread.
  cbn [fetch_loop]. rewrite Hread. cbn [String.eqb Ascii.eqb Bool.eqb negb].
  change (Ascii.eqb "A" "D") with false. change (Ascii.eqb "A" "C") with false.
  change (Ascii.eqb "A" "A") with true. cbn [negb].
  rewrite (fetch_loop_data lines netss tail Hlines Hm (S k) as_ _ []) by done.
  exists k. done.
Qed.

(** The query over a complete answer. *)
Lemma fetch_answer (c : Conn) (as_ : string) (version : Z)
    (cmd h term rest : string) (lines : list string) (netss : list (list net.IPNet)) :
  fetch_cmd as_ version = Some cmd →
  default true (wscript c !! length (written c)) = true →
  no_LF h = true → Forall (λ l, no_LF l = true) lines → no_LF term = true →
  mapM line_nets lines = Some netss →
  TrimRight_CR term = "C" →
  incoming c = String "A" h +:+ nl +:+ on_wire lines +:+ term +:+ nl +:+ rest →
  fetch c as_ version
  = (mkConn rest (wscript c) (written c ++ [(cmd, true)]) (duration c) (closed c),
     Return (concat netss, None)).
Proof.
  intros Hcmd Hw Hh Hlines Hterm Hm HC Hinc.
  destruct (fetch_header_and_data c as_ version cmd h (term +:+ nl +:+ rest) lines netss)
    as [k ->]; try done.
  match goal with |- fetch_loop _ _ ?c1 _ _ = _ =>
    destruct (fetch_loop_marker k as_ c1 st_response (concat netss) term rest Hterm eq_refl)
      as [HCm HDm] end.
  auto.
Qed.

(** X3.  A complete answer: a header line that starts with [A], data
    lines whose tokens all are prefixes, and the end marker, with or
    without carriage returns before the line feeds.  The query returns the
    networks of all data lines in the order they came, with a nil error;
    what the peer sent after the marker is still to be read, and the one
    write is the command. *)
Theorem fetch_complete_answer (c : Conn) (as_ : string) (version : Z)
    (cmd h term rest : string) (lines : list string) (netss : list (list net.IPNet)) :
  fetch_cmd as_ version = Some cmd →
  default true (wscript c !! length (written c)) = true →
  no_LF h = true → Forall (λ l, no_LF l = true) lines → no_LF term = true →
  mapM line_nets lines = Some netss →
  TrimRight_CR term = "C" →
  incoming c = String "A" h +:+ nl +:+ on_wire lines +:+ term +:+ nl +:+ rest →
  fetch c as_ version
  = (mkConn rest (wscript c) (written c ++ [(cmd, true)]) (duration c) (closed c),
     Return (concat netss, None)).
Proof. apply fetch_answer. Qed.

Lemma fetch_complete_answer_witness :
  fetch (idle (String "A" "17" +:+ nl
               +:+ on_wire ["1.2.3.0/24 1.2.4.0/24" +:+ String CR ""; "2001:db8::/32"]
               +:+ "C" +:+ nl +:+ "A1"))
    "1234" 4
  = (mkConn "A1" [] ([] ++ [("!gAS1234" +:+ nl, true)]) 0 false,
     Return (concat [[net_v4; net.mkIPNet [1; 2; 4; 0] [255; 255; 255; 0]]; [net_v6]], None)).
Proof.
  apply (fetch_complete_answer
           (idle (String "A" "17" +:+ nl
                  +:+ on_wire ["1.2.3.0/24 1.2.4.0/24" +:+ String CR ""; "2001:db8::/32"]
                  +:+ "C" +:+ nl +:+ "A1"))
           "1234" 4 ("!gAS1234" +:+ nl) "17" "C" "A1"
           ["1.2.3.0/24 1.2.4.0/24" +:+ String CR ""; "2001:db8::/32"]
           [[net_v4; net.mkIPNet [1; 2; 4; 0] [255; 255; 255; 0]]; [net_v6]]).
  - reflexivity.
  - reflexivity.
  - reflexivity.
  - repeat constructor.
  - reflexivity.
  - vm_compute. reflexivity.
  - reflexivity.
  - reflexivity.
Defined.

(** X4.  The not-found marker after a header and data lines: the query
    fails with the error that names the AS number, and the networks it had
    gathered are not returned. *)
Theorem fetch_not_found_late (c : Conn) (as_ : string) (version : Z)
    (cmd h term rest : string) (lines : list string) (netss : list (list net.IPNet)) :
  fetch_cmd as_ version = Some cmd →
  default true (wscript c !! length (written c)) = true →
  no_LF h = true → Forall (λ l, no_LF l = true) lines → no_LF term = true →
  mapM line_nets lines = Some netss →
  TrimRight_CR term = "D" →
  incoming c = String "A" h +:+ nl +:+ on_wire lines +:+ term +:+ nl +:+ rest →
  fetch c as_ version
  = (mkConn rest (wscript c) (written c ++ [(cmd, true)]) (duration c) (closed c),
     Return ([], Some (Errorf ("as " +:+ as_ +:+ " not found")))).
Proof.
  intros Hcmd Hw Hh Hlines Hterm Hm HD Hinc.
  destruct (fetch_header_and_data c as_ version cmd h (term +:+ nl +:+ rest) lines netss)
    as [k ->]; try done.
  match goal with |- fetch_loop _ _ ?c1 _ _ = _ =>
    destruct (fetch_loop_marker k as_ c1 st_response (concat netss) term rest Hterm eq_refl)
      as [HCm HDm] end.
  auto.
Qed.

Lemma fetch_not_found_late_witness :
  fetch (idle (String "A" "17" +:+ nl +:+ on_wire ["1.2.3.0/24"] +:+ "D" +:+ nl +:+ ""))
    "1234" 6
  = (mkConn "" [] ([] ++ [("!6AS1234" +:+ nl, true)]) 0 false,
     Return ([], Some (Errorf ("as " +:+ "1234" +:+ " not found")))).
Proof.
  apply (fetch_not_found_late
           (idle (String "A" "17" +:+ nl +:+ on_wire ["1.2.3.0/24"] +:+ "D" +:+ nl +:+ ""))
           "1234" 6 ("!6AS1234" +:+ nl) "17" "D" "" ["1.2.3.0/24"] [[net_v4]]).
  - reflexivity.
  - reflexivity.
  - reflexivity.
  - repeat constructor.
  - reflexivity.
  - vm_compute. reflexivity.
  - reflexivity.
  - reflexivity.
Defined.

(** X5.  The first line of an answer that is no marker and no header: when
    it is empty (carriage returns apart) the query fails with the
    empty-response error, otherwise with the invalid-response error.  The
    query stops there: the rest of what the peer sent is left unread. *)
Theorem fetch_bad_header (c : Conn) (as_ : string) (version : Z) (cmd l rest : string) :
  fetch_cmd as_ version = Some cmd →
  default true (wscript c !! length (written c)) = true →
  no_LF l = true → incoming c = l +:+ nl +:+ rest →
  TrimRight_CR l ≠ "D" → TrimRight_CR l ≠ "C" →
  (∀ h : string, TrimRight_CR l ≠ String "A" h) →
  fetch c as_ version
  = (mkConn rest (wscript c) (written c ++ [(cmd, true)]) (duration c) (closed c),
     Return ([], Some (Errorf ((if String.eqb (TrimRight_CR l) ""
                                then "empty response for as "
                                else "received invalid response for as ") +:+ as_)))).
Proof.
  intros Hcmd Hw Hl Hinc HD HC HA.
  unfold fetch, conn_Write. rewrite Hcmd, Hw. cbn [incoming fetch_loop].
  unfold readLine. cbn [incoming]. rewrite Hinc, readLine_loop_line by done.
  rewrite string_app_nil_l.
  apply String.eqb_neq in HD, HC. rewrite HD, HC.
  destruct (TrimRight_CR l) as [|c0 t] eqn:Ht; [done|].
  destruct (Ascii.eqb c0 "A") eqn:Hc0; [|done].
  apply Ascii.eqb_eq in Hc0. subst c0. by destruct (HA t).
Qed.

Lemma fetch_bad_header_witness :
  fetch (idle ("%  no entries found" +:+ nl +:+ "C" +:+ nl)) "1234" 4
  = (mkConn ("C" +:+ nl) [] ([] ++ [("!gAS1234" +:+ nl, true)]) 0 false,
     Return ([], Some (Errorf ((if String.eqb (TrimRight_CR "%  no entries found") ""
                                then "empty response for as "
                                else "received invalid response for as ") +:+ "1234")))).
Proof.
  apply (fetch_bad_header (idle ("%  no entries found" +:+ nl +:+ "C" +:+ nl)) "1234" 4
           ("!gAS1234" +:+ nl) "%  no entries found" ("C" +:+ nl));
    try reflexivity; discriminate.
Defined.

(** ** The result and the session of the plain fetcher *)

Lemma fresh_entry_shape (ipv4 ipv6 : bool) : entry_shape ipv4 ipv6 fresh_entry.
Proof.
  unfold entry_shape, fresh_entry. split; [|split].
  - rewrite !dom_insert_L, dom_empty_L. set_solver.
  - intros _. by rewrite lookup_insert_eq.
  - intros _. rewrite lookup_insert_ne by done. by rewrite lookup_insert_eq.
Qed.

Lemma entry_shape_insert (ipv4 ipv6 : bool) (e : gmap string (list net.IPNet))
    (nets : list net.IPNet) :
  entry_shape ipv4 ipv6 e →
  (ipv4 = true → entry_shape ipv4 ipv6 (<["ipv4" := nets]> e))
  ∧ (ipv6 = true → entry_shape ipv4 ipv6 (<["ipv6" := nets]> e)).
Proof.
  intros (Hdom & H4 & H6). split; intros Hwant; subst; (split; [|split]).
  - rewrite dom_insert_L, Hdom. set_solver.
  - discriminate.
  - intros Hno. rewrite lookup_insert_ne by done. by apply H6.
  - rewrite dom_insert_L, Hdom. set_solver.
  - intros Hno. rewrite lookup_insert_ne by done. by apply H4.
  - discriminate.
Qed.

(** One query of the loop keeps the keys of the result and the shape of
    its entries. *)
Lemma fetch_into_shape (ipv4 ipv6 want : bool) (version : Z) (key v : string) (conn : Conn)
    (result r' : mapping) (c' : Conn) :
  (key = "ipv4" ∧ want = ipv4 ∨ key = "ipv6" ∧ want = ipv6) →
  (∀ k e, result !! k = Some e → entry_shape ipv4 ipv6 e) →
  fetch_into want version key v conn result = (c', Return (r', None)) →
  dom r' = dom result ∧ (∀ k e, r' !! k = Some e → entry_shape ipv4 ipv6 e).
Proof.
  intros Hkey Hinv. unfold fetch_into. destruct want.
  - destruct (fetch conn v version) as [c1 [[nets [e|]]|e|]]; try discriminate.
    intros [= <- <-]. split; [apply dom_alter_L|].
    intros k e. rewrite lookup_alter. case_decide as Hk; [|apply Hinv].
    subst k. destruct (result !! v) as [e0|] eqn:He0; simpl; [|discriminate].
    intros [= <-]. specialize (Hinv v e0 He0).
    destruct (entry_shape_insert ipv4 ipv6 e0 nets Hinv) as [H4 H6].
    destruct Hkey as [[-> <-] | [-> <-]]; auto.
  - intros [= <- <-]. done.
Qed.

Lemma fetch_range_shape (ipv4 ipv6 : bool) (asn : list string) (conn : Conn)
    (result m : mapping) :
  (∀ k e, result !! k = Some e → entry_shape ipv4 ipv6 e) →
  (fetch_range ipv4 ipv6 asn conn result).2 = Return (Some m, None) →
  dom m = dom result ∪ list_to_set asn
  ∧ (∀ k e, m !! k = Some e → entry_shape ipv4 ipv6 e).
Proof.
  revert conn result. induction asn as [|v asn IH]; intros conn result Hinv; simpl.
  - intros [= <-]. split; [set_solver | done].
  - set (r0 := <[v := fresh_entry]> result).
    assert (Hinv0 : ∀ k e, r0 !! k = Some e → entry_shape ipv4 ipv6 e).
    { intros k e. subst r0. rewrite lookup_insert. case_decide; [|apply Hinv].
      intros [= <-]. apply fresh_entry_shape. }
    destruct (fetch_into ipv4 4 "ipv4" v conn r0) as [c1 [[r1 [e1|]]|e1|]] eqn:H4;
      simpl; try discriminate.
    destruct (fetch_into_shape ipv4 ipv6 ipv4 4 "ipv4" v conn r0 r1 c1) as [Hd1 Hinv1];
      [by left | done | done |].
    destruct (fetch_into ipv6 6 "ipv6" v c1 r1) as [c2 [[r2 [e2|]]|e2|]] eqn:H6;
      simpl; try discriminate.
    destruct (fetch_into_shape ipv4 ipv6 ipv6 6 "ipv6" v c1 r1 r2 c2) as [Hd2 Hinv2];
      [by right | done | done |].
    intros Hrest. destruct (IH c2 r2 Hinv2 Hrest) as [Hd Hall]. split; [|done].
    rewrite Hd, Hd2, Hd1. subst r0. rewrite dom_insert_L. set_solver.
Qed.

(** The keys and the entries of the mapping of a successful [Fetch]. *)
Lemma fetcher_Fetch_shape (f : fetcher) (ipv4 ipv6 : bool) (asn : list string) (w : World)
    (m : mapping) :
  (fetcher_Fetch f ipv4 ipv6 asn w).2 = Return (Some m, None) →
  dom m = list_to_set asn
  ∧ (∀ (v : string) (e : gmap string (list net.IPNet)),
       m !! v = Some e → entry_shape ipv4 ipv6 e).
Proof.
  unfold fetcher_Fetch. destruct (length asn =? 0)%nat eqn:Hlen.
  - apply Nat.eqb_eq, nil_length_inv in Hlen. subst asn. simpl. intros [= <-].
    split; [set_solver | intros v e; by rewrite lookup_empty].
  - destruct (Dial (address f) w) as [w1 [conn|e1]]; [|simpl; discriminate].
    unfold session. destruct (conn_Write conn ("!!" +:+ nl)) as [c0 [e0|]];
      [simpl; discriminate|].
    pose proof (fetch_range_shape ipv4 ipv6 asn c0 ∅ m) as Hs.
    destruct (fetch_range ipv4 ipv6 asn c0 ∅) as [c1 o]. simpl in *. intros ->.
    destruct Hs as [Hd Hall]; [intros k e; by rewrite lookup_empty | done |].
    split; [|done]. rewrite Hd, dom_empty_L. set_solver.
Qed.

(** X6.  The mapping of a successful [Fetch] has an entry for each AS
    number of the batch and for nothing else; each entry has the keys
    ["ipv4"] and ["ipv6"] and no other, and under a version that was not
    asked for it has no networks. *)
Theorem Fetch_result_shape (f : fetcher) (ipv4 ipv6 : bool) (asn : list string) (w : World)
    (m : mapping) :
  (fetcher_Fetch f ipv4 ipv6 asn w).2 = Return (Some m, None) →
  dom m = list_to_set asn
  ∧ (∀ (v : string) (e : gmap string (list net.IPNet)),
       m !! v = Some e → entry_shape ipv4 ipv6 e).
Proof. apply fetcher_Fetch_shape. Qed.

Lemma Fetch_result_shape_witness :
  dom ({[ "1234" := <["ipv4" := [net_v4]]> fresh_entry ]} : mapping) = list_to_set ["1234"]
  ∧ (∀ (v : string) (e : gmap string (list net.IPNet)),
       ({[ "1234" := <["ipv4" := [net_v4]]> fresh_entry ]} : mapping) !! v = Some e →
       entry_shape true false e).
Proof.
  apply (Fetch_result_shape whois true false ["1234"] (quiet [Accept answer_v4 [] 5])).
  vm_compute. reflexivity.
Defined.

(** The loop of a batch changes neither the script nor the duration of the
    connection, and does not close it. *)
Lemma fetch_range_frame (ipv4 ipv6 : bool) (asn : list string) (conn : Conn)
    (result : mapping) :
  let c' := (fetch_range ipv4 ipv6 asn conn result).1 in
  wscript c' = wscript conn ∧ duration c' = duration conn ∧ closed c' = closed conn.
Proof.
  revert conn result. induction asn as [|v asn IH]; intros conn result; simpl; [done|].
  assert (Hinto : ∀ want version key cmd c r,
             fetch_cmd v version = Some cmd →
             let c' := (fetch_into want version key v c r).1 in
             wscript c' = wscript c ∧ duration c' = duration c ∧ closed c' = closed c).
  { intros want version key cmd c r Hcmd. unfold fetch_into. destruct want; [|done].
    pose proof (fetch_written c v version cmd Hcmd) as Hw. simpl in Hw.
    destruct (fetch c v version) as [c1 o]. simpl in Hw. destruct Hw as (_ & Hs & Hd & Hc).
    by destruct o as [[nets [e|]]|e|]. }
  pose proof (Hinto ipv4 4 "ipv4" _ conn (<[v := fresh_entry]> result) eq_refl) as H4.
  destruct (fetch_into ipv4 4 "ipv4" v conn _) as [c1 o1]. simpl in H4.
  destruct H4 as (Hs1 & Hd1 & Hc1).
  destruct o1 as [[r1 [e1|]]|e1|]; simpl; try done.
  pose proof (Hinto ipv6 6 "ipv6" _ c1 r1 eq_refl) as H6.
  destruct (fetch_into ipv6 6 "ipv6" v c1 r1) as [c2 o2]. simpl in H6.
  destruct H6 as (Hs2 & Hd2 & Hc2).
  assert (Hall : wscript c2 = wscript conn ∧ duration c2 = duration conn
                 ∧ closed c2 = closed conn) by (by rewrite Hs2, Hd2, Hc2).
  destruct o2 as [[r2 [e2|]]|e2|]; simpl; try done.
  specialize (IH c2 r2). simpl in IH. destruct IH as (-> & -> & ->). done.
Qed.

(** X7.  One call, one connection.  When the dial of a non-empty batch is
    accepted, [Fetch] leaves, whatever its outcome (a mapping, an error or
    a panic), exactly one session on the log; the session is closed, its
    first write is the enable sequence and its last write the exit
    command; the other peers are untouched and the clock has moved by the
    duration of the session.  When the outcome is a mapping, the writes in
    between are all the queries of the batch, in the order of the batch
    and IPv4 before IPv6. *)
Theorem Fetch_one_session (f : fetcher) (ipv4 ipv6 : bool) (asn : list string) (w : World)
    (inp : string) (ws : list bool) (d : Z) (peers : list Peer) :
  asn ≠ [] → network w = Accept inp ws d :: peers →
  ∃ (c : Conn) (q : list string),
    (fetcher_Fetch f ipv4 ipv6 asn w).1
    = mkWorld (now w + d) peers (history w ++ [Session (address f) c])
    ∧ closed c = true
    ∧ (written c).*1 = ("!!" +:+ nl) :: q ++ ["exit" +:+ nl]
    ∧ (∀ m : mapping,
         (fetcher_Fetch f ipv4 ipv6 asn w).2 = Return (Some m, None) →
         q = commands ipv4 ipv6 asn).
Proof.
  intros Hne Hnet. unfold fetcher_Fetch. destruct asn as [|v asn]; [done|].
  change (length (v :: asn) =? 0)%nat with false. cbv iota.
  unfold Dial. rewrite Hnet. unfold session.
  set (c0 := mkConn inp ws [] d false).
  destruct (conn_Write c0 ("!!" +:+ nl)) as [c1 werr] eqn:Hw1.
  assert (Hc1 : (written c1).*1 = ["!!" +:+ nl] ∧ duration c1 = d).
  { unfold conn_Write in Hw1. injection Hw1 as <- _. done. }
  destruct Hc1 as [Hc1 Hd1].
  destruct werr as [e|].
  - destruct (deferred_spec (address f) c1 (mkWorld (now w) peers (history w)))
      as (c & -> & Hc & Hclosed).
    exists c, []. simpl. rewrite Hc, Hc1, Hd1. split; [done|]. split; [done|].
    split; [done | discriminate].
  - destruct (fetch_range_written ipv4 ipv6 (v :: asn) c1 ∅) as (q & Hq & _ & Hall).
    pose proof (fetch_range_frame ipv4 ipv6 (v :: asn) c1 ∅) as (_ & Hd2 & _).
    destruct (fetch_range ipv4 ipv6 (v :: asn) c1 ∅) as [c2 r]. cbn [fst snd] in *.
    destruct (deferred_spec (address f) c2 (mkWorld (now w) peers (history w)))
      as (c & -> & Hc & Hclosed).
    exists c, q. simpl. rewrite Hc, Hq, Hc1, Hd2, Hd1.
    split; [done|]. split; [done|]. split; [done|]. exact Hall.
Qed.

Lemma Fetch_one_session_witness :
  ∃ (c : Conn) (q : list string),
    (fetcher_Fetch whois true false ["1234"; "9999"; "5678"] (quiet [second_unknown])).1
    = mkWorld (0 + 5) [] ([] ++ [Session (address whois) c])
    ∧ closed c = true
    ∧ (written c).*1 = ("!!" +:+ nl) :: q ++ ["exit" +:+ nl]
    ∧ (∀ m : mapping,
         (fetcher_Fetch whois true false ["1234"; "9999"; "5678"] (quiet [second_unknown])).2
         = Return (Some m, None) →
         q = commands true false ["1234"; "9999"; "5678"]).
Proof.
  apply (Fetch_one_session whois true false ["1234"; "9999"; "5678"] (quiet [second_unknown])
           (answer_v4 +:+ "D" +:+ nl +:+ answer_v4) [] 5 []).
  - discriminate.
  - reflexivity.
Defined.

(** X8.  When no connection is to be had, [Fetch] on a non-empty batch
    returns the error of the dial wrapped with the address, and a nil
    mapping; no session comes about. *)
Theorem Fetch_dial_refused (f : fetcher) (ipv4 ipv6 : bool) (asn : list string) (w : World)
    (e : error) (peers : list Peer) :
  asn ≠ [] → network w = Refuse e :: peers →
  fetcher_Fetch f ipv4 ipv6 asn w
  = (mkWorld (now w) peers (history w ++ [DialFailed (address f)]),
     Return (None, Some (Wrap e ("failed to connect to " +:+ host f +:+ ":" +:+ pretty (port f))))).
Proof.
  intros Hne Hnet. unfold fetcher_Fetch. destruct asn as [|v asn]; [done|].
  change (length (v :: asn) =? 0)%nat with false. cbv iota.
  unfold Dial. by rewrite Hnet.
Qed.

Lemma Fetch_dial_refused_witness :
  fetcher_Fetch whois true true ["1234"] (quiet [Refuse io_refused])
  = (mkWorld 0 [] ([] ++ [DialFailed (address whois)]),
     Return (None, Some (Wrap io_refused
                           ("failed to connect to " +:+ "whois.radb.net" +:+ ":" +:+ pretty 43)))).
Proof.
  apply (Fetch_dial_refused whois true true ["1234"] (quiet [Refuse io_refused]) io_refused []).
  - discriminate.
  - reflexivity.
Defined.

(** X9.  When the write of the enable sequence fails, [Fetch] returns
    that error wrapped and a nil mapping, and sends no query; the exit
    command is still tried and the connection closed. *)
Theorem Fetch_enable_fails (f : fetcher) (ipv4 ipv6 : bool) (asn : list string) (w : World)
    (inp : string) (ws : list bool) (d : Z) (peers : list Peer) :
  asn ≠ [] → network w = Accept inp (false :: ws) d :: peers →
  fetcher_Fetch f ipv4 ipv6 asn w
  = (mkWorld (now w + d) peers
       (history w
        ++ [Session (address f)
              (mkConn inp (false :: ws)
                 [("!!" +:+ nl, false); ("exit" +:+ nl, default true (ws !! O))] d true)]),
     Return (None, Some (Wrap io_write_failed "failed to enable multicommand mode"))).
Proof.
  intros Hne Hnet. unfold fetcher_Fetch. destruct asn as [|v asn]; [done|].
  change (length (v :: asn) =? 0)%nat with false. cbv iota.
  unfold Dial. rewrite Hnet. reflexivity.
Qed.

Lemma Fetch_enable_fails_witness :
  fetcher_Fetch whois true true ["1234"] (quiet [Accept answer_v4 (false :: []) 5])
  = (mkWorld (0 + 5) []
       ([] ++ [Session (address whois)
                 (mkConn answer_v4 (false :: [])
                    [("!!" +:+ nl, false); ("exit" +:+ nl, default true ([] !! O))] 5 true)]),
     Return (None, Some (Wrap io_write_failed "failed to enable multicommand mode"))).
Proof.
  apply (Fetch_enable_fails whois true true ["1234"] (quiet [Accept answer_v4 (false :: []) 5])
           answer_v4 [] 5 []).
  - discriminate.
  - reflexivity.
Defined.

(** ** The in-memory backend *)

(** X10.  What [Set] stores, [Get] returns: a lookup of the AS number of
    a record, at any time up to the TTL after it was stored (the end of
    the TTL included), returns that record with a nil error and leaves the
    store as it is.  [Set] itself never fails. *)
Theorem memory_Set_then_Get (m : memory) (rec : ASStorage) (T now : Z) :
  Since now T ≤ maxTTL m →
  (memory_Set m T rec).2 = None
  ∧ memory_Get (memory_Set m T rec).1 now (AS rec)
    = ((memory_Set m T rec).1, (rec, None)).
Proof.
  intros Hlive. split; [done|].
  apply memory_Get_fresh with (t := T); simpl; [apply lookup_insert_eq .. | done].
Qed.

Lemma memory_Set_then_Get_witness :
  (memory_Set (mkMemory ∅ ∅ 60) 100 sample_record).2 = None
  ∧ memory_Get (memory_Set (mkMemory ∅ ∅ 60) 100 sample_record).1 160 (AS sample_record)
    = ((memory_Set (mkMemory ∅ ∅ 60) 100 sample_record).1, (sample_record, None)).
Proof.
  apply (memory_Set_then_Get (mkMemory ∅ ∅ 60) sample_record 100 160).
  vm_compute. discriminate.
Defined.

(** X11.  The later [Set] wins: storing a second record under the same AS
    number leaves the store as if the first had never been stored, so the
    first record is gone and the age of the entry counts from the second
    [Set]. *)
Theorem memory_Set_overwrites (m : memory) (r1 r2 : ASStorage) (T1 T2 : Z) :
  AS r1 = AS r2 →
  (memory_Set (memory_Set m T1 r1).1 T2 r2).1 = (memory_Set m T2 r2).1.
Proof.
  intros Hkey. unfold memory_Set. simpl. rewrite Hkey. by rewrite !insert_insert_eq.
Qed.

Lemma memory_Set_overwrites_witness :
  (memory_Set (memory_Set (mkMemory ∅ ∅ 60) 100 sample_record).1 500
     (mkASStorage "64496" [] [net_v6] false true)).1
  = (memory_Set (mkMemory ∅ ∅ 60) 500 (mkASStorage "64496" [] [net_v6] false true)).1.
Proof.
  apply (memory_Set_overwrites (mkMemory ∅ ∅ 60) sample_record
           (mkASStorage "64496" [] [net_v6] false true) 100 500).
  reflexivity.
Defined.

(** What a lookup does to the store: at most the entry it asked for goes. *)
Lemma memory_Get_other (m : memory) (now : Z) (k k' : string) :
  k ≠ k' →
  stor (memory_Get m now k).1 !! k' = stor m !! k'
  ∧ ttl (memory_Get m now k).1 !! k' = ttl m !! k'.
Proof.
  intros Hne. unfold memory_Get. destruct (stor m !! k) as [v|]; simpl; [|done].
  destruct (ttl m !! k) as [t|]; simpl.
  - destruct (maxTTL m <? Since now t); simpl; [|done].
    by rewrite !lookup_delete_ne.
  - by rewrite lookup_delete_ne.
Qed.

(** The answer of a lookup depends on the entry of its key, on the TTL and
    on the time, and on nothing else. *)
Lemma memory_Get_answer_ext (m m' : memory) (now : Z) (k : string) :
  stor m !! k = stor m' !! k → ttl m !! k = ttl m' !! k → maxTTL m = maxTTL m' →
  (memory_Get m now k).2 = (memory_Get m' now k).2.
Proof.
  intros Hs Ht Hmax. unfold memory_Get. rewrite <- Hs, <- Ht, <- Hmax.
  destruct (stor m !! k) as [v|]; simpl; [|done].
  destruct (ttl m !! k) as [t|]; simpl; [|done].
  by destruct (maxTTL m <? Since now t).
Qed.

(** X12.  Keys do not interfere: neither storing a record nor looking an
    AS number up, which may drop its stale entry, changes what a lookup of
    another AS number answers, at any time. *)
Theorem memory_keys_independent (m : memory) (rec : ASStorage) (T now now' : Z)
    (k k' : string) :
  AS rec ≠ k' → k ≠ k' →
  (memory_Get (memory_Set m T rec).1 now' k').2 = (memory_Get m now' k').2
  ∧ (memory_Get (memory_Get m now k).1 now' k').2 = (memory_Get m now' k').2.
Proof.
  intros Hrec Hk. split.
  - apply memory_Get_answer_ext; simpl; [by rewrite lookup_insert_ne .. | done].
  - destruct (memory_Get_other m now k k' Hk) as [Hs Ht].
    apply memory_Get_answer_ext; [done | done | apply memory_Get_maxTTL].
Qed.

Lemma memory_keys_independent_witness :
  (memory_Get (memory_Set sample_store 100 (mkASStorage "1234" [net_v4] [] true false)).1
     120 "64496").2
  = (memory_Get sample_store 120 "64496").2
  ∧ (memory_Get (memory_Get sample_store 500 "1234").1 120 "64496").2
    = (memory_Get sample_store 120 "64496").2.
Proof.
  apply (memory_keys_independent sample_store (mkASStorage "1234" [net_v4] [] true false)
           100 500 120 "1234" "64496"); discriminate.
Defined.

(** X13.  In every state an in-memory backend can come to, the records
    and the timestamps have the same keys, each record is stored under its
    own AS number, and the TTL is the one the backend was built with.  So
    the branch of [Get] for a record without a timestamp is never taken. *)
Theorem memory_invariant (t : Z) (m : memory) :
  reachable t m →
  maxTTL m = t
  ∧ dom (stor m) = dom (ttl m)
  ∧ (∀ (k : string) (v : ASStorage), stor m !! k = Some v → AS v = k).
Proof.
  induction 1 as [|m now k _ (Hmax & Hdom & Hkey)|m now r _ (Hmax & Hdom & Hkey)].
  - simpl. split; [done|]. split; [done | intros k v; by rewrite lookup_empty].
  - unfold memory_Get. destruct (stor m !! k) as [v|] eqn:Hv; simpl; [|done].
    destruct (ttl m !! k) as [tk|] eqn:Ht; simpl.
    + destruct (maxTTL m <? Since now tk); simpl; [|done].
      split; [done|]. split; [by rewrite !dom_delete_L, Hdom|].
      intros k' v'. rewrite lookup_delete. case_decide; [done | apply Hkey].
    + exfalso. apply not_elem_of_dom in Ht. apply Ht. rewrite <- Hdom.
      apply elem_of_dom. by eexists.
  - simpl. split; [done|]. split; [by rewrite !dom_insert_L, Hdom|].
    intros k' v'. rewrite lookup_insert. case_decide; [by intros [= <-] | apply Hkey].
Qed.

Lemma memory_invariant_witness :
  maxTTL sample_store = 60
  ∧ dom (stor sample_store) = dom (ttl sample_store)
  ∧ (∀ (k : string) (v : ASStorage), stor sample_store !! k = Some v → AS v = k).
Proof.
  apply (memory_invariant 60 sample_store).
  exact (reach_Set 60 (mkMemory ∅ ∅ 60) 100 sample_record (reach_new 60)).
Defined.

(** X15.  A storage that [NewStorage] has just built holds nothing:
    whatever the options it was built from, every lookup, at any time,
    answers [ErrASNotCached]. *)
Theorem NewStorage_is_empty (opts : StorageOptions) (b : Backend) (now : Z) (as_ : string) :
  NewStorage opts = (Some b, None) →
  (@Get (carrier b) (methods b) (state b) now as_).2 = (zero, Some ErrASNotCached).
Proof.
  unfold NewStorage. rewrite storages_lookup. case_bool_decide; [|discriminate].
  unfold newMemory. intros Hb. injection Hb as <-.
  cbn [carrier methods state Get memory_Storage].
  rewrite memory_Get_absent; [done | apply lookup_empty].
Qed.

Lemma NewStorage_is_empty_witness :
  (@Get (carrier (mkBackend memory memory_Storage (mkMemory ∅ ∅ 86400)))
     (methods (mkBackend memory memory_Storage (mkMemory ∅ ∅ 86400)))
     (state (mkBackend memory memory_Storage (mkMemory ∅ ∅ 86400))) 7 "1234").2
  = (zero, Some ErrASNotCached).
Proof.
  apply (NewStorage_is_empty (mkStorageOptions "default" 86400)
           (mkBackend memory memory_Storage (mkMemory ∅ ∅ 86400)) 7 "1234").
  unfold NewStorage. rewrite storages_lookup. reflexivity.
Defined.

(** ** The cached fetcher over the in-memory backend *)

(** A record that is live and has the versions asked for is no miss, and
    looking it up changes nothing. *)
Lemma cached_for_Get (ipv4 ipv6 : bool) (c : memory) (now : Z) (as_ : string) :
  cached_for ipv4 ipv6 c now as_ →
  ∃ rec : ASStorage,
    stor c !! as_ = Some rec
    ∧ memory_Get c now as_ = (c, (rec, None))
    ∧ uncached_test ipv4 ipv6 rec None = false.
Proof.
  intros (rec & t & Hs & Ht & Hlive & H4 & H6). exists rec. split; [done|].
  split; [by apply memory_Get_fresh with (t := t)|].
  unfold uncached_test. rewrite bool_decide_eq_false_2 by done.
  destruct ipv4, ipv6; simpl; rewrite ?H4, ?H6; done.
Qed.

(** The first loop when nothing is missing: the cache stays as it is,
    nothing is listed as uncached, and the entries of the batch are those
    of the cache. *)
Lemma lookup_range_all_hits (ipv4 ipv6 : bool) (now : Z) (c : memory) (asn : list string) :
  (∀ as_ : string, as_ ∈ asn → cached_for ipv4 ipv6 c now as_) →
  ∀ (uncached : list string) (result : mapping),
  ∃ result' : mapping,
    lookup_range ipv4 ipv6 now asn c uncached result = (c, inl (uncached, result'))
    ∧ ∀ k : string,
        result' !! k = if decide (k ∈ asn) then cached_entry ipv4 ipv6 <$> stor c !! k
                       else result !! k.
Proof.
  induction asn as [|a asn IH]; intros Hall uncached result.
  - exists result. split; [done|]. intros k. by rewrite decide_False by apply not_elem_of_nil.
  - destruct (cached_for_Get ipv4 ipv6 c now a) as (rec & Hs & Hget & Htest).
    { apply Hall. by left. }
    cbn [lookup_range Get memory_Storage]. rewrite Hget, Htest.
    assert (Hrest : ∀ x : string, x ∈ asn → cached_for ipv4 ipv6 c now x).
    { intros x Hx. apply Hall. by right. }
    destruct (IH Hrest uncached
                (<[a := cached_entry ipv4 ipv6 rec]> result)) as (result' & -> & Hres).
    exists result'. split; [done|]. intros k. rewrite Hres.
    destruct (decide (k ∈ asn)) as [Hin|Hout].
    + by rewrite decide_True by (by right).
    + destruct (decide (k = a)) as [->|Hne].
      * rewrite decide_True by (by left). by rewrite lookup_insert_eq, Hs.
      * rewrite lookup_insert_ne by done.
        rewrite decide_False; [done|]. rewrite elem_of_cons. naive_solver.
Qed.

(** X16.  When the in-memory cache holds, for every AS number of the
    batch, a live record with the versions asked for, the cached fetcher
    answers from the cache alone: the world is untouched (no dial), the
    cache is unchanged, and the mapping has, for each AS number of the
    batch and for nothing else, the networks of its record under the
    versions asked for and none under the other. *)
Theorem cached_all_hits (f : fetcher) (c : memory) (ipv4 ipv6 : bool) (asn : list string)
    (w : World) :
  (∀ as_ : string, as_ ∈ asn → cached_for ipv4 ipv6 c (now w) as_) →
  ∃ m : mapping,
    cachedFetcher_Fetch (mkCachedFetcher c f) ipv4 ipv6 asn w
    = (mkCachedFetcher c f, w, Return (Some m, None))
    ∧ ∀ k : string,
        m !! k = if decide (k ∈ asn) then cached_entry ipv4 ipv6 <$> stor c !! k else None.
Proof.
  intros Hall. unfold cachedFetcher_Fetch.
  destruct (length asn =? 0)%nat eqn:Hlen.
  - apply Nat.eqb_eq, nil_length_inv in Hlen. subst asn. exists ∅. split; [done|].
    intros k. rewrite lookup_empty. by rewrite decide_False by apply not_elem_of_nil.
  - cbn [cache embedded].
    destruct (lookup_range_all_hits ipv4 ipv6 (now w) c asn Hall [] ∅) as (m & -> & Hm).
    exists m. split; [done|]. intros k. rewrite Hm. by rewrite lookup_empty.
Qed.

Lemma cached_all_hits_witness :
  ∃ m : mapping,
    cachedFetcher_Fetch (mkCachedFetcher sample_store whois) true false ["64496"; "64496"]
      (sleep 130 two_peers)
    = (mkCachedFetcher sample_store whois, sleep 130 two_peers, Return (Some m, None))
    ∧ ∀ k : string,
        m !! k = if decide (k ∈ ["64496"; "64496"])
                 then cached_entry true false <$> stor sample_store !! k else None.
Proof.
  apply (cached_all_hits whois sample_store true false ["64496"; "64496"]
           (sleep 130 two_peers)).
  intros as_ Hin. assert (as_ = "64496") as ->.
  { apply elem_of_cons in Hin as [->|Hin]; [done|].
    apply elem_of_cons in Hin as [->|Hin]; [done|]. by apply elem_of_nil in Hin. }
  exists sample_record, 100. vm_compute. repeat split; try discriminate.
Defined.

(** A nil error of the plain fetcher comes with a mapping. *)
Lemma fetcher_Fetch_nil_error (f : fetcher) (ipv4 ipv6 : bool) (asn : list string) (w : World)
    (r : option mapping) :
  (fetcher_Fetch f ipv4 ipv6 asn w).2 = Return (r, None) → ∃ m : mapping, r = Some m.
Proof.
  unfold fetcher_Fetch. destruct (length asn =? 0)%nat; [intros [= <-]; by eexists|].
  destruct (Dial (address f) w) as [w1 [conn|e1]]; [|simpl; discriminate].
  unfold session. destruct (conn_Write conn ("!!" +:+ nl)) as [c0 [e0|]];
    [simpl; discriminate|].
  generalize (∅ : mapping). generalize c0. clear.
  induction asn as [|v asn IH]; intros c result; simpl; [intros [= <-]; by eexists|].
  destruct (fetch_into ipv4 4 "ipv4" v c _) as [c1 [[r1 [e1|]]|e1|]]; simpl; try discriminate.
  destruct (fetch_into ipv6 6 "ipv6" v c1 r1) as [c2 [[r2 [e2|]]|e2|]]; simpl;
    try discriminate.
  apply IH.
Qed.

(** A lookup keeps the live records that have what is asked for. *)
Lemma cached_for_preserved (ipv4 ipv6 : bool) (c : memory) (now : Z) (a k : string) :
  cached_for ipv4 ipv6 c now a → cached_for ipv4 ipv6 (memory_Get c now k).1 now a.
Proof.
  intros Hc. destruct (decide (k = a)) as [->|Hne].
  - destruct (cached_for_Get ipv4 ipv6 c now a Hc) as (rec & _ & -> & _). done.
  - destruct Hc as (rec & t & Hs & Ht & Hlive & H4 & H6).
    destruct (memory_Get_other c now k a Hne) as [Hs' Ht'].
    exists rec, t. rewrite Hs', Ht', memory_Get_maxTTL. done.
Qed.

(** A lookup adds nothing to the store. *)
Lemma memory_Get_shrinks (c : memory) (now : Z) (k k' : string) (rec : ASStorage) :
  stor (memory_Get c now k).1 !! k' = Some rec → stor c !! k' = Some rec.
Proof.
  unfold memory_Get. destruct (stor c !! k) as [v|]; simpl; [|done].
  destruct (ttl c !! k) as [t|]; simpl.
  - destruct (maxTTL c <? Since now t); simpl; [|done].
    rewrite lookup_delete. by case_decide.
  - rewrite lookup_delete. by case_decide.
Qed.

(** The first loop over the in-memory backend: it never fails; it adds
    nothing to the store; what it lists as uncached is taken from the
    batch in its order; and every AS number of the batch that it does not
    list has a live record with the versions asked for. *)
Lemma lookup_range_memory (ipv4 ipv6 : bool) (now : Z) (asn : list string) :
  ∀ (c : memory) (uncached : list string) (result : mapping),
  ∃ (c' : memory) (u : list string) (result' : mapping),
    lookup_range ipv4 ipv6 now asn c uncached result = (c', inl (uncached ++ u, result'))
    ∧ maxTTL c' = maxTTL c
    ∧ sublist u asn
    ∧ (∀ (k : string) (rec : ASStorage), stor c' !! k = Some rec → stor c !! k = Some rec)
    ∧ (∀ a : string, cached_for ipv4 ipv6 c now a → cached_for ipv4 ipv6 c' now a)
    ∧ (∀ a : string, a ∈ asn → a ∈ u ∨ cached_for ipv4 ipv6 c' now a).
Proof.
  induction asn as [|a asn IH]; intros c uncached result.
  - exists c, [], result. simpl. rewrite app_nil_r.
    repeat split; try done. intros a Ha. by apply elem_of_nil in Ha.
  - cbn [lookup_range Get memory_Storage].
    pose proof (memory_Get_error c now a) as Herr.
    pose proof (memory_Get_maxTTL c now a) as Hmax.
    pose proof (λ k' rec, memory_Get_shrinks c now a k' rec) as Hshrink.
    pose proof (λ x, cached_for_preserved ipv4 ipv6 c now x a) as Hkeep.
    destruct (memory_Get c now a) as [c1 [r err]] eqn:Hget. cbn [fst snd] in *.
    destruct (uncached_test ipv4 ipv6 r err) eqn:Htest.
    + destruct (IH c1 (uncached ++ [a]) result)
        as (c' & u & result' & -> & Hmax' & Hsub & Hshr & Hpres & Hin).
      exists c', (a :: u), result'. rewrite <- app_assoc. split; [done|].
      split; [congruence|]. split; [by constructor|].
      split; [naive_solver|]. split; [naive_solver|].
      intros x Hx. apply elem_of_cons in Hx as [->|Hx].
      * left. by left.
      * destruct (Hin x Hx); [left; by right | by right].
    + destruct err as [e|].
      { destruct (Herr e eq_refl) as [-> _]. unfold uncached_test in Htest.
        by rewrite bool_decide_eq_true_2 in Htest. }
      destruct (IH c1 uncached (<[a := cached_entry ipv4 ipv6 r]> result))
        as (c' & u & result' & -> & Hmax' & Hsub & Hshr & Hpres & Hin).
      exists c', u, result'. split; [done|].
      split; [congruence|]. split; [by apply sublist_cons|].
      split; [naive_solver|]. split; [naive_solver|].
      intros x Hx. apply elem_of_cons in Hx as [->|Hx]; [|by apply Hin].
      right. apply Hpres.
      (* the record of [a] was live and complete when it was looked up *)
      assert (Hlive : (memory_Get c now a).2.2 = None) by (by rewrite Hget).
      destruct (memory_Get_live c now a Hlive) as (v & Hv & Hget').
      rewrite Hget in Hget'. injection Hget' as -> ->.
      unfold memory_Get in Hget. rewrite Hv in Hget.
      destruct (ttl c !! a) as [t|] eqn:Ht; [|discriminate].
      destruct (maxTTL c <? Since now t) eqn:Hcmp; [discriminate|].
      exists v, t. split; [done|]. split; [done|]. split; [lia|].
      unfold uncached_test in Htest. rewrite bool_decide_eq_false_2 in Htest by done.
      simpl in Htest. apply orb_false_iff in Htest as [H4 H6].
      split; intros ->; simpl in *; by apply negb_false_iff.
Qed.

(** The last loop over the in-memory backend: it never fails, and it
    leaves under each key of the fetched entries the record made of that
    entry and of the flags of the call, stamped with the time of the
    loop; the other keys keep what they had.  The mapping gets the fetched
    entries in the same way. *)
Lemma store_range_memory (ipv4 ipv6 : bool) (now : Z)
    (entries : list (string * gmap string (list net.IPNet))) :
  NoDup entries.*1 →
  ∀ (c : memory) (result : mapping),
  ∃ (c' : memory) (result' : mapping),
    store_range ipv4 ipv6 now entries c result = (c', (Some result', None))
    ∧ maxTTL c' = maxTTL c
    ∧ (∀ k : string,
         stor c' !! k
         = match (list_to_map entries : mapping) !! k with
           | Some v => Some (record_of ipv4 ipv6 k v)
           | None => stor c !! k
           end)
    ∧ (∀ k : string,
         ttl c' !! k
         = match (list_to_map entries : mapping) !! k with
           | Some _ => Some now
           | None => ttl c !! k
           end)
    ∧ (∀ k : string,
         result' !! k
         = match (list_to_map entries : mapping) !! k with
           | Some v => Some (returned_entry v)
           | None => result !! k
           end).
Proof.
  induction entries as [|[a v] entries IH]; intros Hnodup c result.
  - exists c, result. simpl. repeat split; intros k; by rewrite lookup_empty.
  - apply NoDup_cons in Hnodup as [Hfresh Hnodup].
    cbn [store_range SetAS memory_Storage memory_Set].
    destruct (IH Hnodup
                (mkMemory (<[a := record_of ipv4 ipv6 a v]> (stor c)) (<[a := now]> (ttl c))
                   (maxTTL c))
                (<[a := returned_entry v]> result))
      as (c' & result' & Hrun & Hmax & Hstor & Httl & Hres).
    exists c', result'. split; [exact Hrun|]. split; [done|].
    assert (Hnone : (list_to_map entries : mapping) !! a = None).
    { by apply not_elem_of_list_to_map_1. }
    split; [|split]; intros k; [rewrite Hstor | rewrite Httl | rewrite Hres]; simpl;
      (destruct (decide (k = a)) as [->|Hne];
       [rewrite Hnone, !lookup_insert_eq; done
       | rewrite !(lookup_insert_ne _ a k) by done; done]).
Qed.

(** X17.  After a call of the cached fetcher over the in-memory backend
    that returns a mapping, the cache holds a record for every AS number
    of the batch, with the flag set of every version that was asked for. *)
Theorem cached_success_records (f : fetcher) (c : memory) (ipv4 ipv6 : bool)
    (asn : list string) (w w' : World) (f' : cachedFetcher memory) (m : mapping) :
  cachedFetcher_Fetch (mkCachedFetcher c f) ipv4 ipv6 asn w = (f', w', Return (Some m, None)) →
  ∀ a : string, a ∈ asn → recorded ipv4 ipv6 (cache f') a.
Proof.
  unfold cachedFetcher_Fetch. destruct (length asn =? 0)%nat eqn:Hlen.
  { apply Nat.eqb_eq, nil_length_inv in Hlen. subst asn.
    intros _ a Ha. by apply elem_of_nil in Ha. }
  cbn [cache embedded].
  destruct (lookup_range_memory ipv4 ipv6 (now w) asn c [] ∅)
    as (c1 & u & result & -> & _ & _ & _ & _ & Hin).
  cbn [app].
  assert (Hhit : ∀ a, cached_for ipv4 ipv6 c1 (now w) a → recorded ipv4 ipv6 c1 a).
  { intros a (rec & t & Hs & _ & _ & H4 & H6). by exists rec. }
  destruct (length u =? 0)%nat eqn:Hu.
  { apply Nat.eqb_eq, nil_length_inv in Hu. subst u. intros [= <- _ _] a Ha.
    cbn [cache]. destruct (Hin a Ha) as [Hnil|Hc]; [by apply elem_of_nil in Hnil | auto]. }
  pose proof (fetcher_Fetch_nil_error f ipv4 ipv6 u w) as Hsome.
  pose proof (fetcher_Fetch_shape f ipv4 ipv6 u w) as Hshape.
  destruct (fetcher_Fetch f ipv4 ipv6 u w) as [w1 [[r [e|]]|e|]]; cbn [fst snd] in *;
    try discriminate.
  destruct (Hsome r eq_refl) as [mf ->]. destruct (Hshape mf eq_refl) as [Hdom _].
  cbn [default from_option id].
  destruct (store_range_memory ipv4 ipv6 (now w1) (map_to_list mf)
              (NoDup_fst_map_to_list mf) c1 result)
    as (c2 & result2 & -> & _ & Hstor & _).
  intros [= <- _ _] a Ha. cbn [cache].
  unfold recorded. rewrite Hstor, list_to_map_to_list.
  destruct (mf !! a) as [v|] eqn:Hv.
  - exists (record_of ipv4 ipv6 a v). done.
  - destruct (Hin a Ha) as [Hmiss|Hc]; [|by apply Hhit].
    apply not_elem_of_dom in Hv. rewrite Hdom in Hv.
    exfalso. apply Hv. by apply elem_of_list_to_set.
Qed.

Lemma cached_success_records_witness :
  recorded true false (cache first_call.1.1) "1234".
Proof.
  apply (cached_success_records whois (mkMemory ∅ ∅ 60) true false ["1234"] two_peers
           first_call.1.2 first_call.1.1
           {[ "1234" := <["ipv4" := [net_v4]]> (<["ipv6" := []]> ∅) ]}).
  - vm_compute. reflexivity.
  - by left.
Defined.

(** ** The cached fetcher over any backend *)

(** Whatever the backend, what the first loop lists as uncached is taken
    from the batch, in its order. *)
Lemma lookup_range_sublist (S : Type) (backend : Storage S) (ipv4 ipv6 : bool) (now : Z)
    (asn : list string) :
  ∀ (c c' : S) (uncached uncached' : list string) (result result' : mapping),
    lookup_range ipv4 ipv6 now asn c uncached result = (c', inl (uncached', result')) →
    ∃ u : list string, uncached' = uncached ++ u ∧ sublist u asn.
Proof.
  induction asn as [|a asn IH]; intros c c' uncached uncached' result result'; simpl.
  - intros [= _ <- _]. exists []. by rewrite app_nil_r.
  - destruct (Get c now a) as [c1 [r err]].
    destruct (uncached_test ipv4 ipv6 r err).
    + intros Hrun. destruct (IH _ _ _ _ _ _ Hrun) as (u & -> & Hsub).
      exists (a :: u). rewrite <- app_assoc. split; [done | by constructor].
    + destruct err as [e|]; [discriminate|].
      intros Hrun. destruct (IH _ _ _ _ _ _ Hrun) as (u & -> & Hsub).
      exists u. split; [done | by apply sublist_cons].
Qed.

(** X18.  One call of the cached fetcher costs at most one round trip,
    whatever the backend and however many AS numbers are missing: either
    the world is untouched, or it is the world the plain fetcher leaves
    for one batch, which is not empty and is taken from the batch of the
    call in its order. *)
Theorem cached_one_round_trip (S : Type) (backend : Storage S) (f : cachedFetcher S)
    (ipv4 ipv6 : bool) (asn : list string) (w : World) :
  (cachedFetcher_Fetch f ipv4 ipv6 asn w).1.2 = w
  ∨ ∃ uncached : list string,
      uncached ≠ [] ∧ sublist uncached asn
      ∧ (cachedFetcher_Fetch f ipv4 ipv6 asn w).1.2
        = (fetcher_Fetch (embedded f) ipv4 ipv6 uncached w).1
      ∧ length (history (cachedFetcher_Fetch f ipv4 ipv6 asn w).1.2)
        = Datatypes.S (length (history w)).
Proof.
  unfold cachedFetcher_Fetch. destruct (length asn =? 0)%nat; [by left|].
  destruct (lookup_range ipv4 ipv6 (now w) asn (cache f) [] ∅) as [c [[uncached result]|e]]
    eqn:Hlook; [|by left].
  destruct (length uncached =? 0)%nat eqn:Hu; [by left|].
  right. exists uncached.
  destruct (lookup_range_sublist S backend ipv4 ipv6 (now w) asn _ _ _ _ _ _ Hlook)
    as (u & -> & Hsub).
  assert (Hne : [] ++ u ≠ []).
  { intros Hnil. rewrite Hnil in Hu. discriminate. }
  split; [done|]. split; [done|]. cbn [embedded cache].
  destruct (fetcher_Fetch_dials (embedded f) ipv4 ipv6 ([] ++ u) w Hne) as [rec Hrec].
  destruct (fetcher_Fetch (embedded f) ipv4 ipv6 ([] ++ u) w) as [w1 o]. cbn [fst] in Hrec.
  assert (Hlen : length (history w1) = Datatypes.S (length (history w))).
  { rewrite Hrec, length_app. simpl. lia. }
  destruct o as [[r [e|]]|e|]; cbn [fst snd]; try done.
  by destruct (store_range ipv4 ipv6 (now w1) (map_to_list (default ∅ r)) c result).
Qed.

(** X19.  A call of the cached fetcher over the in-memory backend that
    does not return a mapping (the plain fetcher failed or panicked) has
    written nothing to the cache: every record the cache holds afterwards
    was there before. *)
Theorem cached_failure_stores_nothing (f : fetcher) (c : memory) (ipv4 ipv6 : bool)
    (asn : list string) (w : World) :
  (∀ m : mapping,
     (cachedFetcher_Fetch (mkCachedFetcher c f) ipv4 ipv6 asn w).2 ≠ Return (Some m, None)) →
  ∀ (k : string) (rec : ASStorage),
    stor (cache (cachedFetcher_Fetch (mkCachedFetcher c f) ipv4 ipv6 asn w).1.1) !! k = Some rec →
    stor c !! k = Some rec.
Proof.
  unfold cachedFetcher_Fetch. destruct (length asn =? 0)%nat; [done|].
  cbn [cache embedded].
  destruct (lookup_range_memory ipv4 ipv6 (now w) asn c [] ∅)
    as (c1 & u & result & -> & _ & _ & Hshr & _ & _).
  cbn [app]. destruct (length u =? 0)%nat; [done|].
  destruct (fetcher_Fetch f ipv4 ipv6 u w) as [w1 [[r [e|]]|e|]]; cbn [fst snd cache];
    try done.
  intros Hfail. exfalso.
  destruct (store_range_memory ipv4 ipv6 (now w1) (map_to_list (default ∅ r))
              (NoDup_fst_map_to_list _) c1 result) as (c2 & result2 & Hrun & _).
  rewrite Hrun in Hfail. by apply (Hfail result2).
Qed.

Lemma cached_failure_stores_nothing_witness :
  stor sample_store !! "64496" = Some sample_record.
Proof.
  apply (cached_failure_stores_nothing whois sample_store true true ["64496"; "9999"]
           (quiet [Accept ("D" +:+ nl) [] 5])).
  - intros m. vm_compute. discriminate.
  - vm_compute. reflexivity.
Defined.

(** ** What is fetched and what a repeated call returns *)

(** Looking the same AS number up again at the same instant gives the same
    answer. *)
Lemma memory_Get_twice (c : memory) (now : Z) (a : string) :
  (memory_Get (memory_Get c now a).1 now a).2 = (memory_Get c now a).2.
Proof.
  unfold memory_Get at 2 3. destruct (stor c !! a) as [v|] eqn:Hv; simpl.
  - destruct (ttl c !! a) as [t|] eqn:Ht; simpl.
    + destruct (maxTTL c <? Since now t) eqn:Hcmp; simpl.
      * rewrite memory_Get_absent; [done | simpl; apply lookup_delete_eq].
      * unfold memory_Get. by rewrite Hv, Ht, Hcmp.
    + rewrite memory_Get_absent; [done | simpl; apply lookup_delete_eq].
  - by rewrite memory_Get_absent.
Qed.

(** A lookup, of any AS number, does not change what the first loop takes
    for cached at that instant. *)
Lemma is_cached_Get (ipv4 ipv6 : bool) (c : memory) (now : Z) (k a : string) :
  is_cached ipv4 ipv6 (memory_Get c now k).1 now a = is_cached ipv4 ipv6 c now a.
Proof.
  unfold is_cached. destruct (decide (k = a)) as [->|Hne].
  - by rewrite memory_Get_twice.
  - destruct (memory_Get_other c now k a Hne) as [Hs Ht].
    by rewrite (memory_Get_answer_ext (memory_Get c now k).1 c now a Hs Ht
                  (memory_Get_maxTTL c now k)).
Qed.

(** What is taken for cached is in the store, and looking it up changes
    nothing. *)
Lemma is_cached_Get_hit (ipv4 ipv6 : bool) (c : memory) (now : Z) (a : string) :
  is_cached ipv4 ipv6 c now a = true →
  ∃ rec : ASStorage, stor c !! a = Some rec ∧ memory_Get c now a = (c, (rec, None)).
Proof.
  unfold is_cached. intros Hc. apply negb_true_iff in Hc.
  destruct ((memory_Get c now a).2.2) as [e|] eqn:Herr.
  - destruct (memory_Get_error c now a e Herr) as [-> _].
    unfold uncached_test in Hc.
    by rewrite bool_decide_eq_true_2 in Hc.
  - by apply memory_Get_live.
Qed.

(** What is taken for cached is a live record with the versions asked for,
    and the other way round. *)
Lemma is_cached_spec (ipv4 ipv6 : bool) (c : memory) (now : Z) (a : string) :
  is_cached ipv4 ipv6 c now a = true ↔ cached_for ipv4 ipv6 c now a.
Proof.
  split.
  - intros Hc. destruct (is_cached_Get_hit ipv4 ipv6 c now a Hc) as (rec & Hs & Hget).
    unfold is_cached in Hc. rewrite Hget in Hc. cbn [fst snd] in Hc.
    apply negb_true_iff in Hc. unfold uncached_test in Hc.
    rewrite bool_decide_eq_false_2 in Hc by done. simpl in Hc.
    apply orb_false_iff in Hc as [H4 H6].
    unfold memory_Get in Hget. rewrite Hs in Hget.
    destruct (ttl c !! a) as [t|] eqn:Ht; [|discriminate].
    destruct (maxTTL c <? Since now t) eqn:Hcmp; [discriminate|].
    exists rec, t. split; [done|]. split; [done|]. split; [lia|].
    split; intros ->; simpl in *; by apply negb_false_iff.
  - intros Hc. destruct (cached_for_Get ipv4 ipv6 c now a Hc) as (rec & _ & Hget & Htest).
    unfold is_cached. rewrite Hget. cbn [fst snd]. by rewrite Htest.
Qed.

(** The first loop over the in-memory backend, in full: it lists as
    uncached the AS numbers of the batch that are not cached, in the order
    and as often as they come; it keeps the cached records; and it puts
    their entries into the mapping. *)
Lemma lookup_range_memory_spec (ipv4 ipv6 : bool) (now : Z) (asn : list string) :
  ∀ (c : memory) (uncached : list string) (result : mapping),
  ∃ (c' : memory) (result' : mapping),
    lookup_range ipv4 ipv6 now asn c uncached result
    = (c', inl (uncached ++ filter (λ a, is_cached ipv4 ipv6 c now a = false) asn, result'))
    ∧ (∀ k : string, is_cached ipv4 ipv6 c now k = true → stor c' !! k = stor c !! k)
    ∧ (∀ k : string,
         result' !! k
         = if bool_decide (k ∈ asn) && is_cached ipv4 ipv6 c now k
           then cached_entry ipv4 ipv6 <$> stor c !! k
           else result !! k).
Proof.
  induction asn as [|a asn IH]; intros c uncached result.
  - exists c, result. split; [simpl; by rewrite app_nil_r|]. split; [done|].
    intros k. rewrite bool_decide_eq_false_2 by apply not_elem_of_nil. done.
  - cbn [lookup_range Get memory_Storage].
    destruct (is_cached ipv4 ipv6 c now a) eqn:Ha.
    + (* cached *)
      destruct (is_cached_Get_hit ipv4 ipv6 c now a Ha) as (rec & Hs & Hget).
      assert (Htest : uncached_test ipv4 ipv6 rec None = false).
      { unfold is_cached in Ha. rewrite Hget in Ha. by apply negb_true_iff in Ha. }
      rewrite Hget, Htest.
      destruct (IH c uncached (<[a := cached_entry ipv4 ipv6 rec]> result))
        as (c' & result' & -> & Hkeep & Hres).
      exists c', result'. rewrite filter_cons_False by (by rewrite Ha).
      split; [done|]. split; [done|]. intros k. rewrite Hres.
      destruct (decide (k = a)) as [->|Hne].
      * rewrite Ha, lookup_insert_eq, Hs.
        rewrite (bool_decide_eq_true_2 (a ∈ a :: asn)) by (by left).
        by destruct (bool_decide (a ∈ asn)).
      * rewrite lookup_insert_ne by done.
        replace (bool_decide (k ∈ a :: asn)) with (bool_decide (k ∈ asn)); [done|].
        apply bool_decide_ext. rewrite elem_of_cons. naive_solver.
    + (* not cached *)
      assert (Htest : uncached_test ipv4 ipv6 (memory_Get c now a).2.1
                        (memory_Get c now a).2.2 = true).
      { unfold is_cached in Ha. by apply negb_false_iff in Ha. }
      pose proof (λ k, is_cached_Get ipv4 ipv6 c now a k) as Hsame.
      pose proof (λ k (Hne : a ≠ k), proj1 (memory_Get_other c now a k Hne)) as Hother.
      destruct (memory_Get c now a) as [c1 [r err]]. cbn [fst snd] in *. rewrite Htest.
      destruct (IH c1 (uncached ++ [a]) result) as (c' & result' & -> & Hkeep & Hres).
      exists c', result'. rewrite filter_cons_True by done.
      rewrite <- app_assoc. cbn [app].
      assert (Hfilter : filter (λ x, is_cached ipv4 ipv6 c1 now x = false) asn
                        = filter (λ x, is_cached ipv4 ipv6 c now x = false) asn).
      { apply list_filter_iff. intros x. by rewrite Hsame. }
      rewrite Hfilter. split; [done|].
      assert (Hne : ∀ k, is_cached ipv4 ipv6 c now k = true → a ≠ k).
      { intros k Hk ->. congruence. }
      split.
      * intros k Hk. rewrite Hkeep by (by rewrite Hsame). by apply Hother, Hne.
      * intros k. rewrite Hres, Hsame.
        destruct (is_cached ipv4 ipv6 c now k) eqn:Hk; [|by rewrite !andb_false_r].
        rewrite !andb_true_r, (Hother k (Hne k Hk)).
        replace (bool_decide (k ∈ a :: asn)) with (bool_decide (k ∈ asn)); [done|].
        apply bool_decide_ext. rewrite elem_of_cons.
        pose proof (Hne k Hk). naive_solver.
Qed.

(** The entry that is served from the record of a fetched entry is the
    entry that was returned when it was fetched. *)
Lemma cached_entry_of_record (ipv4 ipv6 : bool) (k : string)
    (v : gmap string (list net.IPNet)) :
  entry_shape ipv4 ipv6 v →
  cached_entry ipv4 ipv6 (record_of ipv4 ipv6 k v) = returned_entry v.
Proof.
  intros (_ & H4 & H6). unfold cached_entry, returned_entry, record_of, fresh_entry, at_key.
  cbn [IPv4 IPv6].
  apply map_eq. intros key.
  destruct ipv4, ipv6; rewrite ?H4, ?H6 by done; cbn [default from_option id];
    repeat (rewrite lookup_insert; case_decide; [done|]); done.
Qed.

(** A record that a lookup finds live, and that has the versions asked
    for, is cached. *)
Lemma live_record_cached (ipv4 ipv6 : bool) (c : memory) (now : Z) (a : string)
    (rec : ASStorage) :
  (memory_Get c now a).2.2 = None → stor c !! a = Some rec →
  (ipv4 = true → FetchedIPv4 rec = true) → (ipv6 = true → FetchedIPv6 rec = true) →
  cached_for ipv4 ipv6 c now a.
Proof.
  intros Hlive Hs H4 H6. unfold memory_Get in Hlive. rewrite Hs in Hlive.
  destruct (ttl c !! a) as [t|] eqn:Ht; [|discriminate].
  destruct (maxTTL c <? Since now t) eqn:Hcmp; [discriminate|].
  exists rec, t. repeat split; try done. lia.
Qed.

(** A successful call of the cached fetcher over the in-memory backend, in
    full.  The plain fetcher was run on the AS numbers that were not
    cached (on none of them, when all were cached) and returned a mapping
    [mf]; the mapping of the call has the fetched entries and, for the AS
    numbers of the batch that were cached, the entries of their records;
    the cache has the records of the fetched entries and has kept the
    records that were cached. *)
Lemma cached_call_memory (f : fetcher) (c : memory) (ipv4 ipv6 : bool) (asn : list string)
    (w w1 : World) (f1 : cachedFetcher memory) (m1 : mapping) :
  cachedFetcher_Fetch (mkCachedFetcher c f) ipv4 ipv6 asn w = (f1, w1, Return (Some m1, None)) →
  ∃ mf : mapping,
    fetcher_Fetch f ipv4 ipv6 (filter (λ a, is_cached ipv4 ipv6 c (now w) a = false) asn) w
    = (w1, Return (Some mf, None))
    ∧ embedded f1 = f
    ∧ (∀ k : string,
         m1 !! k
         = match mf !! k with
           | Some v => Some (returned_entry v)
           | None =>
               if bool_decide (k ∈ asn) && is_cached ipv4 ipv6 c (now w) k
               then cached_entry ipv4 ipv6 <$> stor c !! k
               else None
           end)
    ∧ (∀ k : string,
         is_cached ipv4 ipv6 c (now w) k = true ∨ is_Some (mf !! k) →
         stor (cache f1) !! k
         = match mf !! k with
           | Some v => Some (record_of ipv4 ipv6 k v)
           | None => stor c !! k
           end).
Proof.
  unfold cachedFetcher_Fetch. destruct (length asn =? 0)%nat eqn:Hlen.
  { apply Nat.eqb_eq, nil_length_inv in Hlen. subst asn. intros [= <- <- <-].
    exists ∅. split; [done|]. split; [done|].
    split; intros k; by rewrite !lookup_empty. }
  cbn [cache embedded].
  destruct (lookup_range_memory_spec ipv4 ipv6 (now w) asn c [] ∅)
    as (c' & result' & -> & Hkeep & Hres).
  cbn [app]. set (u := filter (λ a, is_cached ipv4 ipv6 c (now w) a = false) asn).
  destruct (length u =? 0)%nat eqn:Hu.
  { apply Nat.eqb_eq, nil_length_inv in Hu. rewrite Hu. intros [= <- <- <-].
    exists ∅. split; [done|]. split; [done|]. split; intros k.
    - rewrite Hres. by rewrite !lookup_empty.
    - rewrite lookup_empty. intros [Hk|[? [=]]]. cbn [cache]. by apply Hkeep. }
  pose proof (fetcher_Fetch_nil_error f ipv4 ipv6 u w) as Hsome.
  destruct (fetcher_Fetch f ipv4 ipv6 u w) as [w' [[r [e|]]|e|]]; cbn [fst snd] in *;
    try discriminate.
  destruct (Hsome r eq_refl) as [mf ->]. cbn [default from_option id].
  destruct (store_range_memory ipv4 ipv6 (now w') (map_to_list mf)
              (NoDup_fst_map_to_list mf) c' result')
    as (c2 & result2 & -> & _ & Hstor & _ & Hres2).
  rewrite list_to_map_to_list in Hstor, Hres2.
  intros [= <- <- <-]. exists mf. split; [done|]. split; [done|]. split; intros k.
  - rewrite Hres2, Hres. by rewrite lookup_empty.
  - intros Hk. cbn [cache]. rewrite Hstor.
    destruct (mf !! k) as [v|] eqn:Hv; [done|].
    destruct Hk as [Hk|[? [=]]]. by apply Hkeep.
Qed.

(** X20.  Over the in-memory backend the cached fetcher goes to the
    network for exactly the AS numbers of the batch that have no live
    record with the versions asked for, in the order and as often as the
    batch has them, all in one batch of the plain fetcher; with every AS
    number cached that batch is empty and nothing is dialled.  This holds
    whatever the outcome of the call. *)
Theorem cached_fetches_the_missing (f : fetcher) (c : memory) (ipv4 ipv6 : bool)
    (asn : list string) (w : World) :
  (cachedFetcher_Fetch (mkCachedFetcher c f) ipv4 ipv6 asn w).1.2
  = (fetcher_Fetch f ipv4 ipv6
       (filter (λ a, is_cached ipv4 ipv6 c (now w) a = false) asn) w).1
  ∧ (∀ a : string,
       is_cached ipv4 ipv6 c (now w) a = true ↔ cached_for ipv4 ipv6 c (now w) a).
Proof.
  split; [|intros a; apply is_cached_spec].
  unfold cachedFetcher_Fetch. destruct (length asn =? 0)%nat eqn:Hlen.
  { apply Nat.eqb_eq, nil_length_inv in Hlen. by subst asn. }
  cbn [cache embedded].
  destruct (lookup_range_memory_spec ipv4 ipv6 (now w) asn c [] ∅)
    as (c' & result' & -> & _ & _).
  cbn [app]. set (u := filter (λ a, is_cached ipv4 ipv6 c (now w) a = false) asn).
  destruct (length u =? 0)%nat eqn:Hu.
  { apply Nat.eqb_eq, nil_length_inv in Hu. by rewrite Hu. }
  destruct (fetcher_Fetch f ipv4 ipv6 u w) as [w' [[r [e|]]|e|]]; cbn [fst snd]; try done.
  by destruct (store_range ipv4 ipv6 (now w') (map_to_list (default ∅ r)) c' result').
Qed.

(** X21.  What a successful call of the cached fetcher over the in-memory
    backend returns: the plain fetcher has returned a mapping [mf] for the
    AS numbers that were not cached; the mapping of the call has, for
    those, the networks of [mf] under both version keys, for the other AS
    numbers of the batch the networks of their records under the versions
    asked for and none under the other, and nothing else. *)
Theorem cached_result_merges (f : fetcher) (c : memory) (ipv4 ipv6 : bool)
    (asn : list string) (w w1 : World) (f1 : cachedFetcher memory) (m1 : mapping) :
  cachedFetcher_Fetch (mkCachedFetcher c f) ipv4 ipv6 asn w = (f1, w1, Return (Some m1, None)) →
  ∃ mf : mapping,
    fetcher_Fetch f ipv4 ipv6 (filter (λ a, is_cached ipv4 ipv6 c (now w) a = false) asn) w
    = (w1, Return (Some mf, None))
    ∧ (∀ k : string,
         m1 !! k
         = match mf !! k with
           | Some v => Some (returned_entry v)
           | None =>
               if bool_decide (k ∈ asn) && is_cached ipv4 ipv6 c (now w) k
               then cached_entry ipv4 ipv6 <$> stor c !! k
               else None
           end).
Proof.
  intros Hcall. destruct (cached_call_memory f c ipv4 ipv6 asn w w1 f1 m1 Hcall)
    as (mf & Hplain & _ & Hm1 & _).
  by exists mf.
Qed.

Lemma cached_result_merges_witness :
  ∃ mf : mapping,
    fetcher_Fetch whois true false
      (filter (λ a, is_cached true false sample_store (now (sleep 130 two_peers)) a = false)
         ["64496"; "1234"])
      (sleep 130 two_peers)
    = ((cachedFetcher_Fetch (mkCachedFetcher sample_store whois) true false ["64496"; "1234"]
          (sleep 130 two_peers)).1.2,
       Return (Some mf, None))
    ∧ (∀ k : string,
         ({[ "1234" := returned_entry (<["ipv4" := [net_v4]]> fresh_entry);
             "64496" := fresh_entry ]} : mapping) !! k
         = match mf !! k with
           | Some v => Some (returned_entry v)
           | None =>
               if bool_decide (k ∈ ["64496"; "1234"])
                  && is_cached true false sample_store (now (sleep 130 two_peers)) k
               then cached_entry true false <$> stor sample_store !! k
               else None
           end).
Proof.
  apply (cached_result_merges whois sample_store true false ["64496"; "1234"]
           (sleep 130 two_peers)
           (cachedFetcher_Fetch (mkCachedFetcher sample_store whois) true false
              ["64496"; "1234"] (sleep 130 two_peers)).1.2
           (cachedFetcher_Fetch (mkCachedFetcher sample_store whois) true false
              ["64496"; "1234"] (sleep 130 two_peers)).1.1).
  vm_compute. reflexivity.
Defined.

(** X22.  A call that is repeated is served from the cache.  After a
    successful call of the cached fetcher over the in-memory backend, the
    same call again, at a time when no record of the batch has expired,
    dials nothing, leaves the cache as it is and returns the same
    mapping. *)
Theorem cached_repeat_call (f : fetcher) (c : memory) (ipv4 ipv6 : bool) (asn : list string)
    (w w1 w2 : World) (f1 : cachedFetcher memory) (m1 : mapping) :
  cachedFetcher_Fetch (mkCachedFetcher c f) ipv4 ipv6 asn w = (f1, w1, Return (Some m1, None)) →
  (∀ a : string, a ∈ asn → (memory_Get (cache f1) (now w2) a).2.2 = None) →
  cachedFetcher_Fetch f1 ipv4 ipv6 asn w2 = (f1, w2, Return (Some m1, None)).
Proof.
  intros Hcall Hlive.
  destruct (cached_call_memory f c ipv4 ipv6 asn w w1 f1 m1 Hcall)
    as (mf & Hplain & Hemb & Hm1 & Hstor).
  destruct f1 as [c1 f']. cbn [cache embedded] in *. subst f'.
  (* the fetched mapping has the AS numbers that were missing *)
  assert (Hshape : dom mf = list_to_set
                     (filter (λ a, is_cached ipv4 ipv6 c (now w) a = false) asn)
                   ∧ ∀ v e, mf !! v = Some e → entry_shape ipv4 ipv6 e).
  { apply (fetcher_Fetch_shape f ipv4 ipv6 _ w). by rewrite Hplain. }
  destruct Hshape as [Hdom Hshape].
  assert (Hcases : ∀ a, a ∈ asn →
            is_cached ipv4 ipv6 c (now w) a = true ∧ mf !! a = None ∨ is_Some (mf !! a)).
  { intros a Ha. destruct (is_cached ipv4 ipv6 c (now w) a) eqn:Hc.
    - left. split; [done|]. apply not_elem_of_dom. rewrite Hdom.
      rewrite elem_of_list_to_set, list_elem_of_filter. intros [Hf _]. congruence.
    - right. apply elem_of_dom. rewrite Hdom.
      by rewrite elem_of_list_to_set, list_elem_of_filter. }
  assert (Honly : ∀ k, is_Some (mf !! k) → k ∈ asn).
  { intros k Hk. apply elem_of_dom in Hk. rewrite Hdom in Hk.
    rewrite elem_of_list_to_set, list_elem_of_filter in Hk. by destruct Hk. }
  (* every AS number of the batch is cached at the second call *)
  assert (Hall : ∀ a, a ∈ asn → cached_for ipv4 ipv6 c1 (now w2) a).
  { intros a Ha. destruct (Hcases a Ha) as [[Hc Hnone]|[v Hv]].
    - apply is_cached_spec in Hc as Hfor. destruct Hfor as (rec & t & Hs & _ & _ & H4 & H6).
      apply live_record_cached with (rec := rec); [by apply Hlive | | done | done].
      rewrite Hstor by (by left). by rewrite Hnone.
    - apply live_record_cached with (rec := record_of ipv4 ipv6 a v);
        [by apply Hlive | | done | done].
      rewrite Hstor by (right; by eexists). by rewrite Hv. }
  unfold cachedFetcher_Fetch. destruct (length asn =? 0)%nat eqn:Hlen.
  { apply Nat.eqb_eq, nil_length_inv in Hlen. subst asn. do 2 f_equal.
    f_equal. f_equal. apply map_eq. intros k. rewrite Hm1, lookup_empty.
    destruct (mf !! k) as [v|] eqn:Hv; [|done].
    assert (Hin : k ∈ @nil string) by (apply Honly; by eexists). by apply elem_of_nil in Hin. }
  cbn [cache embedded].
  destruct (lookup_range_all_hits ipv4 ipv6 (now w2) c1 asn Hall [] ∅) as (m2 & -> & Hm2).
  cbn [length Nat.eqb]. do 4 f_equal. apply map_eq. intros k. rewrite Hm2, Hm1, lookup_empty.
  destruct (decide (k ∈ asn)) as [Hin|Hout].
  - rewrite bool_decide_eq_true_2 by done.
    destruct (Hcases k Hin) as [[Hc Hnone]|[v Hv]].
    + rewrite Hstor by (by left). by rewrite Hnone, Hc.
    + rewrite Hstor by (right; by eexists). rewrite Hv. simpl.
      f_equal. apply cached_entry_of_record. by apply (Hshape k).
  - rewrite bool_decide_eq_false_2 by done.
    destruct (mf !! k) as [v|] eqn:Hv; [|done].
    exfalso. apply Hout, Honly. by eexists.
Qed.

Lemma cached_repeat_call_witness :
  cachedFetcher_Fetch first_call.1.1 true false ["1234"] (sleep 30 first_call.1.2)
  = (first_call.1.1, sleep 30 first_call.1.2,
     Return (Some {[ "1234" := <["ipv4" := [net_v4]]> (<["ipv6" := []]> ∅) ]}, None)).
Proof.
  apply (cached_repeat_call whois (mkMemory ∅ ∅ 60) true false ["1234"] two_peers
           first_call.1.2 (sleep 30 first_call.1.2) first_call.1.1
           {[ "1234" := <["ipv4" := [net_v4]]> (<["ipv6" := []]> ∅) ]}).
  - vm_compute. reflexivity.
  - intros a Ha. apply elem_of_cons in Ha as [->|Ha]; [|by apply elem_of_nil in Ha].
    vm_compute. reflexivity.
Defined.

(** ** The handler of [GET /:asn] *)

(** A split has at least one piece. *)
Lemma Split_on_nonempty (sep : ascii) (s : string) : Split_on sep s ≠ [].
Proof.
  destruct s as [|c s]; simpl; [done|].
  destruct (Ascii.eqb c sep); [done|]. by destruct (Split_on sep s).
Qed.

(** Joining what was split gives the string back. *)
Lemma Join_Split_on (sep : ascii) (s : string) : Join (Split_on sep s) (String sep "") = s.
Proof.
  induction s as [|c s IH]; [done|]. cbn [Split_on].
  pose proof (Split_on_nonempty sep s) as Hne.
  destruct (Split_on sep s) as [|p ps]; [done|].
  destruct (Ascii.eqb c sep) eqn:Hc.
  - apply Ascii.eqb_eq in Hc. subst c.
    change (Join ("" :: p :: ps) (String sep ""))
      with ("" +:+ String sep "" +:+ Join (p :: ps) (String sep "")).
    by rewrite IH.
  - destruct ps as [|p' ps'].
    + cbn [Join] in *. by rewrite IH.
    + change (Join (String c p :: p' :: ps') (String sep ""))
        with (String c p +:+ String sep "" +:+ Join (p' :: ps') (String sep "")).
      change (Join (p :: p' :: ps') (String sep ""))
        with (p +:+ String sep "" +:+ Join (p' :: ps') (String sep "")) in IH.
      rewrite string_app_cons. by rewrite IH.
Qed.

Section router_properties.

Variable IPNet_String : net.IPNet → string.
Variable EqualFold : string → string → bool.
Variable range_map : ∀ A : Type, nat → gmap string A → list (string * A).

Context {S : Type} `{Storage S}.

(** X23.  The handler answers with status 400 exactly when the [ipv4] or
    the [ipv6] query parameter is present and is none of the twelve
    spellings [strconv.ParseBool] knows; it then has not called the
    fetcher: the cache and the world are untouched.  A parameter that is
    absent counts as true. *)
Theorem handler_bad_request (f : cachedFetcher S) (req : Request) (w : World)
    (resp : Response) :
  (asn_handler IPNet_String EqualFold range_map f req w).2 = Return resp →
  (status resp = StatusBadRequest
   ↔ ParseBool (DefaultQuery req "ipv4" "true") = None
     ∨ ParseBool (DefaultQuery req "ipv6" "true") = None)
  ∧ (status resp = StatusBadRequest → (asn_handler IPNet_String EqualFold range_map f req w).1 = (f, w))
  ∧ (query req !! "ipv4" = None → query req !! "ipv6" = None →
     status resp ≠ StatusBadRequest).
Proof.
  unfold asn_handler.
  assert (Hdef : ∀ key, query req !! key = None →
                        ParseBool (DefaultQuery req key "true") = Some true).
  { intros key Hk. unfold DefaultQuery. by rewrite Hk. }
  destruct (ParseBool (DefaultQuery req "ipv4" "true")) as [ipv4|] eqn:H4.
  - destruct (ParseBool (DefaultQuery req "ipv6" "true")) as [ipv6|] eqn:H6.
    + destruct (cachedFetcher_Fetch f ipv4 ipv6 _ w) as [[f' w'] [[ips [e|]]|e|]];
        try discriminate.
      * intros [= <-]. cbn [status]. split; [|done].
        split; [discriminate | intros [?|?]; discriminate].
      * destruct (wantJson EqualFold req).
        -- intros [= <-]. cbn [status]. split; [|done].
           split; [discriminate | intros [?|?]; discriminate].
        -- destruct (collect IPNet_String range_map (default ∅ ips)) as [a4 a6].
           intros [= <-]. cbn [status]. split; [|done].
           split; [discriminate | intros [?|?]; discriminate].
    + intros [= <-]. cbn [status]. split; [split; [by right | done]|].
      split; [done|]. intros _ Hk. by rewrite (Hdef "ipv6" Hk) in H6.
  - intros [= <-]. cbn [status]. split; [split; [by left | done]|].
    split; [done|]. intros Hk _. by rewrite (Hdef "ipv4" Hk) in H4.
Qed.

(** X24.  When the fetcher returns an error, the handler answers with
    status 500 and a text that names the [asn] segment as it was
    requested (the AS numbers, joined again with colons) and nothing of
    the error. *)
Theorem handler_fetch_error (f : cachedFetcher S) (req : Request) (w : World)
    (ipv4 ipv6 : bool) (r : option mapping) (e : error) :
  ParseBool (DefaultQuery req "ipv4" "true") = Some ipv4 →
  ParseBool (DefaultQuery req "ipv6" "true") = Some ipv6 →
  (cachedFetcher_Fetch f ipv4 ipv6 (Split_on ":" (param_asn req)) w).2 = Return (r, Some e) →
  (asn_handler IPNet_String EqualFold range_map f req w).2
  = Return (mkResponse StatusInternalServerError
              (Text ("failed to fetch ip addresses for AS " +:+ param_asn req))).
Proof.
  intros H4 H6 Herr. unfold asn_handler. rewrite H4, H6.
  destruct (cachedFetcher_Fetch f ipv4 ipv6 _ w) as [[f' w'] o]. cbn [snd] in *. subst o.
  cbn [snd]. by rewrite (Join_Split_on ":" (param_asn req)).
Qed.

(** The inner loop of the text branch, over an association list without
    a repeated key. *)
Lemma collect_step_spec (l : list (string * list net.IPNet)) :
  NoDup l.*1 →
  ∀ acc : list string * list string,
    foldl (λ '(allIP4, allIP6) '(ver, nets),
             if String.eqb ver "ipv4" then (allIP4 ++ (IPNet_String <$> nets), allIP6)
             else if String.eqb ver "ipv6" then (allIP4, allIP6 ++ (IPNet_String <$> nets))
             else (allIP4, allIP6))
          acc l
    = (acc.1 ++ (IPNet_String <$> at_key (list_to_map l) "ipv4"),
       acc.2 ++ (IPNet_String <$> at_key (list_to_map l) "ipv6")).
Proof.
  induction l as [|[k nets] l IH]; intros Hnd [a4 a6].
  - simpl. unfold at_key. rewrite !lookup_empty. simpl. by rewrite !app_nil_r.
  - apply NoDup_cons in Hnd as [Hk Hnd]. cbn [foldl].
    assert (Hnone : (list_to_map l : gmap string (list net.IPNet)) !! k = None).
    { by apply not_elem_of_list_to_map_1. }
    unfold at_key in *. cbn [list_to_map foldr uncurry fst snd].
    destruct (String.eqb k "ipv4") eqn:E4.
    + apply String.eqb_eq in E4. subst k. rewrite (IH Hnd). cbn [fst snd].
      rewrite lookup_insert_eq, lookup_insert_ne by done. rewrite Hnone. simpl.
      by rewrite app_nil_r.
    + apply String.eqb_neq in E4. destruct (String.eqb k "ipv6") eqn:E6.
      * apply String.eqb_eq in E6. subst k. rewrite (IH Hnd). cbn [fst snd].
        rewrite lookup_insert_eq, lookup_insert_ne by done. rewrite Hnone. simpl.
        by rewrite app_nil_r.
      * apply String.eqb_neq in E6. rewrite (IH Hnd). cbn [fst snd].
        by rewrite !lookup_insert_ne by done.
Qed.

(** What Go promises of a [range] statement over a map that is not
    written to meanwhile: every entry is visited, and visited once. *)
Hypothesis range_map_visits :
  ∀ (A : Type) (n : nat) (m : gmap string A), range_map A n m ≡ₚ map_to_list m.

Lemma collect_versions_spec (n : nat) (acc : list string * list string)
    (e : gmap string (list net.IPNet)) :
  collect_versions IPNet_String range_map n acc e
  = (acc.1 ++ (IPNet_String <$> at_key e "ipv4"), acc.2 ++ (IPNet_String <$> at_key e "ipv6")).
Proof.
  unfold collect_versions.
  pose proof (range_map_visits _ n e) as Hperm.
  assert (Hnd : NoDup (range_map _ n e).*1).
  { rewrite Hperm. apply NoDup_fst_map_to_list. }
  rewrite (collect_step_spec (range_map _ n e) Hnd acc).
  by rewrite (list_to_map_proper _ _ Hnd Hperm), list_to_map_to_list.
Qed.

Lemma collect_spec (ips : mapping) :
  collect IPNet_String range_map ips
  = (range_map _ 0%nat ips ≫= (λ p, IPNet_String <$> at_key p.2 "ipv4"),
     range_map _ 0%nat ips ≫= (λ p, IPNet_String <$> at_key p.2 "ipv6")).
Proof.
  unfold collect.
  assert (Hgen : ∀ (l : list (string * gmap string (list net.IPNet))) acc n,
             (foldl (λ '(acc, n) '(_, ipversions),
                       (collect_versions IPNet_String range_map n acc ipversions, (n + 1)%nat))
                    (acc, n) l).1
             = (acc.1 ++ (l ≫= (λ p, IPNet_String <$> at_key p.2 "ipv4")),
                acc.2 ++ (l ≫= (λ p, IPNet_String <$> at_key p.2 "ipv6")))).
  { induction l as [|[k e] l IH]; intros [a4 a6] n; simpl; [by rewrite !app_nil_r|].
    rewrite collect_versions_spec, IH. simpl. by rewrite <- !app_assoc. }
  by rewrite Hgen.
Qed.

(** X25.  The text answer to a request that succeeds: status 200 and one
    line of text, the networks joined with the separator (a space unless
    the request names another), every IPv4 network before every IPv6
    network.  Within each half the AS numbers come in the order in which
    the one [range] statement over the result visits them, an order the
    language leaves open and that is the same for both halves; the
    networks of one AS number come in the order of the result.  The order
    in which the inner [range] statements visit the two versions has no
    bearing on the text. *)
Theorem handler_text_body (f f' : cachedFetcher S) (req : Request) (w w' : World)
    (ipv4 ipv6 : bool) (ips : mapping) :
  ParseBool (DefaultQuery req "ipv4" "true") = Some ipv4 →
  ParseBool (DefaultQuery req "ipv6" "true") = Some ipv6 →
  wantJson EqualFold req = false →
  cachedFetcher_Fetch f ipv4 ipv6 (Split_on ":" (param_asn req)) w
  = (f', w', Return (Some ips, None)) →
  asn_handler IPNet_String EqualFold range_map f req w
  = (f', w',
     Return (mkResponse StatusOK
               (Text (Join ((range_map _ 0%nat ips
                             ≫= (λ p, IPNet_String <$> at_key p.2 "ipv4"))
                            ++ (range_map _ 0%nat ips
                                ≫= (λ p, IPNet_String <$> at_key p.2 "ipv6")))
                        (default " " (query req !! "separator")))))).
Proof.
  intros H4 H6 Hjson Hfetch. unfold asn_handler. rewrite H4, H6, Hfetch, Hjson.
  cbn [default from_option id]. by rewrite collect_spec.
Qed.

End router_properties.

Lemma handler_bad_request_witness :
  (status (mkResponse StatusBadRequest (Text "ipv6 query parameter must be a boolean"))
   = StatusBadRequest
   ↔ ParseBool (DefaultQuery bad_request "ipv4" "true") = None
     ∨ ParseBool (DefaultQuery bad_request "ipv6" "true") = None)
  ∧ (status (mkResponse StatusBadRequest (Text "ipv6 query parameter must be a boolean"))
     = StatusBadRequest →
     (asn_handler sample_String sample_EqualFold range_forward cold bad_request two_peers).1
     = (cold, two_peers))
  ∧ (query bad_request !! "ipv4" = None → query bad_request !! "ipv6" = None →
     status (mkResponse StatusBadRequest (Text "ipv6 query parameter must be a boolean"))
     ≠ StatusBadRequest).
Proof.
  apply (handler_bad_request sample_String sample_EqualFold range_forward cold bad_request two_peers).
  vm_compute. reflexivity.
Defined.

Lemma handler_fetch_error_witness :
  (asn_handler sample_String sample_EqualFold range_forward cold v4_request
     (quiet [Accept ("D" +:+ nl) [] 5])).2
  = Return (mkResponse StatusInternalServerError
              (Text ("failed to fetch ip addresses for AS " +:+ param_asn v4_request))).
Proof.
  apply (handler_fetch_error sample_String sample_EqualFold range_forward cold v4_request
           (quiet [Accept ("D" +:+ nl) [] 5]) true false None (Errorf "as 1234 not found")).
  - vm_compute. reflexivity.
  - vm_compute. reflexivity.
  - vm_compute. reflexivity.
Defined.

Lemma handler_text_body_witness :
  asn_handler first_byte_String sample_EqualFold range_backward cold two_as_request two_answers
  = (two_as_call.1.1, two_as_call.1.2,
     Return (mkResponse StatusOK
               (Text (Join ((range_backward _ 0%nat
                               ({[ "1234" := <["ipv4" := [net_v4]]> (<["ipv6" := []]> ∅);
                                   "5678" := <["ipv4" := [other_v4]]> (<["ipv6" := []]> ∅) ]}
                                : mapping)
                             ≫= (λ p, first_byte_String <$> at_key p.2 "ipv4"))
                            ++ (range_backward _ 0%nat
                                  ({[ "1234" := <["ipv4" := [net_v4]]> (<["ipv6" := []]> ∅);
                                      "5678" := <["ipv4" := [other_v4]]> (<["ipv6" := []]> ∅) ]}
                                   : mapping)
                                ≫= (λ p, first_byte_String <$> at_key p.2 "ipv6")))
                        (default " " (query two_as_request !! "separator")))))).
Proof.
  apply (handler_text_body first_byte_String sample_EqualFold range_backward
           (λ A n m, reverse_Permutation (map_to_list m))
           cold two_as_call.1.1 two_as_request two_answers two_as_call.1.2 true false
           {[ "1234" := <["ipv4" := [net_v4]]> (<["ipv6" := []]> ∅);
              "5678" := <["ipv4" := [other_v4]]> (<["ipv6" := []]> ∅) ]}).
  - vm_compute. reflexivity.
  - vm_compute. reflexivity.
  - vm_compute. reflexivity.
  - vm_compute. reflexivity.
Defined.

Example handler_text_example :
  (asn_handler sample_String sample_EqualFold range_forward cold v4_request two_peers).2
  = Return (mkResponse 200 (Text "v4")).
Proof. vm_compute. reflexivity. Qed.

(** The same request, answered in two orders of the AS numbers. *)
Example handler_text_orders :
  (asn_handler first_byte_String sample_EqualFold range_forward cold two_as_request
     two_answers).2
  = Return (mkResponse 200 (Text "5 1"))
  ∧ (asn_handler first_byte_String sample_EqualFold range_backward cold two_as_request
       two_answers).2
    = Return (mkResponse 200 (Text "1 5")).
Proof. split; vm_compute; reflexivity. Qed.

(** ** From the wire to the mapping *)

(** X26.  One AS number, both versions, on a connection whose writes
    succeed: the peer sends a complete answer to the IPv4 query and then a
    complete answer to the IPv6 query.  [Fetch] returns the mapping with
    the networks of the first answer under ["ipv4"] and those of the
    second under ["ipv6"]; the session shows the enable sequence, the two
    queries and the exit command, and is closed; what the peer sent after
    the second answer is never read. *)
Theorem Fetch_both_versions (f : fetcher) (X : string) (w : World) (h4 h6 rest : string)
    (lines4 lines6 : list string) (netss4 netss6 : list (list net.IPNet)) (d : Z)
    (peers : list Peer) :
  no_LF h4 = true → Forall (λ l, no_LF l = true) lines4 → mapM line_nets lines4 = Some netss4 →
  no_LF h6 = true → Forall (λ l, no_LF l = true) lines6 → mapM line_nets lines6 = Some netss6 →
  network w
  = Accept (String "A" h4 +:+ nl +:+ on_wire lines4 +:+ "C" +:+ nl
            +:+ String "A" h6 +:+ nl +:+ on_wire lines6 +:+ "C" +:+ nl +:+ rest) [] d
    :: peers →
  fetcher_Fetch f true true [X] w
  = (mkWorld (now w + d) peers
       (history w
        ++ [Session (address f)
              (mkConn rest []
                 [("!!" +:+ nl, true); ("!gAS" +:+ X +:+ nl, true); ("!6AS" +:+ X +:+ nl, true);
                  ("exit" +:+ nl, true)] d true)]),
     Return (Some {[ X := <["ipv6" := concat netss6]> (<["ipv4" := concat netss4]> fresh_entry) ]},
             None)).
Proof.
  intros Hh4 Hl4 Hm4 Hh6 Hl6 Hm6 Hnet.
  unfold fetcher_Fetch. change (length [X] =? 0)%nat with false. cbv iota.
  unfold Dial. rewrite Hnet. unfold session, conn_Write.
  cbn [wscript written incoming duration closed length lookup list_lookup default from_option
       id app].
  cbn [fetch_range fetch_into].
  rewrite (fetch_answer _ X 4 ("!gAS" +:+ X +:+ nl) h4 "C"
             (String "A" h6 +:+ nl +:+ on_wire lines6 +:+ "C" +:+ nl +:+ rest) lines4 netss4);
    [|reflexivity|reflexivity|done|done|reflexivity|done|reflexivity|reflexivity].
  cbn [wscript written incoming duration closed app].
  rewrite (fetch_answer _ X 6 ("!6AS" +:+ X +:+ nl) h6 "C" rest lines6 netss6);
    [|reflexivity|reflexivity|done|done|reflexivity|done|reflexivity|reflexivity].
  cbn [wscript written incoming duration closed app].
  unfold deferred, conn_Write, hang_up, conn_Close.
  cbn [wscript written incoming duration closed app length lookup list_lookup default
       from_option id now network history].
  rewrite insert_empty, !alter_singleton_eq. reflexivity.
Qed.

Lemma Fetch_both_versions_witness :
  fetcher_Fetch whois true true ["1234"]
    (quiet [Accept (String "A" "1" +:+ nl +:+ on_wire ["1.2.3.0/24"] +:+ "C" +:+ nl
                    +:+ String "A" "1" +:+ nl +:+ on_wire ["2001:db8::/32"] +:+ "C" +:+ nl
                    +:+ "") [] 5])
  = (mkWorld (now (quiet []) + 5) []
       (history (quiet [])
        ++ [Session (address whois)
              (mkConn "" []
                 [("!!" +:+ nl, true); ("!gAS" +:+ "1234" +:+ nl, true);
                  ("!6AS" +:+ "1234" +:+ nl, true); ("exit" +:+ nl, true)] 5 true)]),
     Return (Some {[ "1234" := <["ipv6" := concat [[net_v6]]]>
                                 (<["ipv4" := concat [[net_v4]]]> fresh_entry) ]},
             None)).
Proof.
  apply (Fetch_both_versions whois "1234"
           (quiet [Accept (String "A" "1" +:+ nl +:+ on_wire ["1.2.3.0/24"] +:+ "C" +:+ nl
                           +:+ String "A" "1" +:+ nl +:+ on_wire ["2001:db8::/32"]
                           +:+ "C" +:+ nl +:+ "") [] 5])
           "1" "1" "" ["1.2.3.0/24"] ["2001:db8::/32"] [[net_v4]] [[net_v6]] 5 []).
  - reflexivity.
  - repeat constructor.
  - vm_compute. reflexivity.
  - reflexivity.
  - repeat constructor.
  - vm_compute. reflexivity.
  - reflexivity.
Defined.

(** X27.  An answer that is cut short: after a header line and data lines
    whose tokens all are prefixes, the peer closes the connection before
    the line feed of a further line.  The query does not return: it
    panics with the read error, whatever networks it had gathered, having
    read all the peer sent. *)
Theorem fetch_truncated_panics (c : Conn) (as_ : string) (version : Z) (cmd h tail : string)
    (lines : list string) (netss : list (list net.IPNet)) :
  fetch_cmd as_ version = Some cmd →
  default true (wscript c !! length (written c)) = true →
  no_LF h = true → Forall (λ l, no_LF l = true) lines → no_LF tail = true →
  mapM line_nets lines = Some netss →
  incoming c = String "A" h +:+ nl +:+ on_wire lines +:+ tail →
  fetch c as_ version
  = (mkConn "" (wscript c) (written c ++ [(cmd, true)]) (duration c) (closed c),
     Panicked (Wrap io_EOF "failed to read next byte from connection")).
Proof.
  intros Hcmd Hw Hh Hlines Htail Hm Hinc.
  destruct (fetch_header_and_data c as_ version cmd h tail lines netss) as [k ->];
    try done.
  cbn [fetch_loop]. unfold readLine. cbn [incoming].
  by rewrite readLine_loop_no_LF.
Qed.

Lemma fetch_truncated_panics_witness :
  fetch (idle (String "A" "17" +:+ nl +:+ on_wire ["1.2.3.0/24"] +:+ "1.2.4.0/2")) "1234" 4
  = (mkConn "" [] ([] ++ [("!gAS1234" +:+ nl, true)]) 0 false,
     Panicked (Wrap io_EOF "failed to read next byte from connection")).
Proof.
  apply (fetch_truncated_panics
           (idle (String "A" "17" +:+ nl +:+ on_wire ["1.2.3.0/24"] +:+ "1.2.4.0/2"))
           "1234" 4 ("!gAS1234" +:+ nl) "17" "1.2.4.0/2" ["1.2.3.0/24"] [[net_v4]]).
  - reflexivity.
  - reflexivity.
  - reflexivity.
  - repeat constructor.
  - reflexivity.
  - vm_compute. reflexivity.
  - reflexivity.
Defined.

(** X28.  Over the in-memory backend, what goes wrong in the plain
    fetcher comes out of the cached fetcher as it is: an error is returned
    unchanged (not wrapped) with a nil mapping, and a panic is the same
    panic. *)
Theorem cached_failure_passes (f : fetcher) (c : memory) (ipv4 ipv6 : bool)
    (asn : list string) (w : World) (e : error) :
  ((∃ r : option mapping,
      (fetcher_Fetch f ipv4 ipv6
         (filter (λ a, is_cached ipv4 ipv6 c (now w) a = false) asn) w).2
      = Return (r, Some e)) →
   (cachedFetcher_Fetch (mkCachedFetcher c f) ipv4 ipv6 asn w).2 = Return (None, Some e))
  ∧ ((fetcher_Fetch f ipv4 ipv6
        (filter (λ a, is_cached ipv4 ipv6 c (now w) a = false) asn) w).2
     = Panicked e →
     (cachedFetcher_Fetch (mkCachedFetcher c f) ipv4 ipv6 asn w).2 = Panicked e).
Proof.
  unfold cachedFetcher_Fetch. destruct (length asn =? 0)%nat eqn:Hlen.
  { apply Nat.eqb_eq, nil_length_inv in Hlen. subst asn. simpl.
    split; [intros [r [=]] | discriminate]. }
  cbn [cache embedded].
  destruct (lookup_range_memory_spec ipv4 ipv6 (now w) asn c [] ∅)
    as (c' & result' & -> & _ & _).
  cbn [app]. set (u := filter (λ a, is_cached ipv4 ipv6 c (now w) a = false) asn).
  destruct (length u =? 0)%nat eqn:Hu.
  { apply Nat.eqb_eq, nil_length_inv in Hu. rewrite Hu. simpl.
    split; [intros [r [=]] | discriminate]. }
  destruct (fetcher_Fetch f ipv4 ipv6 u w) as [w' [[r [e'|]]|e'|]]; cbn [fst snd].
  - split; [intros [r0 [= _ <-]]; done | discriminate].
  - split; [intros [r0 [=]] | discriminate].
  - split; [intros [r0 [=]] | by intros [= <-]].
  - split; [intros [r0 [=]] | discriminate].
Qed.

Lemma cached_failure_passes_witness :
  (cachedFetcher_Fetch (mkCachedFetcher sample_store whois) true true ["64496"; "9999"]
     (quiet [Accept ("D" +:+ nl) [] 5])).2
  = Return (None, Some (Errorf "as 64496 not found")).
Proof.
  apply (proj1 (cached_failure_passes whois sample_store true true ["64496"; "9999"]
                  (quiet [Accept ("D" +:+ nl) [] 5]) (Errorf "as 64496 not found"))).
  exists None. vm_compute. reflexivity.
Defined.
